(** * Size estimation: a shallow embedding of [size_predictor.py]

    The development follows [src/size_estimation/size_predictor.py], class
    [SizeEstimator]: the measurement normaliser, the feature extractor, the
    rule-based fallback and [predict_size] with its [try]/[except] boundary.

    Python objects are modelled as they occur in the code:
    - a measurement mapping is a [dict] from names to arbitrary scalars
      ([gmap string pyval]); the code tests [isinstance(value, (int, float))]
      itself, so non-numeric values are part of the input space;
    - Python's [float] is IEEE 754 binary64, here Rocq's primitive [float];
      the code is written against the interface [PyFloat], which lists the
      operations of [float] that it uses;
    - [np.array] gives its elements a common dtype: floats next to ints
      become [float64], anything next to a string becomes a string (a float
      as [str] prints it), and [None] makes an array of Python objects;
    - exceptions are explicit: a computation returns [Return v] or [Raise e];
    - the [logging] calls are collected in a list of records.

    After the estimator come the rest of the module ([__init__],
    [save_model], [load_model], [load_scaler], [_get_feature_importance],
    [generate_synthetic_data]) and, from
    [src/pose_detection/pose_detector.py], the two functions that build the
    measurement mapping.  Library code (NumPy's random generator, joblib,
    the file system, the C library's [pow]) is a parameter of the
    definitions that call it. *)

From Stdlib Require Import ZArith Floats QArith Qpower Lqa.
From stdpp Require Import base option list gmap strings fin_maps pretty.

Set Default Proof Using "Type".
(* Decimal literals such as [0.1] denote the nearest binary64 value, as in
   Python. *)
Set Warnings "-inexact-float".
Local Open Scope Z_scope.

(** ** Exceptions and the result of a call *)

(** The subclasses of [Exception] that the modelled code can meet.
    [LibraryError] stands for whatever a classifier or scaler raises. *)
Inductive exception :=
  | TypeError
  | OverflowError
  | ZeroDivisionError
  | KeyError
  | IndexError
  | ValueError
  | LibraryError (msg : string).

Inductive exc (A : Type) :=
  | Return (a : A)
  | Raise (e : exception).
Arguments Return {A} a.
Arguments Raise {A} e.

#[global] Instance exc_ret : MRet exc := fun A a => Return a.
#[global] Instance exc_bind : MBind exc := fun A B f c =>
  match c with
  | Return a => f a
  | Raise e => Raise e
  end.
#[global] Instance exc_fmap : FMap exc := fun A B f c =>
  match c with
  | Return a => Return (f a)
  | Raise e => Raise e
  end.

Definition returns {A} (c : exc A) : Prop := exists a, c = Return a.

(** ** Python's [float] *)

(** The operations of [float] that the code uses.  [f_of_Z] is the rounding
    conversion of an [int]; in binary64 it may produce an infinity, which
    [float_of_int] below turns into [OverflowError] as CPython does.
    [fstr] is [str(x)], which NumPy calls when it stores a float in an array
    of strings. *)
Class PyFloat (F : Type) := {
  fmul : F -> F -> F;
  fdiv : F -> F -> F;
  fltb : F -> F -> bool;
  fleb : F -> F -> bool;
  feqb : F -> F -> bool;
  fis_nan : F -> bool;
  fis_finite : F -> bool;
  f_of_Z : Z -> F;
  fstr : F -> string
}.

Declare Scope pyfloat_scope.
Delimit Scope pyfloat_scope with py.
Infix "⊗" := fmul (at level 40, left associativity) : pyfloat_scope.
Infix "⊘" := fdiv (at level 40, left associativity) : pyfloat_scope.
Infix "<.?" := fltb (at level 70, no associativity) : pyfloat_scope.
Infix "<=.?" := fleb (at level 70, no associativity) : pyfloat_scope.
Infix "=.?" := feqb (at level 70, no associativity) : pyfloat_scope.
Local Open Scope pyfloat_scope.

(** IEEE 754 binary64: CPython's [float]. *)
Definition Z_to_binary64 (z : Z) : float :=
  SF2Prim (binary_normalize prec emax z 0 false).

Definition SF_is_finite (s : spec_float) : bool :=
  match s with
  | S754_zero _ | S754_finite _ _ _ => true
  | S754_infinity _ | S754_nan => false
  end.

Definition binary64_is_finite (x : float) : bool := SF_is_finite (Prim2SF x).

(** *** [str] of a float

    CPython prints a float with the fewest significant digits that read
    back as the same float ([float_repr_style] is ['short']), in fixed
    notation when the decimal point falls within the digits or close to
    them and in exponent notation otherwise. *)

(** [m * 2^e / 10^j] as a fraction of two positive integers. *)
Definition decimal_scaled (m : positive) (e j : Z) : Z * Z :=
  (Zpos m * 2 ^ Z.max e 0 * 10 ^ Z.max (- j) 0,
   2 ^ Z.max (- e) 0 * 10 ^ Z.max j 0).

(** The position of the decimal point: the least [k], from [k] on, with
    [m * 2^e < 10^k]. *)
Fixpoint decimal_point_from (fuel : nat) (k : Z) (m : positive) (e : Z) : Z :=
  match fuel with
  | O => k
  | S fuel' =>
      let '(n, d) := decimal_scaled m e k in
      if n <? d then k else decimal_point_from fuel' (k + 1) m e
  end.

(** Every finite binary64 value lies between [10^-324] and [10^309]. *)
Definition decimal_point (m : positive) (e : Z) : Z :=
  decimal_point_from 640 (-324) m e.

(** Whether the decimal [c * 10^j] reads back as the float [m * 2^e]: it
    lies between the midpoints to the two neighbouring floats, the
    midpoints included when [m] is even (a tie is rounded to the even
    mantissa).  Below a power of two the neighbour is half as far away. *)
Definition reads_back (m : positive) (e j c : Z) : bool :=
  let r := 2 ^ Z.max e 0 * 10 ^ Z.max (- j) 0 in
  let d := 2 ^ Z.max (- e) 0 * 10 ^ Z.max j 0 in
  let below := if (Zpos m =? 2 ^ 52) && (-1074 <? e) then 1 else 2 in
  let lo := (4 * Zpos m - below) * r in
  let hi := (4 * Zpos m + 2) * r in
  if Z.even (Zpos m)
  then (lo <=? 4 * d * c) && (4 * d * c <=? hi)
  else (lo <? 4 * d * c) && (4 * d * c <? hi).

(** The shortest digit string that reads back, tried with one more digit
    (at [10^j], then [10^(j-1)], ...) until the float rounded down or up to
    that digit reads back; when both do, the nearer one.  The result
    [(c, j)] stands for [c * 10^j]; 17 digits always read back. *)
Fixpoint shortest_from (fuel : nat) (j : Z) (m : positive) (e : Z) : Z * Z :=
  let '(n, d) := decimal_scaled m e j in
  let c := n / d in
  match fuel with
  | O => (c, j)
  | S fuel' =>
      let down := reads_back m e j c in
      let up := reads_back m e j (c + 1) in
      if down && up then
        match 2 * n ?= (2 * c + 1) * d with
        | Lt => (c, j)
        | Gt => (c + 1, j)
        | Eq => (if Z.even c then c else c + 1, j)
        end
      else if down then (c, j)
      else if up then (c + 1, j)
      else shortest_from fuel' (j - 1) m e
  end.

Definition shortest_digits (m : positive) (e : Z) : Z * Z :=
  let '(c, j) := shortest_from 17 (decimal_point m e - 1) m e in
  if c =? 10 then (1, j + 1) else (c, j).

Definition zeros (n : Z) : string :=
  String.concat "" (replicate (Z.to_nat n) "0"%string).

(** The digits [c] at [10^j] as text: fixed notation when the decimal point
    [decpt] has [-4 < decpt <= 16], otherwise exponent notation with at
    least two exponent digits. *)
Definition format_short (c j : Z) : string :=
  let digits := pretty c in
  let len := Z.of_nat (String.length digits) in
  let decpt := len + j in
  if (-4 <? decpt) && (decpt <=? 16) then
    if decpt <=? 0 then "0." +:+ zeros (- decpt) +:+ digits
    else if len <=? decpt then digits +:+ zeros (decpt - len) +:+ ".0"
    else String.substring 0 (Z.to_nat decpt) digits +:+ "." +:+
         String.substring (Z.to_nat decpt) (Z.to_nat (len - decpt)) digits
  else
    let exponent := decpt - 1 in
    String.substring 0 1 digits +:+
    (if 1 <? len then "." +:+ String.substring 1 (Z.to_nat (len - 1)) digits else "") +:+
    "e" +:+ (if exponent <? 0 then "-" else "+") +:+
    (if Z.abs exponent <? 10 then "0" else "") +:+ pretty (Z.abs exponent).

Definition SF_repr (s : spec_float) : string :=
  match s with
  | S754_nan => "nan"
  | S754_infinity false => "inf"
  | S754_infinity true => "-inf"
  | S754_zero false => "0.0"
  | S754_zero true => "-0.0"
  | S754_finite sign m e =>
      let '(c, j) := shortest_digits m e in
      (if sign then "-" else "") +:+ format_short c j
  end.

Definition float_repr (x : float) : string := SF_repr (Prim2SF x).

#[global] Instance binary64 : PyFloat float := {|
  fmul := PrimFloat.mul;
  fdiv := PrimFloat.div;
  fltb := PrimFloat.ltb;
  fleb := PrimFloat.leb;
  feqb := PrimFloat.eqb;
  fis_nan := PrimFloat.is_nan;
  fis_finite := binary64_is_finite;
  f_of_Z := Z_to_binary64;
  fstr := float_repr
|}.

Section Python.
Context {F : Type} `{PyFloat F}.

(** A decimal literal [n/d] of the source, e.g. [3.5] is [flit 7 2]: the
    float nearest to the quotient (both operands are exact, and the
    division is correctly rounded). *)
Definition flit (n : Z) (d : positive) : F := f_of_Z n ⊘ f_of_Z (Zpos d).

(** The scalars a measurement mapping can hold. *)
Inductive pyval :=
  | VNone
  | VBool (b : bool)
  | VInt (z : Z)
  | VFloat (x : F)
  | VStr (s : string).

(** [isinstance(value, (int, float))]; [bool] is a subclass of [int]. *)
Definition isinstance_int_float (value : pyval) : bool :=
  match value with
  | VBool _ | VInt _ | VFloat _ => true
  | VNone | VStr _ => false
  end.

(** Conversion of an [int] operand in mixed arithmetic. *)
Definition float_of_int (z : Z) : exc F :=
  let x := f_of_Z z in
  if fis_finite x then Return x else Raise OverflowError.

(** The float operand that [value * c] computes with, for a float [c]:
    [str * float] and [None * float] raise [TypeError]. *)
Definition as_float (value : pyval) : exc F :=
  match value with
  | VFloat x => Return x
  | VInt z => float_of_int z
  | VBool b => float_of_int (Z.b2z b)
  | VNone | VStr _ => Raise TypeError
  end.

(** [value * c] with [c] a float. *)
Definition py_mul (value : pyval) (c : F) : exc F :=
  x ← as_float value; Return (x ⊗ c).

(** [a / b] on floats raises on a zero divisor of either sign. *)
Definition py_div (a b : F) : exc F :=
  if b =.? f_of_Z 0 then Raise ZeroDivisionError else Return (a ⊘ b).

(** [str(value)]. *)
Definition py_str (value : pyval) : string :=
  match value with
  | VNone => "None"
  | VBool true => "True"
  | VBool false => "False"
  | VInt z => pretty z
  | VFloat x => fstr x
  | VStr s => s
  end.

(** [value < k] for an [int] literal [k].  CPython compares a float with
    an int by value; every literal of this module is exactly
    representable, so comparing with its conversion is the same. *)
Definition py_lt_int (value : pyval) (k : Z) : exc bool :=
  match value with
  | VFloat x => Return (x <.? f_of_Z k)
  | VInt z => Return (z <? k)
  | VBool b => Return (Z.b2z b <? k)
  | VNone | VStr _ => Raise TypeError
  end.
End Python.
Arguments pyval F : clear implicits.

(** ** The estimator *)

Module SizeEstimator.
Section Estimator.
Context {F : Type} `{PyFloat F}.

(** A measurement mapping: a Python [dict] keyed by measurement name. *)
Abbreviation measurements_t := (gmap string (pyval F)).

(** A two-dimensional numpy array, as the list of its rows.  All elements
    of an array have its dtype: an element of a [bool] array is a [VBool],
    of an integer array a [VInt], of a [float64] array a [VFloat], of an
    array of strings a [VStr]; an [object] array holds any Python scalar. *)
Abbreviation ndarray := (list (list (pyval F))).

(** The dtypes [np.array] can choose for a list of Python scalars. *)
Inductive dtype :=
  | bool_
  | int64
  | uint64
  | float64
  | str_
  | object_.

(** The dtype NumPy finds for one scalar: an [int] is an [int64] when it
    fits, else a [uint64] when it fits, else a Python object. *)
Definition dtype_of (value : pyval F) : dtype :=
  match value with
  | VNone => object_
  | VBool _ => bool_
  | VInt z =>
      if (- 2 ^ 63 <=? z) && (z <? 2 ^ 63) then int64
      else if (0 <=? z) && (z <? 2 ^ 64) then uint64
      else object_
  | VFloat _ => float64
  | VStr _ => str_
  end.

(** [np.promote_types]: the smallest dtype both can be cast to.  The two
    integer types meet in [float64]; numbers and strings in strings. *)
Definition promote_types (a b : dtype) : dtype :=
  match a, b with
  | object_, _ | _, object_ => object_
  | str_, _ | _, str_ => str_
  | float64, _ | _, float64 => float64
  | int64, uint64 | uint64, int64 => float64
  | int64, _ | _, int64 => int64
  | uint64, _ | _, uint64 => uint64
  | bool_, bool_ => bool_
  end.

(** The common dtype of a list of scalars; of the empty list, [float64]. *)
Definition result_type (values : list (pyval F)) : dtype :=
  match values with
  | [] => float64
  | _ => foldl promote_types bool_ (dtype_of <$> values)
  end.

(** The element stored for a scalar in an array of a dtype that it can be
    cast to. *)
Definition astype (dt : dtype) (value : pyval F) : pyval F :=
  match dt with
  | bool_ | object_ => value
  | int64 | uint64 =>
      match value with
      | VBool b => VInt (Z.b2z b)
      | _ => value
      end
  | float64 =>
      match value with
      | VBool b => VFloat (f_of_Z (Z.b2z b))
      | VInt z => VFloat (f_of_Z z)
      | _ => value
      end
  | str_ => VStr (py_str value)
  end.

(** [np.array] of a list of scalars (library code, from its documentation,
    for a platform whose default integer is [int64]): every element is cast
    to the common dtype. *)
Definition np_array (values : list (pyval F)) : list (pyval F) :=
  astype (result_type values) <$> values.

(** [a.reshape(1, -1)]: one row holding all elements. *)
Definition reshape_1_row (a : list (pyval F)) : ndarray := [a].


(** What [self.model] can be once loaded.  [hasattr(self.model,
    'predict_proba')] selects the first form.  Both methods are opaque
    library code: any function from the feature array to a result or an
    exception. *)
Inductive classifier :=
  | WithProba (predict_proba : ndarray -> exc (list (list F)))
  | HardLabel (predict : ndarray -> exc (list (pyval F))).

(** The state of a [SizeEstimator] after [__init__]: [self.model] and
    [self.scaler] ([None] when nothing was loaded). *)
Record estimator := {
  model : option classifier;
  scaler : option (ndarray -> exc ndarray)
}.

Definition feature_names : list string :=
  ["shoulder_width"; "chest_width"; "waist_width";
   "hip_width"; "torso_length"; "arm_length"].

Definition size_mapping : gmap Z string :=
  list_to_map [(0, "XS"); (1, "S"); (2, "M"); (3, "L"); (4, "XL"); (5, "XXL")].

(** [self.reverse_size_mapping = {v: k for k, v in self.size_mapping.items()}]:
    label to class index. *)
Definition reverse_size_mapping : gmap string Z :=
  map_fold (fun k v acc => <[v := k]> acc) ∅ size_mapping.

(** *** [normalize_measurements] *)

(** One iteration of the loop body: the value stored under [key]. *)
Definition normalized_value (height_factor : F) (value : pyval F) : exc (pyval F) :=
  if isinstance_int_float value
  then VFloat <$> py_mul value height_factor
  else Return value.

(** [for key, value in measurements.items(): normalized[key] = ...],
    starting from the empty dict.  The fold visits the keys in the map's
    own order rather than in insertion order; the only exception the body
    can raise is [OverflowError], so the outcome does not depend on it. *)
Definition normalize_loop (height_factor : F) (measurements : measurements_t)
  : exc measurements_t :=
  map_fold
    (fun key value acc =>
       normalized ← acc;
       v ← normalized_value height_factor value;
       Return (<[key := v]> normalized))
    (Return ∅) measurements.

Definition estimated_height_px (measurements : measurements_t) : exc F :=
  py_mul (default (VInt 100) (measurements !! "torso_length")) (flit 7 2).

Definition height_factor (reference_height px : F) : exc F :=
  if f_of_Z 0 <.? px
  then py_div reference_height (px ⊗ flit 1 10)
  else Return (flit 1 1).

Definition normalize_measurements (measurements : measurements_t)
    (reference_height : F) : exc measurements_t :=
  px ← estimated_height_px measurements;
  factor ← height_factor reference_height px;
  normalize_loop factor measurements.

(** *** [extract_features] *)

(** The element appended for one feature name. *)
Definition feature (measurements : measurements_t) (feature_name : string)
  : exc (pyval F) :=
  match measurements !! feature_name with
  | Some v => Return v
  | None =>
      if String.eqb feature_name "chest_width" then
        VFloat <$> py_mul (default (VInt 0) (measurements !! "shoulder_width")) (flit 11 10)
      else if String.eqb feature_name "waist_width" then
        VFloat <$> py_mul (default (VInt 0) (measurements !! "shoulder_width")) (flit 3 4)
      else Return (VFloat (flit 0 1))
  end.

Definition extract_features (measurements : measurements_t) : exc ndarray :=
  features ← mapM (feature measurements) feature_names;
  Return (reshape_1_row (np_array features)).

(** *** Results and log records *)

(** The values stored in a prediction result. *)
Inductive pyobj :=
  | OStr (s : string)
  | OFloat (x : F)
  | ONone
  | OList (l : list F)
  | ODict (d : measurements_t).

Abbreviation result := (gmap string pyobj).

Inductive log_record :=
  | warning_no_model
  | warning_low_confidence (confidence : F)
  | error_in_prediction (e : exception).

(** *** [_rule_based_prediction] *)

Definition rule_size (shoulder_width : pyval F) : exc string :=
  c ← py_lt_int shoulder_width 35; if c : bool then Return "XS" else
  c ← py_lt_int shoulder_width 40; if c : bool then Return "S" else
  c ← py_lt_int shoulder_width 45; if c : bool then Return "M" else
  c ← py_lt_int shoulder_width 50; if c : bool then Return "L" else
  c ← py_lt_int shoulder_width 55; if c : bool then Return "XL" else
  Return "XXL".

Definition _rule_based_prediction (measurements : measurements_t) : exc result :=
  let shoulder_width := default (VInt 0) (measurements !! "shoulder_width") in
  size ← rule_size shoulder_width;
  Return (<["predicted_size" := OStr size]>
          (<["confidence" := OFloat (flit 1 2)]>
          (<["method" := OStr "rule_based"]>
          (<["measurements_used" := ODict measurements]> ∅)))).

(** *** [predict_size] *)

(** [a[0]] on a sequence. *)
Definition first {A} (a : list A) : exc A :=
  match a with
  | x :: _ => Return x
  | [] => Raise IndexError
  end.

(** [np.argmax] of a one-dimensional float array (library code, from its
    documentation): the first index of the maximum, a NaN counting as the
    maximum; an empty array raises [ValueError]. *)
Fixpoint argmax_from (mp : F) (max_ind i : nat) (l : list F) : nat :=
  match l with
  | [] => max_ind
  | x :: l' =>
      if fis_nan mp then max_ind
      else if x <=.? mp then argmax_from mp max_ind (S i) l'
      else argmax_from x i (S i) l'
  end.

Definition np_argmax (a : list F) : exc nat :=
  match a with
  | [] => Raise ValueError
  | x :: l => Return (argmax_from x 0 1 l)
  end.

(** [self.size_mapping[predicted_class]]: a dict lookup by hash and
    equality, so [True], [1] and [1.0] all find the key [1]. *)
Definition size_mapping_getitem (predicted_class : pyval F) : exc string :=
  let found :=
    match predicted_class with
    | VInt z => size_mapping !! z
    | VBool b => size_mapping !! Z.b2z b
    | VFloat x =>
        k ← List.find (fun k => x =.? f_of_Z k) [0; 1; 2; 3; 4; 5];
        size_mapping !! k
    | VNone | VStr _ => None
    end in
  match found with
  | Some size => Return size
  | None => Raise KeyError
  end.

(** The inference step: the predicted class, the confidence and the value
    stored under ['all_probabilities']. *)
Definition infer (clf : classifier) (features : ndarray)
  : exc (pyval F * F * pyobj) :=
  match clf with
  | WithProba predict_proba =>
      rows ← predict_proba features;
      probabilities ← first rows;
      predicted_class ← np_argmax probabilities;
      match probabilities !! predicted_class with
      | Some confidence =>
          Return (VInt (Z.of_nat predicted_class), confidence, OList probabilities)
      | None => Raise IndexError
      end
  | HardLabel predict =>
      labels ← predict features;
      predicted_class ← first labels;
      Return (predicted_class, flit 1 1, ONone)
  end.

(** The body of the [try] block, with the records it logs. *)
Definition try_block (clf : classifier) (sc : option (ndarray -> exc ndarray))
    (measurements : measurements_t) (confidence_threshold : F)
  : exc (list log_record * result) :=
  normalized_measurements ← normalize_measurements measurements (flit 170 1);
  features ← extract_features normalized_measurements;
  features ← match sc with
             | Some transform => transform features
             | None => Return features
             end;
  '(predicted_class, confidence, all_probabilities) ← infer clf features;
  predicted_size ← size_mapping_getitem predicted_class;
  let log := if confidence <.? confidence_threshold
             then [warning_low_confidence confidence] else [] in
  Return (log,
          <["predicted_size" := OStr predicted_size]>
          (<["confidence" := OFloat confidence]>
          (<["all_probabilities" := all_probabilities]>
          (<["measurements_used" := ODict normalized_measurements]> ∅)))).

(** [predict_size]: the log it writes and what the caller gets. *)
Definition predict_size (self : estimator) (measurements : measurements_t)
    (confidence_threshold : F) : list log_record * exc result :=
  match model self with
  | None => ([warning_no_model], _rule_based_prediction measurements)
  | Some clf =>
      match try_block clf (scaler self) measurements confidence_threshold with
      | Return (log, r) => (log, Return r)
      | Raise e => ([error_in_prediction e], _rule_based_prediction measurements)
      end
  end.
End Estimator.
Arguments classifier F : clear implicits.
Arguments estimator F : clear implicits.
Arguments pyobj F : clear implicits.
Arguments log_record F : clear implicits.
End SizeEstimator.

Import SizeEstimator.

(** ** [_get_feature_importance] *)

Module Importance.

(** The attributes of [self.model] that [_get_feature_importance] reads;
    [hasattr] holds where the field is [Some].  As in scikit-learn,
    [feature_importances_] is a one-dimensional array and [coef_] a
    two-dimensional one. *)
Record fitted_attributes := {
  feature_importances_ : option (list float);
  coef_ : option (list (list float))
}.

(** [dict(zip(keys, values))]: the pairs up to the shorter sequence, a later
    pair replacing an earlier one under the same key. *)
Definition dict_zip {A} (keys : list string) (values : list A) : gmap string A :=
  foldl (fun d kv => <[kv.1 := kv.2]> d) ∅ (zip keys values).

(** [model] is [self.model]: [None], or the attributes of the object. *)
Definition _get_feature_importance (model : option fitted_attributes)
  : exc (gmap string float) :=
  match model with
  | None => Return ∅
  | Some mdl =>
      match feature_importances_ mdl with
      | Some importance => Return (dict_zip feature_names importance)
      | None =>
          match coef_ mdl with
          | Some coef =>
              row ← first coef;
              Return (dict_zip feature_names (PrimFloat.abs <$> row))
          | None => Return ∅
          end
      end
  end.

End Importance.

Import Importance.

(** ** [generate_synthetic_data] *)

Module SyntheticData.

(** The [(low, high)] pairs of one size in [size_stats]. *)
Record size_ranges := {
  shoulder_range : float * float;
  chest_range : float * float;
  waist_range : float * float;
  hip_range : float * float
}.

(** [size_stats], in the order of the dict literal. *)
Definition size_stats : list (string * size_ranges) :=
  [("XS",  {| shoulder_range := (30, 35); chest_range := (32, 37);
              waist_range := (24, 28); hip_range := (34, 38) |});
   ("S",   {| shoulder_range := (35, 40); chest_range := (37, 42);
              waist_range := (28, 32); hip_range := (38, 42) |});
   ("M",   {| shoulder_range := (40, 45); chest_range := (42, 47);
              waist_range := (32, 36); hip_range := (42, 46) |});
   ("L",   {| shoulder_range := (45, 50); chest_range := (47, 52);
              waist_range := (36, 40); hip_range := (46, 50) |});
   ("XL",  {| shoulder_range := (50, 55); chest_range := (52, 57);
              waist_range := (40, 44); hip_range := (50, 54) |});
   ("XXL", {| shoulder_range := (55, 60); chest_range := (57, 62);
              waist_range := (44, 48); hip_range := (54, 58) |})]%float.

(** [size_stats[size]]. *)
Definition size_stats_getitem (size : string) : exc size_ranges :=
  match List.find (fun kv => String.eqb kv.1 size) size_stats with
  | Some kv => Return kv.2
  | None => Raise KeyError
  end.

Section Generator.
(** NumPy's global random generator is library code: its state is threaded
    through the calls, [choice] and [uniform] being any functions of it, and
    [seed] any function from the seed to a state. *)
Context {rng : Type}.
Variable seed : Z -> rng.
Variable choice : list string -> rng -> string * rng.
Variable uniform : float -> float -> rng -> float * rng.

(** One iteration of the loop: the row appended to [data]. *)
Definition synthetic_row (g : rng) : exc (gmap string (pyval float) * rng) :=
  let '(size, g) := choice (size_stats.*1) g in
  stats ← size_stats_getitem size;
  let '(shoulder_width, g) :=
    uniform (shoulder_range stats).1 (shoulder_range stats).2 g in
  let '(chest_width, g) := uniform (chest_range stats).1 (chest_range stats).2 g in
  let '(waist_width, g) := uniform (waist_range stats).1 (waist_range stats).2 g in
  let '(hip_width, g) := uniform (hip_range stats).1 (hip_range stats).2 g in
  let '(torso_ratio, g) := uniform 1.8%float 2.2%float g in
  let torso_length := (shoulder_width * torso_ratio)%float in
  let '(arm_ratio, g) := uniform 1.4%float 1.8%float g in
  let arm_length := (shoulder_width * arm_ratio)%float in
  Return (list_to_map
            [("shoulder_width", VFloat shoulder_width);
             ("chest_width", VFloat chest_width);
             ("waist_width", VFloat waist_width);
             ("hip_width", VFloat hip_width);
             ("torso_length", VFloat torso_length);
             ("arm_length", VFloat arm_length);
             ("size", VStr size)], g).

(** [for _ in range(n_samples)], each row appended to [data]. *)
Fixpoint synthetic_rows (n : nat) (g : rng) : exc (list (gmap string (pyval float))) :=
  match n with
  | O => Return []
  | S n' =>
      '(row, g) ← synthetic_row g;
      rows ← synthetic_rows n' g;
      Return (row :: rows)
  end.

(** The rows of the data frame that [generate_synthetic_data] returns. *)
Definition generate_synthetic_data (n_samples : Z)
  : exc (list (gmap string (pyval float))) :=
  synthetic_rows (Z.to_nat n_samples) (seed 42).

End Generator.
End SyntheticData.

Import SyntheticData.

(** ** [__init__], [load_model], [load_scaler] and [save_model] *)

Module Persistence.
Section Persistence.
(** The file system and the pickled objects are outside the module:
    [os.path.exists], [joblib.load] and [joblib.dump] are any functions of a
    file-system state, and [truth] is the truth value that [if obj:]
    tests.  An [object] is any Python object other than [None]; what
    [joblib.load] returns may be [None] as well. *)
Context {filesystem object : Type}.
Variable path_exists : filesystem -> string -> bool.
Variable joblib_load : filesystem -> string -> exc (option object).
Variable joblib_dump : object -> string -> filesystem -> exc filesystem.
Variable truth : object -> bool.

(** [self.model] and [self.scaler], as the objects they are, or [None]. *)
Record attributes := {
  model : option object;
  scaler : option object
}.

Inductive log_record :=
  | info_model_loaded (model_path : string)
  | error_loading_model (e : exception)
  | info_scaler_loaded (scaler_path : string)
  | error_loading_scaler (e : exception)
  | info_model_saved (model_path : string)
  | info_scaler_saved (scaler_path : string).

Definition load_model (self : attributes) (fs : filesystem) (model_path : string)
  : list log_record * attributes :=
  match joblib_load fs model_path with
  | Return obj => ([info_model_loaded model_path],
                   {| model := obj; scaler := scaler self |})
  | Raise e => ([error_loading_model e], self)
  end.

Definition load_scaler (self : attributes) (fs : filesystem) (scaler_path : string)
  : list log_record * attributes :=
  match joblib_load fs scaler_path with
  | Return obj => ([info_scaler_loaded scaler_path],
                   {| model := model self; scaler := obj |})
  | Raise e => ([error_loading_scaler e], self)
  end.

(** The truth value of an optional path: [None] and the empty string are
    false. *)
Definition path_given (p : option string) : option string :=
  match p with
  | Some s => if String.eqb s "" then None else Some s
  | None => None
  end.

(** [__init__], as far as [self.model] and [self.scaler] go. *)
Definition __init__ (fs : filesystem) (model_path scaler_path : option string)
  : list log_record * attributes :=
  let self := {| model := None; scaler := None |} in
  let '(log1, self) :=
    match path_given model_path with
    | Some p => if path_exists fs p then load_model self fs p else ([], self)
    | None => ([], self)
    end in
  let '(log2, self) :=
    match path_given scaler_path with
    | Some p => if path_exists fs p then load_scaler self fs p else ([], self)
    | None => ([], self)
    end in
  (log1 ++ log2, self).

(** The truth value of an attribute: [None] is false. *)
Definition holds (attribute : option object) : option object :=
  match attribute with
  | Some obj => if truth obj then Some obj else None
  | None => None
  end.

Definition save_model (self : attributes) (fs : filesystem)
    (model_path : string) (scaler_path : option string)
  : exc (list log_record * filesystem) :=
  '(log1, fs) ←
    match holds (model self) with
    | Some obj => fs' ← joblib_dump obj model_path fs;
                  Return ([info_model_saved model_path], fs')
    | None => Return ([], fs)
    end;
  '(log2, fs) ←
    match holds (scaler self), path_given scaler_path with
    | Some obj, Some p => fs' ← joblib_dump obj p fs;
                          Return ([info_scaler_saved p], fs')
    | _, _ => Return ([], fs)
    end;
  Return (log1 ++ log2, fs).

End Persistence.
Arguments attributes object : clear implicits.
End Persistence.

(** * Pose detection: [pose_detector.py]

    [PoseDetector.extract_key_points] and
    [PoseDetector.calculate_body_measurements] produce the measurement
    mapping that the estimator takes. *)

Module PoseDetector.

(** A landmark as [detect_pose] builds it: a dict with the keys ['x'],
    ['y'], ['z'] and ['visibility'], each a float. *)
Record landmark := {
  x : float;
  y : float;
  z : float;
  visibility : float
}.

(** [self.key_landmarks], in the order of the dict literal. *)
Definition key_landmarks : list (string * nat) :=
  [("left_shoulder", 11); ("right_shoulder", 12); ("left_elbow", 13);
   ("right_elbow", 14); ("left_wrist", 15); ("right_wrist", 16);
   ("left_hip", 23); ("right_hip", 24); ("left_knee", 25);
   ("right_knee", 26); ("left_ankle", 27); ("right_ankle", 28);
   ("nose", 0); ("left_eye", 1); ("right_eye", 2); ("left_ear", 7);
   ("right_ear", 8)]%nat.

(** One iteration of the loop of [extract_key_points]. *)
Definition key_point (landmarks : list landmark)
    (key_points : gmap string landmark) (item : string * nat)
  : gmap string landmark :=
  match landmarks !! item.2 with
  | Some lm =>
      if (0.5 <? visibility lm)%float then <[item.1 := lm]> key_points
      else key_points
  | None => key_points
  end.

Definition extract_key_points (landmarks : list landmark) : gmap string landmark :=
  if (length landmarks <? 33)%nat then ∅
  else foldl (key_point landmarks) ∅ key_landmarks.

Section Measurements.
(** [v ** 2] on a float is the C library's [pow]: any function that returns
    a float or raises. *)
Variable float_pow_2 : float -> exc float.

(** The [try] block is a sequence of statements on the dict [measurements];
    an exception ends it and leaves the dict as it is at that point. *)
Definition statement : Type :=
  gmap string (pyval float) -> gmap string (pyval float) * option exception.

Definition then_ (s1 s2 : statement) : statement := fun ms =>
  let '(ms', e) := s1 ms in
  match e with
  | Some _ => (ms', e)
  | None => s2 ms'
  end.

Definition skip : statement := fun ms => (ms, None).

(** [measurements[key] = value]. *)
Definition assign (key : string) (value : exc float) : statement := fun ms =>
  match value with
  | Return v => (<[key := VFloat v]> ms, None)
  | Raise e => (ms, Some e)
  end.

(** [abs(a - b) * extent], with [extent] an [int]. *)
Definition span (a b : float) (extent : Z) : exc float :=
  e ← float_of_int extent; Return (abs (a - b) * e)%float.

(** [((a - b) * extent) ** 2]. *)
Definition squared_offset (a b : float) (extent : Z) : exc float :=
  e ← float_of_int extent; float_pow_2 ((a - b) * e)%float.

(** The five [if] statements of the [try] block. *)
Definition shoulder_width (key_points : gmap string landmark) (width : Z)
  : statement :=
  match key_points !! "left_shoulder", key_points !! "right_shoulder" with
  | Some left_shoulder, Some right_shoulder =>
      assign "shoulder_width" (span (x left_shoulder) (x right_shoulder) width)
  | _, _ => skip
  end.

Definition hip_width (key_points : gmap string landmark) (width : Z)
  : statement :=
  match key_points !! "left_hip", key_points !! "right_hip" with
  | Some left_hip, Some right_hip =>
      assign "hip_width" (span (x left_hip) (x right_hip) width)
  | _, _ => skip
  end.

Definition torso_length (key_points : gmap string landmark) (height : Z)
  : statement :=
  match key_points !! "left_shoulder", key_points !! "left_hip" with
  | Some shoulder, Some hip =>
      assign "torso_length" (span (y shoulder) (y hip) height)
  | _, _ => skip
  end.

Definition arm_length (key_points : gmap string landmark) (height width : Z)
  : statement :=
  match key_points !! "left_shoulder", key_points !! "left_wrist" with
  | Some shoulder, Some wrist =>
      assign "arm_length"
        (dx ← squared_offset (x shoulder) (x wrist) width;
         dy ← squared_offset (y shoulder) (y wrist) height;
         Return (sqrt (dx + dy))%float)
  | _, _ => skip
  end.

Definition waist_width : statement := fun ms =>
  match ms !! "shoulder_width", ms !! "hip_width" with
  | Some w, Some _ => assign "waist_width" (py_mul w (flit 3 4)) ms
  | _, _ => skip ms
  end.

Inductive log_record :=
  | error_calculating_measurements (e : exception).

(** [image_shape] is [(height, width)]. *)
Definition calculate_body_measurements (key_points : gmap string landmark)
    (image_shape : Z * Z) : list log_record * gmap string (pyval float) :=
  let '(height, width) := image_shape in
  let '(ms, e) :=
    then_ (shoulder_width key_points width)
      (then_ (hip_width key_points width)
         (then_ (torso_length key_points height)
            (then_ (arm_length key_points height width) waist_width))) ∅ in
  (match e with
   | Some e => [error_calculating_measurements e]
   | None => []
   end, ms).

End Measurements.
End PoseDetector.

(** * Vocabulary of the statements *)

(** ** For any arithmetic *)

Section Vocabulary.
Context {F : Type} `{PyFloat F}.

(** A classifier whose inference raises whenever it is called. *)
Definition always_raises (clf : classifier F) : Prop :=
  forall features,
    match clf with
    | WithProba predict_proba => exists e, predict_proba features = Raise e
    | HardLabel predict => exists e, predict features = Raise e
    end.

(** A dtype that can be cast to another: promoting them gives the other. *)
Definition can_cast (a b : dtype) : Prop := promote_types a b = b.

(** The classifier's inference raises on the array [features]. *)
Definition inference_raises (clf : classifier F) (features : list (list (pyval F)))
  : Prop :=
  match clf with
  | WithProba predict_proba => exists e, predict_proba features = Raise e
  | HardLabel predict => exists e, predict features = Raise e
  end.

(** In the call [predict_size self measurements], the classifier's inference
    raises: on the array that reaches it, whenever normalisation, feature
    extraction and scaling hand one over. *)
Definition inference_raises_in (self : estimator F) (clf : classifier F)
    (measurements : gmap string (pyval F)) : Prop :=
  forall normalized features scaled,
    normalize_measurements measurements (flit 170 1) = Return normalized ->
    extract_features normalized = Return features ->
    match scaler self with
    | Some transform => transform features
    | None => Return features
    end = Return scaled ->
    inference_raises clf scaled.

End Vocabulary.

(** ** Binary64 values as ordered keys, signs and magnitudes *)

(** A non-NaN float is placed on a line of integer triples, ordered
    lexicographically: class (infinities outermost, zeros in the middle),
    then exponent, then mantissa, the last two negated on the negative
    side. *)
Definition SF_key (s : spec_float) : option (Z * Z * Z) :=
  match s with
  | S754_nan => None
  | S754_infinity true => Some (-2, 0, 0)
  | S754_finite true m e => Some (-1, - e, Zneg m)
  | S754_zero _ => Some (0, 0, 0)
  | S754_finite false m e => Some (1, e, Zpos m)
  | S754_infinity false => Some (2, 0, 0)
  end.

Definition key_compare (x y : Z * Z * Z) : comparison :=
  match x.1.1 ?= y.1.1 with
  | Eq => match x.1.2 ?= y.1.2 with
          | Eq => x.2 ?= y.2
          | c => c
          end
  | c => c
  end.

Definition key_lt (x y : Z * Z * Z) : Prop :=
  x.1.1 < y.1.1 \/
  (x.1.1 = y.1.1 /\ (x.1.2 < y.1.2 \/ (x.1.2 = y.1.2 /\ x.2 < y.2))).

Definition float_key (x : float) : option (Z * Z * Z) := SF_key (Prim2SF x).

(** [s] carries the sign [sx], or is NaN. *)
Definition SF_sign_is (sx : bool) (s : spec_float) : Prop :=
  match s with
  | S754_zero s' | S754_infinity s' | S754_finite s' _ _ => s' = sx
  | S754_nan => True
  end.

(** Finite, and below [2^k] in magnitude. *)
Definition SF_below (k : Z) (s : spec_float) : Prop :=
  match s with
  | S754_zero _ => True
  | S754_finite _ m e => Zpos (digits2_pos m) + e <= k
  | S754_infinity _ | S754_nan => False
  end.

(** CPython compares an [int] and a [float] by value, without rounding the
    int.  The value of a finite float is its signed mantissa times a power
    of two: [s <= z] by value. *)
Definition SF_le_Z (s : spec_float) (z : Z) : bool :=
  match s with
  | S754_nan => false
  | S754_infinity sg => sg
  | S754_zero _ => 0 <=? z
  | S754_finite sg m e =>
      let n := if sg then Zneg m else Zpos m in
      if 0 <=? e then n * 2 ^ e <=? z else n <=? z * 2 ^ (- e)
  end.

(** [z <= s] by value, in the same way. *)
Definition Z_le_SF (z : Z) (s : spec_float) : bool :=
  match s with
  | S754_nan => false
  | S754_infinity sg => negb sg
  | S754_zero _ => z <=? 0
  | S754_finite sg m e =>
      let n := if sg then Zneg m else Zpos m in
      if 0 <=? e then z <=? n * 2 ^ e else z * 2 ^ (- e) <=? n
  end.

(** ** The estimator in binary64 *)

Abbreviation measurements := (gmap string (pyval float)).

(** The shoulder width the rule-based path reads. *)
Definition shoulder_width_of (m : measurements) : pyval float :=
  default (VInt 0) (m !! "shoulder_width").

(** Every int of the mapping fits in a float. *)
Definition no_int_overflow (m : measurements) : Prop :=
  forall key v, m !! key = Some v ->
    isinstance_int_float v = true -> returns (as_float v).

(** What scaling by [1.0] stores for a value: a float as it is, an int or
    bool as the float nearest to it, anything else untouched. *)
Definition scaled_by_one (v : pyval float) : pyval float :=
  match v with
  | VFloat x => VFloat x
  | VInt z => VFloat (Z_to_binary64 z)
  | VBool b => VFloat (Z_to_binary64 (Z.b2z b))
  | VNone | VStr _ => v
  end.

(** A finite number: an int, a bool, or a float that is neither an
    infinity nor NaN. *)
Definition finite_number (v : pyval float) : bool :=
  match v with
  | VFloat x => binary64_is_finite x
  | VInt _ | VBool _ => true
  | VNone | VStr _ => false
  end.

Definition not_nan (x : float) : Prop := PrimFloat.is_nan x = false.

Definition unit_interval (p : float) : Prop :=
  (0 <=? p)%float = true /\ (p <=? 1)%float = true.

(** The classifier's probabilities are probabilities. *)
Definition probabilities_in_unit_interval (self : estimator float) : Prop :=
  match model self with
  | Some (WithProba predict_proba) =>
      forall a rows, predict_proba a = Return rows ->
                     Forall (Forall unit_interval) rows
  | _ => True
  end.

(** The [int] behind an [int] or a [bool]. *)
Definition int_value (w : pyval float) : option Z :=
  match w with
  | VInt z => Some z
  | VBool b => Some (Z.b2z b)
  | _ => None
  end.

(** [w <= w'] holds in Python, for two numbers. *)
Definition number_le (w w' : pyval float) : bool :=
  match w, w' with
  | VFloat a, VFloat b => (a <=? b)%float
  | VFloat a, _ =>
      match int_value w' with
      | Some z' => SF_le_Z (Prim2SF a) z'
      | None => false
      end
  | _, VFloat b =>
      match int_value w with
      | Some z => Z_le_SF z (Prim2SF b)
      | None => false
      end
  | _, _ =>
      match int_value w, int_value w' with
      | Some z, Some z' => z <=? z'
      | _, _ => false
      end
  end.

Definition predicted_size_of (c : exc (gmap string (pyobj float))) : option string :=
  match c with
  | Return r => match r !! "predicted_size" with
                | Some (OStr size) => Some size
                | _ => None
                end
  | Raise _ => None
  end.

(** The class index of the predicted label. *)
Definition size_index (c : exc (gmap string (pyobj float))) : option Z :=
  size ← predicted_size_of c; reverse_size_mapping !! size.

(** [w < K] for a number [w] and an int literal [K]. *)
Definition lt_int (w : pyval float) (K : Z) : bool :=
  match w with
  | VFloat x => (x <? Z_to_binary64 K)%float
  | VInt z => z <? K
  | VBool b => Z.b2z b <? K
  | VNone | VStr _ => false
  end.

Definition thresholds : list Z := [35; 40; 45; 50; 55].

(** The number of thresholds that [w] is not below. *)
Definition band (w : pyval float) : Z :=
  if lt_int w 35 then 0 else if lt_int w 40 then 1
  else if lt_int w 45 then 2 else if lt_int w 50 then 3
  else if lt_int w 55 then 4 else 5.

(** *** Feature arrays *)

(** The float a number multiplies as: a float itself, an int or a bool the
    float nearest to it. *)
Definition float_value (v : pyval float) : option float :=
  match v with
  | VFloat x => Some x
  | VInt z => Some (Z_to_binary64 z)
  | VBool b => Some (Z_to_binary64 (Z.b2z b))
  | VNone | VStr _ => None
  end.







(** The six entries of the claim, for a shoulder width that multiplies as
    [sw]: the provided value of each key that is present, [sw * 1.1] for an
    absent chest width, [sw * 0.75] for an absent waist width and [0.0] for
    any other absent key. *)
Definition provided_or_imputed (m : measurements) (sw : float) : list (pyval float) :=
  [default (VFloat 0%float) (m !! "shoulder_width");
   default (VFloat (sw * 1.1)%float) (m !! "chest_width");
   default (VFloat (sw * 0.75)%float) (m !! "waist_width");
   default (VFloat 0%float) (m !! "hip_width");
   default (VFloat 0%float) (m !! "torso_length");
   default (VFloat 0%float) (m !! "arm_length")].

(** *** The value of a float *)

(** The rational value of a finite float; [0] for an infinity or NaN. *)
Definition SF2Q (s : spec_float) : Q :=
  match s with
  | S754_finite sx m e =>
      ((if sx then -1 else 1) * (inject_Z (Zpos m) * 2 ^ e))%Q
  | _ => 0%Q
  end.

Definition binary64_value (x : float) : Q := SF2Q (Prim2SF x).

(** A positive float with a full mantissa of 53 bits. *)
Definition positive_normal (s : spec_float) : Prop :=
  exists m e, s = S754_finite false m e /\ 2 ^ 52 <= Zpos m /\
              valid_binary s = true.

(** ** Inputs of the examples *)

(** The default [confidence_threshold], [0.7]. *)
Definition default_threshold : float := flit 7 10.

(** An estimator created with no model file. *)
Definition no_model : estimator float := {| model := None; scaler := None |}.

(** A loaded classifier whose [predict] raises. *)
Definition broken_classifier : classifier float :=
  HardLabel (fun _ => Raise (LibraryError "inference failed")).

Definition broken_estimator : estimator float :=
  {| model := Some broken_classifier; scaler := None |}.

(** A loaded classifier that rejects some inputs only: its [predict_proba]
    raises when the chest width, the second feature, is not a float above
    zero, and is sure of nothing otherwise. *)
Definition picky_classifier : classifier float :=
  WithProba (fun features =>
    match features with
    | [_; VFloat chest; _; _; _; _] :: _ =>
        if (0 <? chest)%float
        then Return [[0.25; 0.5; 0.25; 0; 0; 0]%float]
        else Raise (LibraryError "chest width must be positive")
    | _ => Raise (LibraryError "chest width must be positive")
    end).

Definition picky_estimator : estimator float :=
  {| model := Some picky_classifier; scaler := None |}.

(** A classifier with probabilities that is sure of nothing: its top
    probability is [0.5]. *)
Definition hesitant_classifier : classifier float :=
  WithProba (fun _ => Return [[0.25; 0.5; 0.25; 0; 0; 0]%float]).

Definition hesitant_estimator : estimator float :=
  {| model := Some hesitant_classifier; scaler := None |}.

(** The measurements of the module's own example. *)
Definition example_measurements : measurements :=
  list_to_map [("shoulder_width", VInt 42); ("chest_width", VInt 44);
               ("waist_width", VInt 34); ("hip_width", VInt 44);
               ("torso_length", VInt 85); ("arm_length", VInt 65)].

(** The run of the hesitant classifier on the example. *)
Definition hesitant_run : exc (list (log_record float) * gmap string (pyobj float)) :=
  try_block hesitant_classifier None example_measurements default_threshold.

Definition hesitant_result : gmap string (pyobj float) :=
  match hesitant_run with
  | Return (_, r) => r
  | Raise _ => ∅
  end.

(** A mapping with nothing but a shoulder width. *)
Definition shoulder (w : pyval float) : measurements := {[ "shoulder_width" := w ]}.

(** A mapping whose shoulder width is [None]; chest and waist are given, so
    that feature extraction has nothing to impute from it. *)
Definition shoulder_none : measurements :=
  list_to_map [("shoulder_width", VNone); ("chest_width", VInt 44);
               ("waist_width", VInt 34)].

(** A chest width of zero next to a shoulder width. *)
Definition chest_zero : measurements :=
  list_to_map [("shoulder_width", VFloat 42%float); ("chest_width", VFloat 0%float)].

Definition picky_result : gmap string (pyobj float) :=
  match try_block picky_classifier None shoulder_none default_threshold with
  | Return (_, r) => r
  | Raise _ => ∅
  end.

(** Shoulder width only: no torso length to scale by. *)
Definition shoulder_only : measurements := {[ "shoulder_width" := VFloat 42%float ]}.

(** Shoulder width and arm length only: chest and waist are imputed, hip
    width and torso length default to zero. *)
Definition shoulder_and_arm : measurements :=
  list_to_map [("shoulder_width", VFloat 40%float); ("arm_length", VFloat 60%float)].

(** A hip width that is text. *)
Definition hip_not_a_number : measurements :=
  list_to_map [("shoulder_width", VFloat 42%float); ("hip_width", VStr "n/a")].

(** A torso length of zero, next to a float and an int. *)
Definition torso_zero : measurements :=
  list_to_map [("torso_length", VInt 0); ("shoulder_width", VFloat 42%float);
               ("hip_width", VInt 44)].

Definition torso_84 : measurements := {[ "torso_length" := VFloat 84%float ]}.

Definition torso_85 : measurements := {[ "torso_length" := VFloat 85%float ]}.

(** A torso length so large that [torso_length * 3.5] overflows. *)
Definition torso_huge : measurements := {[ "torso_length" := VFloat 1e308%float ]}.


(** A hip width that is [None]. *)
Definition hip_none : measurements :=
  list_to_map [("shoulder_width", VFloat 42%float); ("hip_width", VNone)].

(** All six measurements as ints, the shoulder width one above [2^53]. *)
Definition shoulder_above_2_53 : measurements :=
  list_to_map [("shoulder_width", VInt 9007199254740993); ("arm_length", VInt 65)].

(** A torso length so small that the factor overflows. *)
Definition torso_small : measurements := {[ "torso_length" := VFloat 1e-310%float ]}.

(** A torso length so small that the proxy height times [0.1] underflows to
    zero. *)
Definition torso_tiny : measurements := {[ "torso_length" := VFloat 5e-324%float ]}.

(** Shoulder widths on both sides of each threshold, with the label the
    rule gives them. *)
Definition rule_examples : list (Z * string) :=
  [(34, "XS"); (35, "S"); (39, "S"); (40, "M"); (44, "M"); (45, "L");
   (49, "L"); (50, "XL"); (54, "XL"); (55, "XXL"); (60, "XXL")].

(** ** Further vocabulary *)

(** A classifier's answer on [features] that names no class of
    [size_mapping]: an arg-max beyond the sixth class, or a hard label that
    is an int outside [0..5], a string or [None]. *)
Definition unknown_class (clf : classifier float)
    (features : list (list (pyval float))) : Prop :=
  match clf with
  | WithProba predict_proba =>
      exists probabilities rows i,
        predict_proba features = Return (probabilities :: rows) /\
        np_argmax probabilities = Return i /\
        is_Some (probabilities !! i) /\ (6 <= i)%nat
  | HardLabel predict =>
      exists label labels,
        predict features = Return (label :: labels) /\
        match label with
        | VInt z => ~ (0 <= z <= 5)
        | VStr _ | VNone => True
        | VBool _ | VFloat _ => False
        end
  end.

(** NumPy's contract for [uniform(low, high)]: a draw from the half-open
    interval [[low, high)]. *)
Definition half_open {rng} (uniform : float -> float -> rng -> float * rng) : Prop :=
  forall low high g,
    (low <? high)%float = true ->
    (low <=? (uniform low high g).1)%float = true /\
    ((uniform low high g).1 <? high)%float = true.

(** [choice] returns one of the elements it is given. *)
Definition chooses_element {rng} (choice : list string -> rng -> string * rng)
  : Prop :=
  forall l g, l <> [] -> (choice l g).1 ∈ l.

(** A row of synthetic data whose rule-based label is its own size. *)
Definition rule_agrees (row : measurements) : Prop :=
  exists size,
    row !! "size" = Some (VStr size) /\
    predicted_size_of (_rule_based_prediction row) = Some size.

Section PersistenceVocabulary.
Context {filesystem object : Type}.
Variable path_exists : filesystem -> string -> bool.
Variable joblib_load : filesystem -> string -> exc (option object).
Variable joblib_dump : object -> string -> filesystem -> exc filesystem.
Variable truth : object -> bool.
(** How an object answers as a classifier and as a scaler. *)
Variable predictor : object -> classifier float.
Variable transformer :
  object -> list (list (pyval float)) -> exc (list (list (pyval float))).

(** What [predict_size] sees of the attributes: it tests
    [self.model is None] and [if self.scaler:]. *)
Definition estimator_of (self : Persistence.attributes object) : estimator float :=
  {| model := predictor <$> Persistence.model self;
     scaler := transformer <$> Persistence.holds truth (Persistence.scaler self) |}.

(** The path is given, the file exists and it unpickles to an object that
    is not [None]. *)
Definition loadable (fs : filesystem) (p : option string) : Prop :=
  exists s obj, Persistence.path_given p = Some s /\
                path_exists fs s = true /\ joblib_load fs s = Return (Some obj).

(** What is dumped can be loaded again, and no other file changes. *)
Definition dump_then_load : Prop :=
  forall obj p fs fs',
    joblib_dump obj p fs = Return fs' ->
    path_exists fs' p = true /\ joblib_load fs' p = Return (Some obj) /\
    forall q, q <> p ->
      path_exists fs' q = path_exists fs q /\ joblib_load fs' q = joblib_load fs q.
End PersistenceVocabulary.

(** The names [calculate_body_measurements] measures, and those it can
    store. *)
Definition measured_names : list string :=
  ["shoulder_width"; "hip_width"; "torso_length"; "arm_length"].

Definition body_measurement_names : list string :=
  measured_names ++ ["waist_width"].

(** Every entry of the mapping is a float, stored under one of [names]. *)
Definition floats_under (names : list string) (ms : measurements) : Prop :=
  forall key v, ms !! key = Some v -> key ∈ names /\ exists f, v = VFloat f.

(** ** Inputs of the further examples *)

(** A torso length that is text. *)
Definition torso_unknown : measurements :=
  list_to_map [("shoulder_width", VFloat 42%float); ("torso_length", VStr "unknown")].

(** [hip_not_a_number], normalised to 170 cm. *)
Definition hip_not_a_number_normalized : measurements :=
  list_to_map [("shoulder_width", VFloat 203.99999999999997%float);
               ("hip_width", VStr "n/a")].

(** [shoulder_and_arm] with a key that is no feature. *)
Definition shoulder_and_arm_labelled : measurements :=
  <["size" := VStr "M"]> shoulder_and_arm.

(** A classifier trained on seven classes that prefers the seventh. *)
Definition seven_classes : classifier float :=
  WithProba (fun _ => Return [[0; 0; 0; 0; 0; 0.25; 0.75]%float]).

Definition seven_classes_estimator : estimator float :=
  {| model := Some seven_classes; scaler := None |}.

(** A classifier that cannot decide between S and M. *)
Definition tied_classifier : classifier float :=
  WithProba (fun _ => Return [[0.25; 0.375; 0.375; 0; 0; 0]%float]).

Definition tied_estimator : estimator float :=
  {| model := Some tied_classifier; scaler := None |}.

Definition tied_run : list (log_record float) * exc (gmap string (pyobj float)) :=
  predict_size tied_estimator example_measurements default_threshold.

Definition tied_result : gmap string (pyobj float) :=
  match tied_run.2 with
  | Return r => r
  | Raise _ => ∅
  end.

(** A classifier whose second probability is NaN. *)
Definition nan_classifier : classifier float :=
  WithProba (fun _ => Return [[0.5; nan; 0.25; 0; 0; 0]%float]).

Definition nan_estimator : estimator float :=
  {| model := Some nan_classifier; scaler := None |}.

Definition nan_run : list (log_record float) * exc (gmap string (pyobj float)) :=
  predict_size nan_estimator example_measurements default_threshold.

Definition nan_result : gmap string (pyobj float) :=
  match nan_run.2 with
  | Return r => r
  | Raise _ => ∅
  end.

(** A model fitted on four features only. *)
Definition four_importances : fitted_attributes :=
  {| feature_importances_ := Some [0.4; 0.3; 0.2; 0.1]%float; coef_ := None |}.

(** A generator that always takes the first element and the lowest value;
    its state counts the draws. *)
Definition first_choice (l : list string) (g : nat) : string * nat :=
  (List.hd ""%string l, S g).

Definition lowest_draw (low high : float) (g : nat) : float * nat := (low, S g).

Definition zero_seed (s : Z) : nat := 0%nat.

(** A file system that is a dict from paths to objects; an object is a
    number, read as a classifier it is [hesitant_classifier], and as a
    scaler the identity. *)
Definition dict_exists (fs : gmap string nat) (p : string) : bool :=
  bool_decide (is_Some (fs !! p)).

Definition dict_load (fs : gmap string nat) (p : string) : exc (option nat) :=
  match fs !! p with
  | Some obj => Return (Some obj)
  | None => Raise (LibraryError "FileNotFoundError")
  end.

Definition dict_dump (obj : nat) (p : string) (fs : gmap string nat)
  : exc (gmap string nat) :=
  Return (<[p := obj]> fs).

Definition always_true (obj : nat) : bool := true.

Definition trained : Persistence.attributes nat :=
  {| Persistence.model := Some 1%nat; Persistence.scaler := Some 2%nat |}.

(** Key points of a person facing the camera, all visible. *)
Definition facing_key_points : gmap string PoseDetector.landmark :=
  list_to_map
    [("left_shoulder",  {| PoseDetector.x := 0.625; PoseDetector.y := 0.25;
                           PoseDetector.z := 0; PoseDetector.visibility := 1 |});
     ("right_shoulder", {| PoseDetector.x := 0.375; PoseDetector.y := 0.25;
                           PoseDetector.z := 0; PoseDetector.visibility := 1 |});
     ("left_hip",       {| PoseDetector.x := 0.5625; PoseDetector.y := 0.625;
                           PoseDetector.z := 0; PoseDetector.visibility := 1 |});
     ("right_hip",      {| PoseDetector.x := 0.4375; PoseDetector.y := 0.625;
                           PoseDetector.z := 0; PoseDetector.visibility := 1 |})]%float.

(** 33 landmarks of which only the two shoulders are visible. *)
Definition hidden_landmark : PoseDetector.landmark :=
  {| PoseDetector.x := 0.5; PoseDetector.y := 0.5;
     PoseDetector.z := 0; PoseDetector.visibility := 0 |}%float.

Definition shoulder_landmarks : list PoseDetector.landmark :=
  replicate 11 hidden_landmark
  ++ [ {| PoseDetector.x := 0.625; PoseDetector.y := 0.25;
          PoseDetector.z := 0; PoseDetector.visibility := 1 |};
       {| PoseDetector.x := 0.375; PoseDetector.y := 0.25;
          PoseDetector.z := 0; PoseDetector.visibility := 0.75 |} ]%float
  ++ replicate 20 hidden_landmark.

(** Squaring by a rounded product, raising when a finite value overflows. *)
Definition square (v : float) : exc float :=
  if binary64_is_finite v && negb (binary64_is_finite (v * v)%float)
  then Raise OverflowError else Return (v * v)%float.

Definition facing_measurements : measurements :=
  (PoseDetector.calculate_body_measurements square facing_key_points (480, 640)).2.

(** * Facts about binary64 *)

(** ** The order of binary64 values *)

Section Binary64Order.

Lemma key_compare_Lt x y : key_compare x y = Lt <-> key_lt x y.
Proof.
  unfold key_compare, key_lt. destruct x as [[a b] c], y as [[a' b'] c']; cbn.
  destruct (Z.compare_spec a a'); [|split; [lia | done] |split; [discriminate | lia]].
  destruct (Z.compare_spec b b'); [|split; [lia | done] |split; [discriminate | lia]].
  rewrite Z.compare_lt_iff. lia.
Qed.

Lemma key_compare_Eq x y : key_compare x y = Eq <-> x = y.
Proof.
  unfold key_compare. destruct x as [[a b] c], y as [[a' b'] c']; cbn.
  destruct (Z.compare_spec a a'); [|split; [discriminate | intros [= -> ?]; lia] ..].
  destruct (Z.compare_spec b b'); [|split; [discriminate | intros [= ? -> ?]; lia] ..].
  rewrite Z.compare_eq_iff. split; [congruence | intros [= ? ? ?]; done].
Qed.

Lemma key_compare_Gt x y : key_compare x y = Gt <-> key_lt y x.
Proof.
  unfold key_compare, key_lt. destruct x as [[a b] c], y as [[a' b'] c']; cbn.
  destruct (Z.compare_spec a a'); [|split; [discriminate | lia] |split; [lia | done]].
  destruct (Z.compare_spec b b'); [|split; [discriminate | lia] |split; [lia | done]].
  rewrite Z.compare_gt_iff. lia.
Qed.

Lemma SFcompare_key a b :
  SFcompare a b =
  match SF_key a, SF_key b with
  | Some x, Some y => Some (key_compare x y)
  | _, _ => None
  end.
Proof.
  destruct a as [[]|[]| |[] m e], b as [[]|[]| |[] m' e']; try reflexivity;
    cbn [SFcompare SF_key]; unfold key_compare; cbn [fst snd Z.compare];
    f_equal.
  change (CompOpp (1 ?= 1)%positive) with Eq. cbv iota.
  rewrite Z.compare_opp, (Z.compare_antisym e e').
  destruct (e ?= e'); reflexivity.
Qed.

Lemma ltb_key (x y : float) :
  (x <? y)%float = true <->
  exists kx ky, float_key x = Some kx /\ float_key y = Some ky /\ key_lt kx ky.
Proof.
  rewrite FloatAxioms.ltb_spec. unfold SFltb, float_key. rewrite SFcompare_key.
  destruct (SF_key (Prim2SF x)) as [kx|], (SF_key (Prim2SF y)) as [ky|];
    try (split; [discriminate | intros (? & ? & ? & ? & ?); discriminate]).
  split.
  - intros Hc. exists kx, ky. repeat split. apply key_compare_Lt.
    destruct (key_compare kx ky); done.
  - intros (? & ? & [= <-] & [= <-] & Hlt). apply key_compare_Lt in Hlt. by rewrite Hlt.
Qed.

Lemma leb_key (x y : float) :
  (x <=? y)%float = true <->
  exists kx ky, float_key x = Some kx /\ float_key y = Some ky /\ (key_lt kx ky \/ kx = ky).
Proof.
  rewrite FloatAxioms.leb_spec. unfold SFleb, float_key. rewrite SFcompare_key.
  destruct (SF_key (Prim2SF x)) as [kx|], (SF_key (Prim2SF y)) as [ky|];
    try (split; [discriminate | intros (? & ? & ? & ? & ?); discriminate]).
  split.
  - intros Hc. exists kx, ky. repeat split.
    destruct (key_compare kx ky) eqn:E; try done.
    + right. by apply key_compare_Eq.
    + left. by apply key_compare_Lt.
  - intros (? & ? & [= <-] & [= <-] & [Hlt | ->]).
    + apply key_compare_Lt in Hlt. by rewrite Hlt.
    + by rewrite (proj2 (key_compare_Eq ky ky) eq_refl).
Qed.

Lemma is_nan_key (x : float) : PrimFloat.is_nan x = true <-> float_key x = None.
Proof.
  unfold PrimFloat.is_nan, float_key. rewrite FloatAxioms.eqb_spec. unfold SFeqb.
  rewrite SFcompare_key. destruct (SF_key (Prim2SF x)) as [k|].
  - rewrite (proj2 (key_compare_Eq k k) eq_refl). split; discriminate.
  - done.
Qed.

Lemma key_lt_trans x y z : key_lt x y -> key_lt y z -> key_lt x z.
Proof.
  unfold key_lt. destruct x as [[a b] c], y as [[a' b'] c'], z as [[a'' b''] c''].
  cbn. lia.
Qed.

Lemma key_total x y : key_lt x y \/ x = y \/ key_lt y x.
Proof.
  destruct (key_compare x y) eqn:E.
  - right; left. by apply key_compare_Eq.
  - left. by apply key_compare_Lt.
  - right; right. by apply key_compare_Gt.
Qed.

(** [a <= b < c] gives [a < c]. *)
Lemma leb_ltb_trans (a b c : float) :
  (a <=? b)%float = true -> (b <? c)%float = true -> (a <? c)%float = true.
Proof.
  rewrite leb_key, !ltb_key.
  intros (ka & kb & Ha & Hb & Hab) (kb' & kc & Hb' & Hc & Hbc).
  rewrite Hb in Hb'. injection Hb' as <-.
  exists ka, kc. repeat split; try done.
  destruct Hab as [Hab | ->]; eauto using key_lt_trans.
Qed.

Lemma leb_trans (a b c : float) :
  (a <=? b)%float = true -> (b <=? c)%float = true -> (a <=? c)%float = true.
Proof.
  rewrite !leb_key.
  intros (ka & kb & Ha & Hb & Hab) (kb' & kc & Hb' & Hc & Hbc).
  rewrite Hb in Hb'. injection Hb' as <-.
  exists ka, kc. repeat split; try done.
  destruct Hab as [Hab | ->], Hbc as [Hbc | <-]; eauto using key_lt_trans.
Qed.

Lemma leb_refl (a : float) : PrimFloat.is_nan a = false -> (a <=? a)%float = true.
Proof.
  intros Hn. apply leb_key. destruct (float_key a) as [k|] eqn:E.
  - exists k, k. auto.
  - apply is_nan_key in E. congruence.
Qed.

(** On floats that are not NaN the order is total. *)
Lemma leb_total (a b : float) :
  PrimFloat.is_nan a = false -> PrimFloat.is_nan b = false ->
  (a <=? b)%float = false -> (b <=? a)%float = true.
Proof.
  intros Ha Hb Hab. apply leb_key.
  destruct (float_key a) as [ka|] eqn:Ea; [|apply is_nan_key in Ea; congruence].
  destruct (float_key b) as [kb|] eqn:Eb; [|apply is_nan_key in Eb; congruence].
  exists kb, ka. repeat split.
  destruct (key_total ka kb) as [Hl | [-> | Hl]]; auto.
  assert ((a <=? b)%float = true); [|congruence].
  apply leb_key. exists ka, kb. auto.
Qed.

End Binary64Order.

(** ** The shape of a valid binary64 mantissa *)

Section Binary64Shape.

Lemma digits2_pos_size (m : positive) : digits2_pos m = Pos.size m.
Proof. induction m; cbn; by f_equal. Qed.

Lemma digits2_pos_gt (m : positive) : Zpos m < 2 ^ Zpos (digits2_pos m).
Proof.
  rewrite digits2_pos_size. pose proof (Pos.size_gt m) as Hgt.
  apply Pos2Z.pos_lt_pos in Hgt. by rewrite Pos2Z.inj_pow in Hgt.
Qed.

Lemma digits2_pos_le (m : positive) : 2 ^ (Zpos (digits2_pos m) - 1) <= Zpos m.
Proof.
  rewrite digits2_pos_size. pose proof (Pos.size_le m) as Hle.
  apply Pos2Z.pos_le_pos in Hle. rewrite Pos2Z.inj_pow in Hle.
  change (Z.pos m~0) with (2 * Z.pos m) in Hle.
  replace (Z.pos (Pos.size m)) with (Z.succ (Z.pos (Pos.size m) - 1)) in Hle by lia.
  rewrite Z.pow_succ_r in Hle by lia. lia.
Qed.

(** A valid finite float has at most 53 mantissa bits, exactly 53 unless
    its exponent is the least one, and an exponent within range. *)
Lemma valid_binary_finite sx m e :
  valid_binary (S754_finite sx m e) = true ->
  Zpos m < 2 ^ 53 /\ (-1074 < e -> 2 ^ 52 <= Zpos m) /\ -1074 <= e <= 971.
Proof.
  cbn [valid_binary]. unfold bounded, canonical_mantissa, fexp, SpecFloat.emin.
  intros [Hc He]%andb_prop. apply Z.eqb_eq in Hc. apply Z.leb_le in He.
  change (3 - emax - prec) with (-1074) in Hc.
  change (emax - prec) with 971 in He. change prec with 53 in Hc.
  pose proof (digits2_pos_gt m) as Hgt. pose proof (digits2_pos_le m) as Hle.
  set (d := Zpos (digits2_pos m)) in *.
  assert (0 < d) as Hd by (unfold d; lia).
  split; [|split; [|lia]].
  - eapply Z.lt_le_trans; [exact Hgt|].
    apply Z.pow_le_mono_r; lia.
  - intros Hmin. replace 52 with (d - 1) by lia. exact Hle.
Qed.

End Binary64Shape.

(** ** Multiplying by one, and the sign of a product *)

Section Binary64Mul.

Lemma shift52_mul (m : positive) :
  (m * 4503599627370496)%positive = Pos.iter xO m 52.
Proof. cbv [Pos.iter]. by rewrite !Pos.mul_xO_r, Pos.mul_1_r. Qed.

Lemma digits2_pos_shift52 (m : positive) :
  Zpos (digits2_pos (Pos.iter xO m 52)) = Zpos (digits2_pos m) + 52.
Proof.
  cbv [Pos.iter]. cbn [digits2_pos]. rewrite !Pos2Z.inj_succ. lia.
Qed.

(** The mantissa of [1.0] is [2^52]: the product has the mantissa of [s]
    followed by 52 zero bits, which the rounding shifts out exactly. *)
Lemma SF64mul_1_r (s : spec_float) :
  valid_binary s = true -> SF64mul s (Prim2SF 1%float) = s.
Proof.
  intros Hv.
  change (Prim2SF 1%float) with (S754_finite false 4503599627370496 (-52)).
  destruct s as [sx|sx| |sx m e]; cbn [SF64mul SFmul];
    rewrite ?xorb_false_r; try reflexivity.
  cbn [valid_binary] in Hv. unfold bounded in Hv.
  apply andb_prop in Hv as [Hc He].
  unfold canonical_mantissa in Hc. apply Z.eqb_eq in Hc.
  rewrite shift52_mul.
  unfold binary_round_aux, shr_fexp. cbn [Zdigits2].
  rewrite digits2_pos_shift52.
  replace (Z.pos (digits2_pos m) + 52 + (e + -52))
    with (Z.pos (digits2_pos m) + e) by lia.
  rewrite Hc.
  replace (e - (e + -52)) with 52 by lia.
  cbv [Pos.iter].
  cbn [shr shr_record_of_loc SpecFloat.iter_pos shr_1 orb shr_m
       loc_of_shr_record round_nearest_even Zdigits2].
  replace (e + -52 + 52) with e by lia.
  rewrite Hc, Z.sub_diag. cbn [shr shr_m].
  by rewrite He.
Qed.

Lemma mul_1_r (x : float) : (x * 1)%float = x.
Proof.
  apply Prim2SF_inj. rewrite mul_spec. apply SF64mul_1_r, Prim2SF_valid.
Qed.

(** Rounding keeps the sign it is given. *)
Lemma binary_round_aux_sign sx mx ex lx :
  SF_sign_is sx (binary_round_aux prec emax sx mx ex lx).
Proof.
  unfold binary_round_aux.
  destruct (shr_fexp prec emax mx ex lx) as [mrs' e'].
  destruct (shr_fexp prec emax _ e' loc_Exact) as [mrs'' e''].
  destruct (shr_m mrs''); cbn; [done | | done].
  destruct (e'' <=? emax - prec); done.
Qed.

(** A float that is not above zero, times a positive finite float, is
    not above zero. *)
Lemma mul_pos_not_gt_0 (t c : float) m e :
  Prim2SF c = S754_finite false m e ->
  (0 <? t)%float = false -> (0 <? t * c)%float = false.
Proof.
  intros Hc. rewrite !FloatAxioms.ltb_spec, mul_spec, Hc.
  change (Prim2SF 0%float) with (S754_zero false).
  destruct (Prim2SF t) as [sx|[]| |[] mt et]; cbn [SF64mul SFmul SFltb SFcompare xorb];
    try done.
  intros _.
  pose proof (binary_round_aux_sign true (Z.pos (mt * m)) (et + e) loc_Exact) as Hs.
  destruct (binary_round_aux _ _ _ _ _ _) as [s|s| |s ? ?]; cbn in Hs |- *;
    subst; done.
Qed.

End Binary64Mul.

(** ** When a product is finite *)

Section Binary64Finite.

(** Shifting right [p] times divides by [2^p], rounding down. *)
Lemma iter_pos_shr_1 (p : positive) (mrs : shr_record) :
  0 <= shr_m mrs ->
  0 <= shr_m (SpecFloat.iter_pos shr_1 p mrs) /\
  shr_m (SpecFloat.iter_pos shr_1 p mrs) * 2 ^ Zpos p <= shr_m mrs.
Proof.
  assert (forall mrs, 0 <= shr_m mrs ->
            0 <= shr_m (shr_1 mrs) /\ shr_m (shr_1 mrs) * 2 <= shr_m mrs) as Hstep.
  { intros [[|[q|q|]|q] r s]; cbn; lia. }
  revert mrs. induction p as [p IH|p IH|]; intros mrs Hm; cbn [SpecFloat.iter_pos].
  - destruct (Hstep mrs Hm) as [H0 H1].
    destruct (IH _ H0) as [H2 H3]. destruct (IH _ H2) as [H4 H5].
    split; [exact H4|].
    change (Z.pos p~1) with (2 * Z.pos p + 1).
    replace (2 * Z.pos p + 1) with (Z.pos p + Z.pos p + 1) by lia.
    rewrite !Z.pow_add_r by lia. change (2 ^ 1) with 2.
    assert (0 < 2 ^ Z.pos p) by (apply Z.pow_pos_nonneg; lia). nia.
  - destruct (IH _ Hm) as [H2 H3]. destruct (IH _ H2) as [H4 H5].
    split; [exact H4|].
    change (Z.pos p~0) with (2 * Z.pos p).
    replace (2 * Z.pos p) with (Z.pos p + Z.pos p) by lia.
    rewrite !Z.pow_add_r by lia.
    assert (0 < 2 ^ Z.pos p) by (apply Z.pow_pos_nonneg; lia). nia.
  - destruct (Hstep mrs Hm) as [H0 H1]. split; [exact H0|]. change (2 ^ 1) with 2. lia.
Qed.

Lemma Zdigits2_le (z j : Z) : 0 <= z < 2 ^ j -> 0 <= j -> Zdigits2 z <= j.
Proof.
  intros [H0 Hlt] Hj. destruct z as [|p|p]; cbn [Zdigits2]; [lia| |lia].
  pose proof (digits2_pos_le p) as Hle.
  assert (2 ^ (Z.pos (digits2_pos p) - 1) < 2 ^ j) as Hpow by lia.
  apply Z.pow_lt_mono_r_iff in Hpow; lia.
Qed.

(** The exponent after [shr_fexp], and the mantissa against the original. *)
Lemma shr_fexp_bound (m e : Z) (l : location) mrs' e' :
  0 <= m ->
  shr_fexp prec emax m e l = (mrs', e') ->
  e' = Z.max e (fexp prec emax (Zdigits2 m + e)) /\
  0 <= shr_m mrs' /\ shr_m mrs' * 2 ^ (e' - e) <= m.
Proof.
  intros Hm. unfold shr_fexp, shr.
  assert (shr_m (shr_record_of_loc m l) = m) as Hrec by (destruct l as [|[]]; reflexivity).
  destruct (fexp prec emax (Zdigits2 m + e) - e) as [|p|p] eqn:Hn;
    intros [= <- <-].
  - rewrite Hrec. split; [lia|]. rewrite Z.sub_diag. cbn. lia.
  - pose proof (iter_pos_shr_1 p (shr_record_of_loc m l)) as Hs.
    rewrite Hrec in Hs. destruct (Hs Hm) as [H0 H1].
    split; [lia|]. split; [exact H0|].
    replace (e + Z.pos p - e) with (Z.pos p) by lia. exact H1.
  - rewrite Hrec. split; [lia|]. rewrite Z.sub_diag. cbn. lia.
Qed.

Lemma round_nearest_even_bound (m : Z) (l : location) :
  0 <= m -> m <= round_nearest_even m l <= m + 1.
Proof.
  intros Hm. destruct l as [|[]]; cbn; try lia.
  destruct (Z.even m); lia.
Qed.

Lemma fexp_eq (x : Z) : fexp prec emax x = Z.max (x - 53) (-1074).
Proof. reflexivity. Qed.

Lemma binary_round_aux_finite sx (m : positive) (e : Z) (l : location) :
  Zpos (digits2_pos m) + e <= 1023 -> e <= 971 ->
  SF_is_finite (binary_round_aux prec emax sx (Zpos m) e l) = true.
Proof.
  intros HD He. unfold binary_round_aux.
  destruct (shr_fexp prec emax (Z.pos m) e l) as [mrs' e'] eqn:H1.
  apply shr_fexp_bound in H1 as (He' & Hm1 & Hshift); [|lia].
  cbn [Zdigits2] in He'. rewrite fexp_eq in He'.
  pose proof (round_nearest_even_bound (shr_m mrs') (loc_of_shr_record mrs') Hm1) as Hm2.
  set (m2 := round_nearest_even (shr_m mrs') (loc_of_shr_record mrs')) in *.
  destruct (shr_fexp prec emax m2 e' loc_Exact) as [mrs'' e''] eqn:H2.
  apply shr_fexp_bound in H2 as (He'' & Hm3 & _); [|lia].
  rewrite fexp_eq in He''.
  destruct (shr_m mrs'') as [|m3|m3]; [reflexivity| |lia].
  assert (Zdigits2 m2 + e' <= 1024) as Hd2.
  { pose proof (digits2_pos_gt m) as Hgt.
    set (D := Z.pos (digits2_pos m)) in *.
    assert (0 < D) by (unfold D; lia).
    assert (0 <= e' - e) as Hn by lia.
    destruct (Z.le_gt_cases (e' - e) D) as [Hle|Hgt'].
    - assert (Zdigits2 m2 <= D - (e' - e) + 1); [|lia].
      apply Zdigits2_le; [|lia]. split; [lia|].
      assert (2 ^ D = 2 ^ (D - (e' - e)) * 2 ^ (e' - e)) as Hpow.
      { rewrite <- Z.pow_add_r by lia. f_equal. lia. }
      assert (0 < 2 ^ (e' - e)) by (apply Z.pow_pos_nonneg; lia).
      assert (0 < 2 ^ (D - (e' - e))) by (apply Z.pow_pos_nonneg; lia).
      rewrite Z.pow_add_r by lia. change (2 ^ 1) with 2. nia.
    - assert (Zdigits2 m2 <= 1); [|lia].
      apply Zdigits2_le; [|lia]. split; [lia|]. change (2 ^ 1) with 2.
      assert (2 ^ D < 2 ^ (e' - e)) by (apply Z.pow_lt_mono_r; lia).
      assert (0 < 2 ^ (e' - e)) by (apply Z.pow_pos_nonneg; lia).
      nia. }
  assert (e'' <= 971) as Hfin by lia.
  apply Z.leb_le in Hfin. change (emax - prec) with 971. by rewrite Hfin.
Qed.

Lemma SF64mul_finite (x y : spec_float) (kx ky : Z) :
  valid_binary x = true -> valid_binary y = true ->
  SF_below kx x -> SF_below ky y -> kx + ky <= 1023 ->
  SF_is_finite (SF64mul x y) = true.
Proof.
  intros Hvx Hvy Hx Hy Hk.
  destruct x as [sx|sx| |sx mx ex], y as [sy|sy| |sy my ey]; try done.
  cbn [SF64mul SFmul]. cbn [SF_below] in Hx, Hy.
  cbn [valid_binary] in Hvx, Hvy. unfold bounded, canonical_mantissa in Hvx, Hvy.
  apply andb_prop in Hvx as [Hcx Hex]. apply andb_prop in Hvy as [Hcy Hey].
  apply Z.eqb_eq in Hcx, Hcy. apply Z.leb_le in Hex, Hey.
  rewrite fexp_eq in Hcx, Hcy. change (emax - prec) with 971 in Hex, Hey.
  pose proof (digits2_pos_gt mx) as Hgx. pose proof (digits2_pos_gt my) as Hgy.
  set (dx := Z.pos (digits2_pos mx)) in *. set (dy := Z.pos (digits2_pos my)) in *.
  assert (0 < dx) by (unfold dx; lia). assert (0 < dy) by (unfold dy; lia).
  apply binary_round_aux_finite; [|lia].
  assert (Zdigits2 (Z.pos (mx * my)) <= dx + dy) as HD; [|cbn [Zdigits2] in HD; lia].
  apply Zdigits2_le; [|lia]. split; [lia|].
  rewrite Z.pow_add_r by lia. rewrite Pos2Z.inj_mul. nia.
Qed.

(** ... and the original is below the next multiple. *)
Lemma iter_pos_shr_1_upper (p : positive) (mrs : shr_record) :
  0 <= shr_m mrs ->
  shr_m mrs < (shr_m (SpecFloat.iter_pos shr_1 p mrs) + 1) * 2 ^ Zpos p.
Proof.
  assert (forall mrs, 0 <= shr_m mrs ->
            0 <= shr_m (shr_1 mrs) /\ shr_m mrs < (shr_m (shr_1 mrs) + 1) * 2) as Hstep.
  { intros [[|[q|q|]|q] r s]; cbn; lia. }
  revert mrs. induction p as [p IH|p IH|]; intros mrs Hm; cbn [SpecFloat.iter_pos].
  - destruct (Hstep mrs Hm) as [H0 H1].
    pose proof (IH _ H0) as H3.
    destruct (iter_pos_shr_1 p _ H0) as [H2 _].
    pose proof (IH _ H2) as H5.
    change (Z.pos p~1) with (2 * Z.pos p + 1).
    replace (2 * Z.pos p + 1) with (Z.pos p + Z.pos p + 1) by lia.
    rewrite !Z.pow_add_r by lia. change (2 ^ 1) with 2.
    assert (0 < 2 ^ Z.pos p) by (apply Z.pow_pos_nonneg; lia). nia.
  - pose proof (IH _ Hm) as H3.
    destruct (iter_pos_shr_1 p _ Hm) as [H2 _].
    pose proof (IH _ H2) as H5.
    change (Z.pos p~0) with (2 * Z.pos p).
    replace (2 * Z.pos p) with (Z.pos p + Z.pos p) by lia.
    rewrite !Z.pow_add_r by lia.
    assert (0 < 2 ^ Z.pos p) by (apply Z.pow_pos_nonneg; lia). nia.
  - destruct (Hstep mrs Hm) as [H0 H1]. change (2 ^ 1) with 2. lia.
Qed.

(** A mantissa with more digits than the shift survives it. *)
Lemma shr_fexp_positive (m : positive) (e : Z) (l : location) mrs' e' :
  -1073 <= Zpos (digits2_pos m) + e ->
  shr_fexp prec emax (Zpos m) e l = (mrs', e') ->
  0 < shr_m mrs' /\ -1074 <= e'.
Proof.
  intros HD. unfold shr_fexp, shr. cbn [Zdigits2]. rewrite fexp_eq.
  assert (shr_m (shr_record_of_loc (Zpos m) l) = Zpos m) as Hrec
    by (destruct l as [|[]]; reflexivity).
  pose proof (digits2_pos_le m) as Hle.
  set (D := Z.pos (digits2_pos m)) in *.
  destruct (Z.max (D + e - 53) (-1074) - e) as [|p|p] eqn:Hn;
    intros [= <- <-].
  - rewrite Hrec. lia.
  - split; [|lia].
    pose proof (iter_pos_shr_1 p (shr_record_of_loc (Zpos m) l)) as Hlow.
    pose proof (iter_pos_shr_1_upper p (shr_record_of_loc (Zpos m) l)) as Hup.
    rewrite Hrec in Hlow, Hup.
    destruct Hlow as [H0 _]; [lia|]. specialize (Hup ltac:(lia)).
    assert (2 ^ Z.pos p <= 2 ^ (D - 1)) by (apply Z.pow_le_mono_r; lia).
    nia.
  - rewrite Hrec. lia.
Qed.

Lemma digits2_pos_mul_ge (a b : positive) :
  Zpos (digits2_pos a) + Zpos (digits2_pos b) - 1 <= Zpos (digits2_pos (a * b)).
Proof.
  pose proof (digits2_pos_le a) as Ha. pose proof (digits2_pos_le b) as Hb.
  pose proof (digits2_pos_gt (a * b)) as Hab.
  set (da := Z.pos (digits2_pos a)) in *. set (db := Z.pos (digits2_pos b)) in *.
  set (d := Z.pos (digits2_pos (a * b))) in *.
  assert (0 < da) by (unfold da; lia). assert (0 < db) by (unfold db; lia).
  assert (2 ^ (da - 1 + (db - 1)) < 2 ^ d) as Hpow.
  { rewrite Z.pow_add_r by lia. rewrite Pos2Z.inj_mul in Hab.
    assert (0 < 2 ^ (da - 1)) by (apply Z.pow_pos_nonneg; lia).
    assert (0 < 2 ^ (db - 1)) by (apply Z.pow_pos_nonneg; lia). nia. }
  apply Z.pow_lt_mono_r_iff in Hpow; unfold d; lia.
Qed.

(** Rounding a large enough positive mantissa gives a positive float or
    an infinity, never zero. *)
Lemma binary_round_aux_positive (m : positive) (e : Z) (l : location) :
  -1073 <= Zpos (digits2_pos m) + e ->
  match binary_round_aux prec emax false (Zpos m) e l with
  | S754_finite false _ _ | S754_infinity false => True
  | _ => False
  end.
Proof.
  intros HD. unfold binary_round_aux.
  destruct (shr_fexp prec emax (Z.pos m) e l) as [mrs' e'] eqn:H1.
  apply shr_fexp_positive in H1 as [Hm1 He']; [|exact HD].
  pose proof (round_nearest_even_bound (shr_m mrs') (loc_of_shr_record mrs')
                ltac:(lia)) as Hm2.
  destruct (round_nearest_even (shr_m mrs') (loc_of_shr_record mrs'))
    as [|m2|m2] eqn:Em2; [lia| |lia].
  destruct (shr_fexp prec emax (Z.pos m2) e' loc_Exact) as [mrs'' e''] eqn:H2.
  apply shr_fexp_positive in H2 as [Hm3 _]; [|lia].
  destruct (shr_m mrs'') as [|m3|m3]; [lia| |lia].
  now destruct (e'' <=? emax - prec).
Qed.

(** A positive float times a finite float that is at least one is above
    zero: it may overflow, it cannot vanish. *)
Lemma mul_pos_gt_0 (t c : float) (mc : positive) (ec : Z) :
  Prim2SF c = S754_finite false mc ec ->
  1 <= Zpos (digits2_pos mc) + ec ->
  (0 <? t)%float = true -> (0 <? t * c)%float = true.
Proof.
  intros Hc Hone. rewrite !FloatAxioms.ltb_spec, mul_spec, Hc.
  change (Prim2SF 0%float) with (S754_zero false).
  pose proof (Prim2SF_valid t) as Hv.
  destruct (Prim2SF t) as [sx|[]| |[] mt et]; cbn [SF64mul SFmul SFltb SFcompare xorb];
    try easy.
  intros _.
  cbn [valid_binary] in Hv. unfold bounded, canonical_mantissa in Hv.
  apply andb_prop in Hv as [Hcan _]. apply Z.eqb_eq in Hcan. rewrite fexp_eq in Hcan.
  pose proof (digits2_pos_mul_ge mt mc) as Hmul.
  pose proof (binary_round_aux_positive (mt * mc) (et + ec) loc_Exact) as Hpos.
  destruct (binary_round_aux prec emax false (Z.pos (mt * mc)) (et + ec) loc_Exact)
    as [s|[]| |[] ? ?]; try easy; exfalso; apply Hpos; lia.
Qed.

Lemma mul_finite (x y : float) (kx ky : Z) :
  SF_below kx (Prim2SF x) -> SF_below ky (Prim2SF y) -> kx + ky <= 1023 ->
  binary64_is_finite (x * y)%float = true.
Proof.
  intros Hx Hy Hk. unfold binary64_is_finite. rewrite mul_spec.
  eapply SF64mul_finite; eauto using Prim2SF_valid.
Qed.

(** A float below [2^1022] in magnitude, by comparison. *)
Lemma abs_ltb_below (x : float) :
  (abs x <? 0x1p+1022)%float = true -> SF_below 1022 (Prim2SF x).
Proof.
  rewrite ltb_key. unfold float_key. rewrite abs_spec.
  change (Prim2SF 0x1p+1022%float) with (S754_finite false 4503599627370496 970).
  pose proof (Prim2SF_valid x) as Hv.
  destruct (Prim2SF x) as [sx|sx| |sx m e]; cbn [SFabs SF_key SF_below].
  - done.
  - intros (kx & kc & [= <-] & [= <-] & Hlt). unfold key_lt in Hlt. cbn in Hlt. lia.
  - by intros (kx & kc & [=] & _).
  - intros (kx & kc & [= <-] & [= <-] & Hlt).
    unfold key_lt in Hlt. cbn [fst snd] in Hlt.
    cbn [valid_binary] in Hv. unfold bounded, canonical_mantissa in Hv.
    apply andb_prop in Hv as [Hc _]. apply Z.eqb_eq in Hc. rewrite fexp_eq in Hc.
    pose proof (digits2_pos_le m) as Hle.
    set (d := Z.pos (digits2_pos m)) in Hc, Hle |- *.
    destruct Hlt as [?|[_ [Hlt|[-> Hlt]]]]; [lia|lia|].
    assert (d <= 52); [|lia].
    assert (2 ^ (d - 1) < 2 ^ 52) as Hpow by (change (2 ^ 52) with 4503599627370496; lia).
    apply Z.pow_lt_mono_r_iff in Hpow; lia.
Qed.

End Binary64Finite.

(** ** Comparing an int with a float *)

Section MixedComparison.
(** A threshold [K] between 32 and 63 is the float with exponent [-47] and
    mantissa [K * 2^47]. *)
Context (c : float) (K : Z) (mc : positive).
Context (Hc : Prim2SF c = S754_finite false mc (-47)).
Context (Hmc : Zpos mc = K * 2 ^ 47).
Context (HK : 32 <= K < 64).

Lemma ltb_threshold_finite (x : float) sx m e :
  Prim2SF x = S754_finite sx m e ->
  (x <? c)%float = true <-> sx = true \/ e < -47 \/ (e = -47 /\ Zpos m < K * 2 ^ 47).
Proof using Hc Hmc.
  intros Hx. rewrite ltb_key. unfold float_key. rewrite Hx, Hc.
  destruct sx; cbn [SF_key].
  - split; [auto|]. intros _. eexists _, _. repeat split. left. cbn. lia.
  - split.
    + intros (kx & kc & [= <-] & [= <-] & Hlt). right.
      unfold key_lt in Hlt. cbn [fst snd] in Hlt. lia.
    + intros [?|Hlt]; [done|]. eexists _, _. repeat split.
      unfold key_lt. cbn [fst snd]. lia.
Qed.

(** [z <= x] and [x < K] give [z < K]. *)
Lemma Z_le_float_lt_threshold (z : Z) (x : float) :
  Z_le_SF z (Prim2SF x) = true -> (x <? c)%float = true -> z < K.
Proof using Hc Hmc HK.
  pose proof (Prim2SF_valid x) as Hv.
  destruct (Prim2SF x) as [sx|[]| |sx m e] eqn:Hx; cbn [Z_le_SF negb]; try done.
  - intros Hz%Z.leb_le _. lia.
  - intros _. rewrite ltb_key. unfold float_key. rewrite Hx, Hc. cbn [SF_key].
    intros (kx & kc & [= <-] & [= <-] & Hlt).
    unfold key_lt in Hlt. cbn [fst snd] in Hlt. lia.
  - apply valid_binary_finite in Hv as (Hm & _ & He).
    intros Hz Hlt. apply (ltb_threshold_finite x sx m e Hx) in Hlt.
    destruct sx.
    + destruct (0 <=? e) eqn:E; apply Z.leb_le in Hz.
      * apply Z.leb_le in E. assert (0 < 2 ^ e) by (apply Z.pow_pos_nonneg; lia).
        nia.
      * apply Z.leb_gt in E. assert (0 < 2 ^ (- e)) by (apply Z.pow_pos_nonneg; lia).
        nia.
    + destruct Hlt as [?|Hlt]; [done|].
      destruct (0 <=? e) eqn:E; [apply Z.leb_le in E; lia|].
      apply Z.leb_le in Hz.
      destruct Hlt as [Hlt | [-> Hlt]].
      * assert (2 ^ 48 <= 2 ^ (- e)) by (apply Z.pow_le_mono_r; lia).
        assert (2 ^ 53 = 32 * 2 ^ 48) as E53 by reflexivity.
        nia.
      * change (- -47) with 47 in Hz. nia.
Qed.

(** [x <= z] and [z < K] give [x < K]. *)
Lemma float_le_Z_lt_threshold (x : float) (z : Z) :
  SF_le_Z (Prim2SF x) z = true -> z < K -> (x <? c)%float = true.
Proof using Hc Hmc HK.
  pose proof (Prim2SF_valid x) as Hv.
  destruct (Prim2SF x) as [sx|[]| |sx m e] eqn:Hx; cbn [SF_le_Z]; try done.
  - intros _ _. apply ltb_key. unfold float_key. rewrite Hx, Hc.
    eexists _, _. repeat split. left. cbn. lia.
  - intros _ _. apply ltb_key. unfold float_key. rewrite Hx, Hc.
    eexists _, _. repeat split. left. cbn. lia.
  - apply valid_binary_finite in Hv as (Hm & Hnormal & He).
    intros Hz Hlt. apply (ltb_threshold_finite x sx m e Hx).
    destruct sx; [by left|]. right.
    destruct (0 <=? e) eqn:E; apply Z.leb_le in Hz.
    + apply Z.leb_le in E. assert (0 < 2 ^ e) by (apply Z.pow_pos_nonneg; lia).
      assert (2 ^ 52 <= Z.pos m) by (apply Hnormal; lia).
      assert (64 < 2 ^ 52) by reflexivity. nia.
    + apply Z.leb_gt in E.
      destruct (Z.lt_trichotomy e (-47)) as [?|[->|Hgt]]; [by left| |].
      * right. split; [done|]. change (- -47) with 47 in Hz. nia.
      * assert (2 ^ 52 <= Z.pos m) by (apply Hnormal; lia).
        assert (2 ^ (- e) <= 2 ^ 46) by (apply Z.pow_le_mono_r; lia).
        assert (0 < 2 ^ (- e)) by (apply Z.pow_pos_nonneg; lia).
        assert (2 ^ 52 = 64 * 2 ^ 46) as E52 by reflexivity.
        nia.
Qed.

End MixedComparison.

(** ** Rounding to nearest, in the normal range *)

Section Binary64Rounding.

Lemma Zdigits2_eq (z d : Z) : 0 < d -> 2 ^ (d - 1) <= z < 2 ^ d -> Zdigits2 z = d.
Proof.
  intros Hd [Hlo Hhi].
  assert (0 < 2 ^ (d - 1)) by (apply Z.pow_pos_nonneg; lia).
  destruct z as [|p|p]; [lia| |lia]. cbn [Zdigits2].
  pose proof (digits2_pos_gt p) as Hgt. pose proof (digits2_pos_le p) as Hle.
  set (D := Z.pos (digits2_pos p)) in *.
  assert (0 < D) by (unfold D; lia).
  assert (2 ^ (d - 1) < 2 ^ D) as H1 by lia.
  assert (2 ^ (D - 1) < 2 ^ d) as H2 by lia.
  apply Z.pow_lt_mono_r_iff in H1; [|lia..].
  apply Z.pow_lt_mono_r_iff in H2; lia.
Qed.

(** [shr_fexp] rounds down: the mantissa it leaves is the quotient. *)
Lemma shr_fexp_floor (m e : Z) (l : location) mrs' e' :
  0 <= m ->
  shr_fexp prec emax m e l = (mrs', e') ->
  m < (shr_m mrs' + 1) * 2 ^ (e' - e).
Proof.
  intros Hm. unfold shr_fexp, shr.
  assert (shr_m (shr_record_of_loc m l) = m) as Hrec by (destruct l as [|[]]; reflexivity).
  destruct (fexp prec emax (Zdigits2 m + e) - e) as [|p|p] eqn:Hn;
    intros [= <- <-].
  - rewrite Hrec, Z.sub_diag. cbn. lia.
  - pose proof (iter_pos_shr_1_upper p (shr_record_of_loc m l)) as Hs.
    rewrite Hrec in Hs. specialize (Hs Hm).
    replace (e + Z.pos p - e) with (Z.pos p) by lia. exact Hs.
  - rewrite Hrec, Z.sub_diag. cbn. lia.
Qed.

(** Rounding a mantissa of at least 53 bits whose value lies in the normal
    range: the result is a normal float, one of the two multiples of the
    unit in the last place that enclose the value. *)
Lemma binary_round_aux_normal sx (m : positive) (e : Z) (l : location) :
  53 <= Zpos (digits2_pos m) ->
  -1074 <= Zpos (digits2_pos m) + e - 53 ->
  Zpos (digits2_pos m) + e <= 1023 ->
  exists (m3 : positive) (e3 s : Z),
    binary_round_aux prec emax sx (Zpos m) e l = S754_finite sx m3 e3 /\
    2 ^ 52 <= Zpos m3 < 2 ^ 53 /\ -1074 <= e3 <= 971 /\ e <= e3 /\
    2 ^ 52 <= s /\
    s * 2 ^ (Zpos (digits2_pos m) - 53) <= Zpos m
      < (s + 1) * 2 ^ (Zpos (digits2_pos m) - 53) /\
    (Zpos m3 * 2 ^ (e3 - e) = s * 2 ^ (Zpos (digits2_pos m) - 53) \/
     Zpos m3 * 2 ^ (e3 - e) = (s + 1) * 2 ^ (Zpos (digits2_pos m) - 53)).
Proof.
  intros HD Hlo Hhi. unfold binary_round_aux.
  destruct (shr_fexp prec emax (Z.pos m) e l) as [mrs' e'] eqn:H1.
  pose proof (shr_fexp_floor _ _ _ _ _ (Pos2Z.is_nonneg m) H1) as Hup.
  apply shr_fexp_bound in H1 as (He' & Hm1 & Hdown); [|lia].
  cbn [Zdigits2] in He'. rewrite fexp_eq in He'.
  pose proof (digits2_pos_gt m) as Hgt. pose proof (digits2_pos_le m) as Hle.
  set (D := Z.pos (digits2_pos m)) in *.
  assert (e' = D + e - 53) as -> by lia.
  replace (D + e - 53 - e) with (D - 53) in Hup, Hdown by lia.
  set (s := shr_m mrs') in *.
  assert (0 < 2 ^ (D - 53)) as HK by (apply Z.pow_pos_nonneg; lia).
  assert (2 ^ (D - 1) = 2 ^ 52 * 2 ^ (D - 53)) as Hp1
    by (rewrite <- Z.pow_add_r by lia; f_equal; lia).
  assert (2 ^ D = 2 ^ 53 * 2 ^ (D - 53)) as Hp2
    by (rewrite <- Z.pow_add_r by lia; f_equal; lia).
  set (K := 2 ^ (D - 53)) in *.
  assert (2 ^ 52 <= s) as Hs1.
  { assert (2 ^ 52 * K < (s + 1) * K) as Hlt by lia.
    apply Z.mul_lt_mono_pos_r in Hlt; lia. }
  assert (s < 2 ^ 53) as Hs2.
  { assert (s * K < 2 ^ 53 * K) as Hlt by lia.
    apply Z.mul_lt_mono_pos_r in Hlt; lia. }
  pose proof (round_nearest_even_bound s (loc_of_shr_record mrs') Hm1) as Hm2.
  set (m2 := round_nearest_even s (loc_of_shr_record mrs')) in *.
  destruct (Z.eq_dec m2 (2 ^ 53)) as [Heq|Hne].
  - (* the mantissa has been rounded up to the next power of two *)
    rewrite Heq. unfold shr_fexp.
    change (Zdigits2 (2 ^ 53)) with 54. rewrite fexp_eq.
    replace (Z.max (54 + (D + e - 53) - 53) (-1074) - (D + e - 53)) with 1 by lia.
    cbn [shr SpecFloat.iter_pos shr_record_of_loc].
    change (shr_m (shr_1 {| shr_m := 2 ^ 53; shr_r := false; shr_s := false |}))
      with (Z.pos 4503599627370496).
    cbv iota.
    replace (D + e - 53 + 1 <=? emax - prec) with true
      by (symmetry; apply Z.leb_le; change (emax - prec) with 971; lia).
    exists 4503599627370496%positive, (D + e - 53 + 1), s.
    split; [reflexivity|]. split; [done|]. split; [lia|]. split; [lia|].
    split; [exact Hs1|]. split; [lia|]. right.
    replace (D + e - 53 + 1 - e) with (D - 53 + 1) by lia.
    rewrite Z.pow_add_r by lia. fold K.
    replace (s + 1) with (2 ^ 53) by lia.
    change (2 ^ 1) with 2. change (Z.pos 4503599627370496) with (2 ^ 52).
    change (2 ^ 53) with (2 ^ 52 * 2). lia.
  - assert (2 ^ 52 <= m2 < 2 ^ 53) as Hm2' by lia.
    unfold shr_fexp. rewrite (Zdigits2_eq m2 53) by lia. rewrite fexp_eq.
    replace (Z.max (53 + (D + e - 53) - 53) (-1074) - (D + e - 53)) with 0 by lia.
    cbn [shr shr_record_of_loc shr_m].
    destruct m2 as [|m3|m3] eqn:Em2; [lia| |lia].
    replace (D + e - 53 <=? emax - prec) with true
      by (symmetry; apply Z.leb_le; change (emax - prec) with 971; lia).
    exists m3, (D + e - 53), s.
    split; [reflexivity|]. split; [lia|]. split; [lia|]. split; [lia|].
    split; [exact Hs1|]. split; [lia|].
    replace (D + e - 53 - e) with (D - 53) by lia. fold K.
    destruct (Z.eq_dec (Z.pos m3) s) as [->|Hne']; [by left|].
    right. f_equal. lia.
Qed.

(** The relative error of that rounding is at most [2^-52]. *)
Lemma binary_round_aux_error sx (m : positive) (e : Z) (l : location) :
  53 <= Zpos (digits2_pos m) ->
  -1074 <= Zpos (digits2_pos m) + e - 53 ->
  Zpos (digits2_pos m) + e <= 1023 ->
  exists (m3 : positive) (e3 : Z),
    binary_round_aux prec emax sx (Zpos m) e l = S754_finite sx m3 e3 /\
    valid_binary (S754_finite sx m3 e3) = true /\
    2 ^ 52 <= Zpos m3 /\ e <= e3 /\
    2 ^ 52 * Z.abs (Zpos m3 * 2 ^ (e3 - e) - Zpos m) <= Zpos m.
Proof.
  intros HD Hlo Hhi.
  destruct (binary_round_aux_normal sx m e l HD Hlo Hhi)
    as (m3 & e3 & s & Hr & Hm3 & He3 & Hee & Hs & Hbr & Hx).
  exists m3, e3. split; [exact Hr|]. split; [|split; [lia|split; [lia|]]].
  - cbn [valid_binary]. unfold bounded, canonical_mantissa.
    apply andb_true_intro. split.
    + apply Z.eqb_eq. rewrite fexp_eq.
      change (Z.pos (digits2_pos m3)) with (Zdigits2 (Z.pos m3)).
      rewrite (Zdigits2_eq (Z.pos m3) 53) by lia. lia.
    + apply Z.leb_le. change (emax - prec) with 971. lia.
  - set (K := 2 ^ (Z.pos (digits2_pos m) - 53)) in *.
    assert (0 < K) by (apply Z.pow_pos_nonneg; lia).
    assert (2 ^ 52 * K <= s * K) by (apply Z.mul_le_mono_nonneg_r; lia).
    destruct Hx as [-> | ->]; lia.
Qed.

End Binary64Rounding.

(** ** The value of a float, and the error of a product *)

Section Binary64Value.
Local Open Scope Q_scope.

Lemma pow2_pos (e : Z) : 0 < 2 ^ e.
Proof. by apply Qpower_0_lt. Qed.

Lemma pow2_add (a b : Z) : 2 ^ (a + b) == 2 ^ a * 2 ^ b.
Proof. by apply Qpower_plus. Qed.

Lemma pow2_inject (n : Z) : (0 <= n)%Z -> inject_Z (2 ^ n) == 2 ^ n.
Proof. intros Hn. by rewrite Zpower_Qpower. Qed.

Lemma pow2_lt (a b : Z) : (a < b)%Z -> 2 ^ a < 2 ^ b.
Proof. intros Hab. by apply Qpower_lt_compat_l. Qed.

Lemma pow2_le (a b : Z) : (a <= b)%Z -> 2 ^ a <= 2 ^ b.
Proof. intros Hab. by apply Qpower_le_compat_l. Qed.

Lemma pow2_lt_inv (a b : Z) : 2 ^ a < 2 ^ b -> (a < b)%Z.
Proof. intros Hab. by apply (Qpower_lt_compat_l_inv 2). Qed.

(** A mantissa of [D] bits at exponent [e] lies in [[2^(D+e-1), 2^(D+e))]. *)
Lemma mantissa_value_lt (m : positive) (e : Z) :
  inject_Z (Zpos m) * 2 ^ e < 2 ^ (Zpos (digits2_pos m) + e).
Proof.
  rewrite pow2_add. apply Qmult_lt_r; [apply pow2_pos|].
  rewrite <- pow2_inject by lia. rewrite <- Zlt_Qlt. apply digits2_pos_gt.
Qed.

Lemma mantissa_value_ge (m : positive) (e : Z) :
  2 ^ (Zpos (digits2_pos m) - 1 + e) <= inject_Z (Zpos m) * 2 ^ e.
Proof.
  rewrite pow2_add. apply Qmult_le_r; [apply pow2_pos|].
  rewrite <- pow2_inject by lia. rewrite <- Zle_Qle. apply digits2_pos_le.
Qed.

Lemma mantissa_value_pos (m : positive) (e : Z) : 0 < inject_Z (Zpos m) * 2 ^ e.
Proof.
  apply Qmult_lt_0_compat; [|apply pow2_pos]. unfold Qlt. cbn. lia.
Qed.

Lemma mantissa_value_magnitude (m : positive) (e a b : Z) :
  2 ^ a <= inject_Z (Zpos m) * 2 ^ e -> inject_Z (Zpos m) * 2 ^ e < 2 ^ b ->
  (a < Zpos (digits2_pos m) + e <= b)%Z.
Proof.
  intros Ha Hb. split.
  - apply pow2_lt_inv. eapply Qle_lt_trans; [exact Ha|]. apply mantissa_value_lt.
  - assert (Zpos (digits2_pos m) - 1 + e < b)%Z; [|lia].
    apply pow2_lt_inv. eapply Qle_lt_trans; [|exact Hb]. apply mantissa_value_ge.
Qed.

Lemma positive_normal_digits (m : positive) (e : Z) :
  valid_binary (S754_finite false m e) = true -> (2 ^ 52 <= Zpos m)%Z ->
  Zpos (digits2_pos m) = 53%Z.
Proof.
  intros (Hlt & _ & _)%valid_binary_finite Hm.
  change (Z.pos (digits2_pos m)) with (Zdigits2 (Z.pos m)).
  apply Zdigits2_eq; lia.
Qed.

(** From an error in units of [2^e] to a relative error of the value. *)
Lemma relative_error_scaled (X P : Z) (e : Z) :
  (2 ^ 52 * Z.abs (X - P) <= P)%Z ->
  inject_Z P * 2 ^ e * (1 - (1 # 2 ^ 52)) <= inject_Z X * 2 ^ e
    <= inject_Z P * 2 ^ e * (1 + (1 # 2 ^ 52)).
Proof.
  intros Hrel.
  assert (inject_Z (2 ^ 52 * (X - P)) <= inject_Z P) as H1
    by (rewrite <- Zle_Qle; lia).
  assert (inject_Z (- P) <= inject_Z (2 ^ 52 * (X - P))) as H2
    by (rewrite <- Zle_Qle; lia).
  replace (X - P)%Z with (X + - P)%Z in H1, H2 by lia.
  rewrite inject_Z_mult, inject_Z_plus, inject_Z_opp in H1.
  rewrite inject_Z_opp, inject_Z_mult, inject_Z_plus, inject_Z_opp in H2.
  change (inject_Z (2 ^ 52)) with (4503599627370496 # 1) in H1, H2.
  change (1 # 2 ^ 52) with (1 # 4503599627370496).
  pose proof (pow2_pos e) as He.
  set (x := inject_Z X) in *. set (p := inject_Z P) in *. set (k := 2 ^ e) in *.
  assert (p * (1 - (1 # 4503599627370496)) <= x <= p * (1 + (1 # 4503599627370496)))
    as [Hlo Hhi] by (split; lra).
  split.
  - assert (p * k * (1 - (1 # 4503599627370496))
            == p * (1 - (1 # 4503599627370496)) * k) as -> by ring.
    by apply Qmult_le_r.
  - assert (p * k * (1 + (1 # 4503599627370496))
            == p * (1 + (1 # 4503599627370496)) * k) as -> by ring.
    by apply Qmult_le_r.
Qed.

(** The product of two positive normal floats whose exact product lies in
    the normal range: a positive normal float within [2^-52] of it. *)
Lemma SF64mul_error (x y : spec_float) :
  positive_normal x -> positive_normal y ->
  2 ^ (-1021) <= SF2Q x * SF2Q y -> SF2Q x * SF2Q y < 2 ^ 1023 ->
  positive_normal (SF64mul x y) /\
  SF2Q x * SF2Q y * (1 - (1 # 2 ^ 52)) <= SF2Q (SF64mul x y)
    <= SF2Q x * SF2Q y * (1 + (1 # 2 ^ 52)).
Proof.
  intros (mx & ex & -> & Hmx & Hvx) (my & ey & -> & Hmy & Hvy).
  cbn [SF2Q SF64mul SFmul xorb].
  assert (1 * (inject_Z (Z.pos mx) * 2 ^ ex) * (1 * (inject_Z (Z.pos my) * 2 ^ ey))
          == inject_Z (Z.pos (mx * my)) * 2 ^ (ex + ey)) as HT.
  { rewrite pow2_add, Pos2Z.inj_mul, inject_Z_mult. ring. }
  rewrite !HT. intros Hlo Hhi.
  destruct (mantissa_value_magnitude _ _ _ _ Hlo Hhi) as [Hlo' Hhi'].
  pose proof (digits2_pos_mul_ge mx my) as Hd.
  rewrite (positive_normal_digits mx ex), (positive_normal_digits my ey) in Hd by done.
  destruct (binary_round_aux_error false (mx * my) (ex + ey) loc_Exact)
    as (m3 & e3 & -> & Hv3 & Hm3 & He3 & Hrel); [lia..|].
  split; [by exists m3, e3|].
  cbn [SF2Q].
  assert (1 * (inject_Z (Z.pos m3) * 2 ^ e3)
          == inject_Z (Z.pos m3 * 2 ^ (e3 - (ex + ey))) * 2 ^ (ex + ey)) as ->.
  { rewrite inject_Z_mult, pow2_inject by lia.
    replace e3 with ((e3 - (ex + ey)) + (ex + ey))%Z at 1 by lia.
    rewrite pow2_add. ring. }
  by apply relative_error_scaled.
Qed.

End Binary64Value.

(** ** The error of a quotient *)

Section Binary64Division.

Lemma valid_binary_normal sx (m : positive) (e : Z) :
  2 ^ 52 <= Zpos m < 2 ^ 53 -> -1074 <= e <= 971 ->
  valid_binary (S754_finite sx m e) = true.
Proof.
  intros Hm He. cbn [valid_binary]. unfold bounded, canonical_mantissa.
  apply andb_true_intro. split.
  - apply Z.eqb_eq. rewrite fexp_eq.
    change (Z.pos (digits2_pos m)) with (Zdigits2 (Z.pos m)).
    rewrite (Zdigits2_eq (Z.pos m) 53) by lia. lia.
  - apply Z.leb_le. change (emax - prec) with 971. lia.
Qed.

Local Open Scope Q_scope.

(** The quotient of two positive normal floats whose exact quotient lies in
    the normal range: a positive normal float within [2^-52] of it. *)
Lemma SF64div_error (x y : spec_float) :
  positive_normal x -> positive_normal y ->
  2 ^ (-1021) * SF2Q y <= SF2Q x -> SF2Q x < 2 ^ 1022 * SF2Q y ->
  positive_normal (SF64div x y) /\
  SF2Q x * (1 - (1 # 2 ^ 52)) <= SF2Q (SF64div x y) * SF2Q y
    <= SF2Q x * (1 + (1 # 2 ^ 52)).
Proof.
  intros (mx & ex & -> & Hmx & Hvx) (my & ey & -> & Hmy & Hvy).
  cbn [SF2Q]. rewrite !Qmult_1_l. intros Hlo Hhi.
  pose proof (positive_normal_digits mx ex Hvx Hmx) as Hdx.
  pose proof (positive_normal_digits my ey Hvy Hmy) as Hdy.
  apply valid_binary_finite in Hvx as (Hmx' & _ & Hex).
  apply valid_binary_finite in Hvy as (Hmy' & _ & Hey).
  (* the exponents are far enough from the ends of the range *)
  assert (-1021 <= ex - ey <= 1022)%Z as Hee.
  { pose proof (mantissa_value_lt mx ex) as H1. pose proof (mantissa_value_ge mx ex) as H2.
    pose proof (mantissa_value_lt my ey) as H3. pose proof (mantissa_value_ge my ey) as H4.
    rewrite Hdx in H1, H2. rewrite Hdy in H3, H4. split.
    - assert (2 ^ (-1021 + (53 - 1 + ey)) < 2 ^ (53 + ex)) as Hp.
      { rewrite pow2_add. eapply Qle_lt_trans; [|exact H1].
        eapply Qle_trans; [|exact Hlo].
        apply Qmult_le_l; [apply pow2_pos | exact H4]. }
      apply pow2_lt_inv in Hp. lia.
    - assert (2 ^ (53 - 1 + ex) < 2 ^ (1022 + (53 + ey))) as Hp.
      { rewrite (pow2_add 1022). eapply Qle_lt_trans; [exact H2|].
        eapply Qlt_trans; [exact Hhi|].
        apply Qmult_lt_l; [apply pow2_pos | exact H3]. }
      apply pow2_lt_inv in Hp. lia. }
  cbn [SF64div SFdiv xorb]. unfold SFdiv_core_binary. cbn [Zdigits2].
  rewrite Hdx, Hdy, fexp_eq.
  replace (Z.min (Z.max (53 + ex - (53 + ey) - 53) (-1074)) (ex - ey))
    with (ex - ey - 53)%Z by lia.
  replace (ex - ey - (ex - ey - 53))%Z with 53%Z by lia.
  rewrite Z.shiftl_mul_pow2 by lia.
  set (M := (Z.pos mx * 2 ^ 53)%Z).
  unfold Z.div_eucl at 1. fold (Z.div_eucl M (Z.pos my)).
  pose proof (Z.div_mod M (Z.pos my) ltac:(lia)) as Hdm.
  pose proof (Z.mod_pos_bound M (Z.pos my) ltac:(lia)) as Hmod.
  unfold Z.div, Z.modulo in Hdm, Hmod.
  destruct (Z.div_eucl M (Z.pos my)) as [q r]. cbn [fst snd] in Hdm, Hmod.
  assert (2 ^ 52 <= q < 2 ^ 54)%Z as Hq.
  { subst M. change (2 ^ 53)%Z with 9007199254740992%Z in *.
    change (2 ^ 52)%Z with 4503599627370496%Z in *.
    change (2 ^ 54)%Z with 18014398509481984%Z. nia. }
  destruct q as [|mq|mq]; [lia| |lia].
  assert (53 <= Z.pos (digits2_pos mq) <= 54)%Z as Hdq.
  { pose proof (digits2_pos_gt mq) as Hgt. pose proof (digits2_pos_le mq) as Hle.
    set (D := Z.pos (digits2_pos mq)) in *.
    assert (2 ^ 52 < 2 ^ D)%Z as H1 by lia.
    assert (2 ^ (D - 1) < 2 ^ 54)%Z as H2 by lia.
    assert (0 < D)%Z by (unfold D; lia).
    apply Z.pow_lt_mono_r_iff in H1; [|lia..].
    apply Z.pow_lt_mono_r_iff in H2; lia. }
  destruct (binary_round_aux_normal false mq (ex - ey - 53)
              (new_location (Z.pos my) r))
    as (m3 & e3 & s & -> & Hm3 & He3 & Hee3 & Hs & Hbr & HX); [lia..|].
  split.
  { exists m3, e3. split; [done|]. split; [lia|]. by apply valid_binary_normal. }
  cbn [SF2Q]. rewrite Qmult_1_l.
  set (K := (2 ^ (Z.pos (digits2_pos mq) - 53))%Z) in *.
  set (X := (Z.pos m3 * 2 ^ (e3 - (ex - ey - 53)))%Z) in *.
  assert (0 < K)%Z by (apply Z.pow_pos_nonneg; lia).
  assert (2 ^ 52 * Z.abs (X * Z.pos my - M) <= M)%Z as Hrel.
  { assert (2 ^ 52 * K <= s * K)%Z by (apply Z.mul_le_mono_nonneg_r; lia).
    assert (s * K * Z.pos my <= M)%Z by nia.
    assert (M < (s + 1) * K * Z.pos my)%Z by nia.
    assert (2 ^ 52 * K * Z.pos my <= s * K * Z.pos my)%Z
      by (apply Z.mul_le_mono_nonneg_r; lia).
    destruct HX as [-> | ->]; nia. }
  apply (relative_error_scaled _ _ (ex - 53)) in Hrel.
  assert (inject_Z (Z.pos m3) * 2 ^ e3 * (inject_Z (Z.pos my) * 2 ^ ey)
          == inject_Z (X * Z.pos my) * 2 ^ (ex - 53)) as ->.
  { unfold X. rewrite !inject_Z_mult, pow2_inject by lia.
    replace e3 with ((e3 - (ex - ey - 53)) + (ex - ey - 53))%Z at 1 by lia.
    replace (ex - 53)%Z with ((ex - ey - 53) + ey)%Z by lia.
    rewrite !pow2_add. ring. }
  assert (inject_Z (Z.pos mx) * 2 ^ ex == inject_Z M * 2 ^ (ex - 53)) as ->.
  { unfold M. rewrite inject_Z_mult, pow2_inject by lia.
    replace ex with (53 + (ex - 53))%Z at 1 by lia.
    rewrite pow2_add. ring. }
  exact Hrel.
Qed.

End Binary64Division.

(** ** Between two floats *)

Section Binary64Between.
Local Open Scope Q_scope.

(** The order of the keys is the order of the values. *)
Lemma key_le_value (m m' : positive) (e e' : Z) :
  valid_binary (S754_finite false m e) = true ->
  valid_binary (S754_finite false m' e') = true ->
  (e < e' \/ (e = e' /\ Zpos m <= Zpos m'))%Z ->
  inject_Z (Zpos m) * 2 ^ e <= inject_Z (Zpos m') * 2 ^ e'.
Proof.
  intros (Hm & _ & He)%valid_binary_finite (Hm' & Hn' & He')%valid_binary_finite
    [Hlt | [-> Hle]].
  - specialize (Hn' ltac:(lia)).
    apply Qle_trans with (2 ^ (53 + e)).
    + rewrite pow2_add. apply Qmult_le_r; [apply pow2_pos|].
      rewrite <- pow2_inject by lia. rewrite <- Zle_Qle. lia.
    + apply Qle_trans with (2 ^ (52 + e')); [apply pow2_le; lia|].
      rewrite pow2_add. apply Qmult_le_r; [apply pow2_pos|].
      rewrite <- pow2_inject by lia. by rewrite <- Zle_Qle.
  - apply Qmult_le_r; [apply pow2_pos|]. by rewrite <- Zle_Qle.
Qed.

(** A float between two positive normal floats is positive and normal, and
    its value lies between theirs. *)
Lemma between_positive_normal (a x b : float) :
  positive_normal (Prim2SF a) -> positive_normal (Prim2SF b) ->
  (a <=? x)%float = true -> (x <=? b)%float = true ->
  positive_normal (Prim2SF x) /\
  binary64_value a <= binary64_value x <= binary64_value b.
Proof.
  intros (ma & ea & Ha & Hma & Hva) (mb & eb & Hb & Hmb & Hvb).
  rewrite !leb_key. unfold float_key, binary64_value. rewrite Ha, Hb.
  pose proof (Prim2SF_valid x) as Hvx.
  intros (ka & kx & [= <-] & Hkx & Hax) (kx' & kb & Hkx' & [= <-] & Hxb).
  rewrite Hkx in Hkx'. injection Hkx' as <-.
  rewrite Ha in Hva. rewrite Hb in Hvb.
  destruct (Prim2SF x) as [sx|sx| |sx mx ex]; cbn [SF_key] in Hkx.
  - injection Hkx as <-. unfold key_lt in Hax. cbn in Hax.
    destruct Hax as [Hax|[=]]; lia.
  - destruct sx; injection Hkx as <-; unfold key_lt in Hax, Hxb; cbn in Hax, Hxb.
    + destruct Hax as [Hax|[=]]; lia.
    + destruct Hxb as [Hxb|[=]]; lia.
  - done.
  - destruct sx; injection Hkx as <-; unfold key_lt in Hax, Hxb;
      cbn [fst snd] in Hax, Hxb.
    { destruct Hax as [Hax|[=]]; lia. }
    assert (ea < ex \/ (ea = ex /\ Z.pos ma <= Z.pos mx))%Z as Hlo.
    { destruct Hax as [[?|[_ [?|[? ?]]]]|[= -> ->]]; lia. }
    assert (ex < eb \/ (ex = eb /\ Z.pos mx <= Z.pos mb))%Z as Hhi.
    { destruct Hxb as [[?|[_ [?|[? ?]]]]|[= -> ->]]; lia. }
    split.
    + exists mx, ex. split; [done|]. split; [|done].
      pose proof Hvx as (_ & Hn & _)%valid_binary_finite.
      pose proof Hva as (_ & _ & Hea)%valid_binary_finite.
      destruct Hlo as [Hlt|[-> Hle]]; [apply Hn|]; lia.
    + cbn [SF2Q]. rewrite !Qmult_1_l. split; by apply key_le_value.
Qed.

Lemma positive_normal_value_pos (s : spec_float) :
  positive_normal s -> 0 < SF2Q s.
Proof.
  intros (m & e & -> & _ & _). cbn [SF2Q]. rewrite Qmult_1_l.
  apply mantissa_value_pos.
Qed.

Lemma positive_normal_finite (x : float) :
  positive_normal (Prim2SF x) -> binary64_is_finite x = true.
Proof. intros (m & e & Hx & _ & _). unfold binary64_is_finite. by rewrite Hx. Qed.

Lemma positive_normal_gt_0 (x : float) :
  positive_normal (Prim2SF x) -> (0 <? x)%float = true.
Proof.
  intros (m & e & Hx & _ & _). rewrite FloatAxioms.ltb_spec, Hx. reflexivity.
Qed.

Lemma positive_normal_not_0 (x : float) :
  positive_normal (Prim2SF x) -> (x =? 0)%float = false.
Proof.
  intros (m & e & Hx & _ & _). rewrite FloatAxioms.eqb_spec, Hx. reflexivity.
Qed.

Lemma mul_error (x y : float) :
  positive_normal (Prim2SF x) -> positive_normal (Prim2SF y) ->
  2 ^ (-1021) <= binary64_value x * binary64_value y ->
  binary64_value x * binary64_value y < 2 ^ 1023 ->
  positive_normal (Prim2SF (x * y)) /\
  binary64_value x * binary64_value y * (1 - (1 # 2 ^ 52))
    <= binary64_value (x * y)
    <= binary64_value x * binary64_value y * (1 + (1 # 2 ^ 52)).
Proof. unfold binary64_value. rewrite mul_spec. apply SF64mul_error. Qed.

Lemma div_error (x y : float) :
  positive_normal (Prim2SF x) -> positive_normal (Prim2SF y) ->
  2 ^ (-1021) * binary64_value y <= binary64_value x ->
  binary64_value x < 2 ^ 1022 * binary64_value y ->
  positive_normal (Prim2SF (x / y)) /\
  binary64_value x * (1 - (1 # 2 ^ 52))
    <= binary64_value (x / y) * binary64_value y
    <= binary64_value x * (1 + (1 # 2 ^ 52)).
Proof. unfold binary64_value. rewrite div_spec. apply SF64div_error. Qed.

End Binary64Between.

(** ** The conversion of an int *)

Section IntToFloat.

Lemma digits2_pos_iter_xO (p d : positive) :
  Zpos (digits2_pos (Pos.iter xO p d)) = Zpos (digits2_pos p) + Zpos d.
Proof.
  induction d as [|d IH] using Pos.peano_ind.
  - cbn. lia.
  - rewrite Pos.iter_succ. cbn [digits2_pos]. rewrite Pos2Z.inj_succ, IH. lia.
Qed.

(** An int below [2^1023] in magnitude converts to a finite float. *)
Lemma Z_to_binary64_finite (z : Z) :
  - 2 ^ 1023 < z < 2 ^ 1023 -> binary64_is_finite (Z_to_binary64 z) = true.
Proof.
  intros Hz. unfold binary64_is_finite, Z_to_binary64.
  assert (forall sx (p : positive), Zpos p < 2 ^ 1023 ->
            exists m e, binary_round prec emax sx p 0 = S754_finite sx m e /\
                        valid_binary (S754_finite sx m e) = true) as Hround.
  { intros sx p Hp. unfold binary_round, shl_align. rewrite fexp_eq.
    pose proof (digits2_pos_le p) as Hle.
    set (D := Z.pos (digits2_pos p)) in *.
    assert (0 < D) as HD by (unfold D; lia).
    assert (D <= 1023) as HD'.
    { assert (2 ^ (D - 1) < 2 ^ 1023) as Hpow by lia.
      apply Z.pow_lt_mono_r_iff in Hpow; lia. }
    replace (Z.max (D + 0 - 53) (-1074) - 0) with (D - 53) by lia.
    destruct (D - 53) as [|d|d] eqn:Hd.
    - destruct (binary_round_aux_error sx p 0 loc_Exact)
        as (m & e & -> & Hv & _); [fold D; lia..|]. by exists m, e.
    - destruct (binary_round_aux_error sx p 0 loc_Exact)
        as (m & e & -> & Hv & _); [fold D; lia..|]. by exists m, e.
    - replace (Z.max (D + 0 - 53) (-1074)) with (D - 53) by lia.
      pose proof (digits2_pos_iter_xO p d) as Hdig. fold D in Hdig.
      destruct (binary_round_aux_error sx (Pos.iter xO p d) (D - 53) loc_Exact)
        as (m & e & -> & Hv & _); [lia..|]. by exists m, e. }
  destruct z as [|p|p]; cbn [binary_normalize].
  - by rewrite Prim2SF_SF2Prim.
  - destruct (Hround false p ltac:(lia)) as (m & e & -> & Hv).
    by rewrite Prim2SF_SF2Prim.
  - destruct (Hround true p ltac:(lia)) as (m & e & -> & Hv).
    by rewrite Prim2SF_SF2Prim.
Qed.

End IntToFloat.

(** ** Four roundings in a row *)

Section TorsoLength.
Local Open Scope Q_scope.

Lemma literal_3_5 :
  positive_normal (Prim2SF 3.5%float) /\ binary64_value 3.5%float == 7 # 2.
Proof.
  split; [|reflexivity].
  exists 7881299347898368%positive, (-51)%Z. by vm_compute.
Qed.

Lemma literal_0_1 :
  positive_normal (Prim2SF 0.1%float) /\
  binary64_value 0.1%float == 3602879701896397 # 36028797018963968.
Proof.
  split; [|reflexivity].
  exists 7205759403792794%positive, (-56)%Z. by vm_compute.
Qed.

(** Four roundings and the rounded literal [0.1]: the arithmetic of the
    bound. *)
Lemma torso_length_bound (a X D f r R : Q) :
  0 < a -> 0 < f ->
  a * (7 # 2) * (1 - (1 # 2 ^ 52)) <= X <= a * (7 # 2) * (1 + (1 # 2 ^ 52)) ->
  X * (3602879701896397 # 36028797018963968) * (1 - (1 # 2 ^ 52)) <= D
    <= X * (3602879701896397 # 36028797018963968) * (1 + (1 # 2 ^ 52)) ->
  R * (1 - (1 # 2 ^ 52)) <= f * D <= R * (1 + (1 # 2 ^ 52)) ->
  (a * f) * (1 - (1 # 2 ^ 52)) <= r <= (a * f) * (1 + (1 # 2 ^ 52)) ->
  (R / (35 # 100)) * (1 - (1 # 2 ^ 49)) <= r <= (R / (35 # 100)) * (1 + (1 # 2 ^ 49)).
Proof.
  change (1 # 2 ^ 52) with (1 # 4503599627370496).
  change (1 # 2 ^ 49) with (1 # 562949953421312).
  intros Ha Hf [HX1 HX2] [HD1 HD2] [HR1 HR2] [Hr1 Hr2].
  assert (R / (35 # 100) == R * (100 # 35)) as -> by (unfold Qdiv; reflexivity).
  set (klo := (7 # 2) * (1 - (1 # 4503599627370496))
              * (3602879701896397 # 36028797018963968)
              * (1 - (1 # 4503599627370496))).
  set (khi := (7 # 2) * (1 + (1 # 4503599627370496))
              * (3602879701896397 # 36028797018963968)
              * (1 + (1 # 4503599627370496))).
  assert (a * klo <= D) as HDlo by (unfold klo; lra).
  assert (D <= a * khi) as HDhi by (unfold khi; lra).
  assert ((a * f) * klo <= f * D) as Hlo.
  { assert (a * f * klo == f * (a * klo)) as -> by ring.
    by apply Qmult_le_l. }
  assert (f * D <= (a * f) * khi) as Hhi.
  { assert (a * f * khi == f * (a * khi)) as -> by ring.
    by apply Qmult_le_l. }
  set (w := a * f) in *. set (z := f * D) in *.
  unfold klo in Hlo. unfold khi in Hhi. clearbody w z. clear HDlo HDhi klo khi.
  split; lra.
Qed.

Lemma pow2_split (a b c : Z) : (a = b + c)%Z -> 2 ^ a == 2 ^ b * 2 ^ c.
Proof. intros ->. apply pow2_add. Qed.

(** The factor times the torso length, before the last rounding. *)
Lemma torso_factor_bound (a X D f R : Q) :
  0 < a -> 0 < f -> 0 < R ->
  a * (7 # 2) * (1 - (1 # 2 ^ 52)) <= X <= a * (7 # 2) * (1 + (1 # 2 ^ 52)) ->
  X * (3602879701896397 # 36028797018963968) * (1 - (1 # 2 ^ 52)) <= D
    <= X * (3602879701896397 # 36028797018963968) * (1 + (1 # 2 ^ 52)) ->
  R * (1 - (1 # 2 ^ 52)) <= f * D <= R * (1 + (1 # 2 ^ 52)) ->
  R * 2 <= a * f <= R * 3.
Proof.
  change (1 # 2 ^ 52) with (1 # 4503599627370496).
  intros Ha Hf HR [HX1 HX2] [HD1 HD2] [HR1 HR2].
  set (klo := (7 # 2) * (1 - (1 # 4503599627370496))
              * (3602879701896397 # 36028797018963968)
              * (1 - (1 # 4503599627370496))).
  set (khi := (7 # 2) * (1 + (1 # 4503599627370496))
              * (3602879701896397 # 36028797018963968)
              * (1 + (1 # 4503599627370496))).
  assert (a * klo <= D) as HDlo by (unfold klo; lra).
  assert (D <= a * khi) as HDhi by (unfold khi; lra).
  assert ((a * f) * klo <= f * D) as Hlo.
  { assert (a * f * klo == f * (a * klo)) as -> by ring.
    by apply Qmult_le_l. }
  assert (f * D <= (a * f) * khi) as Hhi.
  { assert (a * f * khi == f * (a * khi)) as -> by ring.
    by apply Qmult_le_l. }
  set (w := a * f) in *. set (z := f * D) in *.
  unfold klo in Hlo. unfold khi in Hhi. clearbody w z. clear HDlo HDhi klo khi.
  split; lra.
Qed.

(** [t * (ref / (t * 3.5 * 0.1))] in binary64, for a torso length and a
    reference height well inside the range of the normal floats: every
    intermediate result is a positive normal float, and the last one is
    within [2^-49] of [ref / 0.35]. *)
Lemma torso_length_rounded (t ref : float) :
  positive_normal (Prim2SF t) -> positive_normal (Prim2SF ref) ->
  2 ^ (-900) <= binary64_value t <= 2 ^ 900 ->
  2 ^ (-100) <= binary64_value ref <= 2 ^ 100 ->
  positive_normal (Prim2SF (t * 3.5)%float) /\
  positive_normal (Prim2SF (t * 3.5 * 0.1)%float) /\
  positive_normal (Prim2SF (t * (ref / (t * 3.5 * 0.1)))%float) /\
  (binary64_value ref / (35 # 100)) * (1 - (1 # 2 ^ 49))
    <= binary64_value (t * (ref / (t * 3.5 * 0.1)))%float
    <= (binary64_value ref / (35 # 100)) * (1 + (1 # 2 ^ 49)).
Proof.
  intros Ht Href [Ht1 Ht2] [Hr1 Hr2].
  destruct literal_3_5 as [H35 V35]. destruct literal_0_1 as [H01 V01].
  pose proof (positive_normal_value_pos _ Ht) as Ha. fold (binary64_value t) in Ha.
  pose proof (positive_normal_value_pos _ Href) as HR.
  fold (binary64_value ref) in HR.
  set (a := binary64_value t) in *. set (R := binary64_value ref) in *.
  (* the powers of two that bound the intermediate results *)
  pose proof (pow2_pos (-900)) as Hp0.
  pose proof (pow2_le (-1021) (-903) ltac:(lia)) as Hp1.
  pose proof (pow2_split (-903) (-900) (-3) ltac:(lia)) as Hp2.
  pose proof (pow2_lt 902 1023 ltac:(lia)) as Hq1.
  pose proof (pow2_split 902 900 2 ltac:(lia)) as Hq2.
  change (2 ^ (-3)) with (1 # 8) in Hp2. change (2 ^ 2) with 4 in Hq2.
  (* t * 3.5 *)
  destruct (mul_error t 3.5 Ht H35) as [HX [HX1 HX2]].
  { fold a. rewrite V35. apply Qle_trans with (2 ^ (-903)); [exact Hp1|].
    rewrite Hp2. lra. }
  { fold a. rewrite V35. apply Qle_lt_trans with (2 ^ 902); [|exact Hq1].
    rewrite Hq2. lra. }
  fold a in HX1, HX2. rewrite V35 in HX1, HX2.
  set (x := (t * 3.5)%float) in *. set (X := binary64_value x) in *.
  change (1 # 2 ^ 52) with (1 # 4503599627370496) in *.
  (* ... * 0.1 *)
  destruct (mul_error x 0.1 HX H01) as [HD [HD1 HD2]].
  { fold X. rewrite V01. apply Qle_trans with (2 ^ (-903)); [exact Hp1|].
    rewrite Hp2. lra. }
  { fold X. rewrite V01. apply Qle_lt_trans with (2 ^ 902); [|exact Hq1].
    rewrite Hq2. lra. }
  fold X in HD1, HD2. rewrite V01 in HD1, HD2.
  set (d := (x * 0.1)%float) in *. set (D := binary64_value d) in *.
  change (1 # 2 ^ 52) with (1 # 4503599627370496) in *.
  assert (2 ^ (-903) <= D <= 2 ^ 900) as [HDa HDb] by (rewrite Hp2; split; lra).
  (* ref / ... *)
  destruct (div_error ref d Href HD) as [HF [HF1 HF2]].
  { fold D R. apply Qle_trans with (2 ^ (-100)); [|exact Hr1].
    apply Qle_trans with (2 ^ (-1021) * 2 ^ 900);
      [apply Qmult_le_l; [apply pow2_pos | exact HDb]|].
    rewrite <- pow2_add. apply pow2_le. lia. }
  { fold D R. apply Qle_lt_trans with (2 ^ 100); [exact Hr2|].
    apply Qlt_le_trans with (2 ^ 1022 * 2 ^ (-903));
      [|apply Qmult_le_l; [apply pow2_pos | exact HDa]].
    rewrite <- pow2_add. apply pow2_lt. lia. }
  fold D R in HF1, HF2.
  set (q := (ref / d)%float) in *. set (f := binary64_value q) in *.
  change (1 # 2 ^ 52) with (1 # 4503599627370496) in *.
  pose proof (positive_normal_value_pos _ HF) as Hf. fold (binary64_value q) in Hf.
  fold f in Hf.
  destruct (torso_factor_bound a X D f R Ha Hf HR) as [Hw1 Hw2]; [done..|].
  (* t * ... *)
  destruct (mul_error t q Ht HF) as [HY [HY1 HY2]].
  { fold a f. apply Qle_trans with (2 ^ (-100) * 2); [|lra].
    apply Qle_trans with (2 ^ (-100)); [apply pow2_le; lia|].
    pose proof (pow2_pos (-100)). lra. }
  { fold a f. apply Qle_lt_trans with (2 ^ 100 * 3); [lra|].
    apply Qlt_le_trans with (2 ^ 100 * 2 ^ 2);
      [change (2 ^ 2) with 4; pose proof (pow2_pos 100); lra|].
    rewrite <- pow2_add. apply pow2_le. lia. }
  fold a f in HY1, HY2.
  split; [exact HX|]. split; [exact HD|]. split; [exact HY|].
  by apply (torso_length_bound a X D f _ R).
Qed.

End TorsoLength.

(** * Facts about the estimator, for any arithmetic *)

Section EstimatorFacts.
Context {F : Type} `{PyFloat F}.
Implicit Types (m n : gmap string (pyval F)) (v : pyval F) (x : F).

Lemma bind_Return {A B} (c : exc A) (k : A -> exc B) b :
  c ≫= k = Return b <-> exists a, c = Return a /\ k a = Return b.
Proof.
  destruct c as [a|e]; cbn.
  - split; [eauto | by intros (? & [= <-] & ?)].
  - split; [done | by intros (? & ? & ?)].
Qed.

(** *** The normalisation loop *)

(** The loop either stores under every key the scaled value, or raises what
    scaling one of the values raised. *)
Lemma normalize_loop_inv factor m :
  match normalize_loop factor m with
  | Return n =>
      forall key,
        match m !! key with
        | Some v => exists v', normalized_value factor v = Return v'
                               /\ n !! key = Some v'
        | None => n !! key = None
        end
  | Raise e => exists key v, m !! key = Some v /\ normalized_value factor v = Raise e
  end.
Proof.
  unfold normalize_loop.
  apply (map_fold_weak_ind (fun r m =>
    match r with
    | Return n =>
        forall key,
          match m !! key with
          | Some v => exists v', normalized_value factor v = Return v'
                                 /\ n !! key = Some v'
          | None => n !! key = None
          end
    | Raise e => exists key v, m !! key = Some v /\ normalized_value factor v = Raise e
    end)).
  - intros key. by rewrite !lookup_empty.
  - intros i v m' r Hi IH. destruct r as [n|e]; cbn.
    + destruct (normalized_value factor v) as [v'|e] eqn:Ev; cbn.
      * intros key. destruct (decide (i = key)) as [->|Hne].
        -- rewrite !lookup_insert_eq. eauto.
        -- rewrite !lookup_insert_ne by done. apply IH.
      * exists i, v. by rewrite lookup_insert_eq.
    + destruct IH as (key & v' & Hk & Hv). exists key, v'.
      rewrite lookup_insert_ne; [done|]. intros ->. congruence.
Qed.

Lemma normalize_loop_empty factor : normalize_loop factor ∅ = Return ∅.
Proof. unfold normalize_loop. by rewrite map_fold_empty. Qed.

Lemma normalize_loop_returns factor m :
  (forall key v, m !! key = Some v -> returns (normalized_value factor v)) ->
  returns (normalize_loop factor m).
Proof.
  intros Hall. pose proof (normalize_loop_inv factor m) as Hinv.
  destruct (normalize_loop factor m) as [n|e]; [by exists n|].
  destruct Hinv as (key & v & Hk & Hv).
  destruct (Hall key v Hk) as [v' Hv']. congruence.
Qed.

Lemma normalize_loop_lookup factor m n key v :
  normalize_loop factor m = Return n ->
  m !! key = Some v ->
  exists v', normalized_value factor v = Return v' /\ n !! key = Some v'.
Proof.
  intros Hn Hk. pose proof (normalize_loop_inv factor m) as Hinv.
  rewrite Hn in Hinv. specialize (Hinv key). by rewrite Hk in Hinv.
Qed.

(** *** Feature extraction *)

(** With a shoulder width that multiplies as [sw], the array is made from
    the six provided-or-imputed entries in the order of [feature_names]. *)
Lemma extract_features_imputed m sw :
  as_float (default (VInt 0) (m !! "shoulder_width")) = Return sw ->
  extract_features m =
  Return [np_array
            [default (VFloat (flit 0 1)) (m !! "shoulder_width");
             default (VFloat (sw ⊗ flit 11 10)) (m !! "chest_width");
             default (VFloat (sw ⊗ flit 3 4)) (m !! "waist_width");
             default (VFloat (flit 0 1)) (m !! "hip_width");
             default (VFloat (flit 0 1)) (m !! "torso_length");
             default (VFloat (flit 0 1)) (m !! "arm_length")]].
Proof.
  intros Hsw. unfold extract_features, feature_names, mapM, feature, py_mul.
  rewrite Hsw. cbn [String.eqb Ascii.eqb Bool.eqb mbind exc_bind].
  destruct (m !! "shoulder_width"), (m !! "chest_width"), (m !! "waist_width"),
    (m !! "hip_width"), (m !! "torso_length"), (m !! "arm_length"); reflexivity.
Qed.

(** When chest and waist width are given, nothing is imputed from the
    shoulder width, whatever it is. *)
Lemma extract_features_provided m chest waist :
  m !! "chest_width" = Some chest ->
  m !! "waist_width" = Some waist ->
  extract_features m =
  Return [np_array
            [default (VFloat (flit 0 1)) (m !! "shoulder_width");
             chest; waist;
             default (VFloat (flit 0 1)) (m !! "hip_width");
             default (VFloat (flit 0 1)) (m !! "torso_length");
             default (VFloat (flit 0 1)) (m !! "arm_length")]].
Proof.
  intros Hc Hw. unfold extract_features, feature_names, mapM, feature.
  rewrite Hc, Hw. cbn [String.eqb Ascii.eqb Bool.eqb mbind exc_bind].
  destruct (m !! "shoulder_width"), (m !! "hip_width"), (m !! "torso_length"),
    (m !! "arm_length"); reflexivity.
Qed.

Lemma np_array_length (l : list (pyval F)) : length (np_array l) = length l.
Proof. unfold np_array. by rewrite length_fmap. Qed.



(** *** The rule-based path *)

Lemma py_lt_int_number v k :
  isinstance_int_float v = true -> returns (py_lt_int v k).
Proof. unfold returns. destruct v; cbn; try done; intros _; by eexists. Qed.

Lemma rule_size_number v :
  isinstance_int_float v = true -> returns (rule_size v).
Proof.
  intros Hv. unfold rule_size, returns.
  destruct (py_lt_int_number v 35 Hv) as [[] ->]; cbn [mbind exc_bind]; [by eexists|].
  destruct (py_lt_int_number v 40 Hv) as [[] ->]; cbn [mbind exc_bind]; [by eexists|].
  destruct (py_lt_int_number v 45 Hv) as [[] ->]; cbn [mbind exc_bind]; [by eexists|].
  destruct (py_lt_int_number v 50 Hv) as [[] ->]; cbn [mbind exc_bind]; [by eexists|].
  destruct (py_lt_int_number v 55 Hv) as [[] ->]; cbn [mbind exc_bind]; by eexists.
Qed.

Lemma rule_size_not_number v :
  isinstance_int_float v = false -> rule_size v = Raise TypeError.
Proof. by destruct v. Qed.

Lemma rule_based_prediction_Return m r :
  _rule_based_prediction m = Return r ->
  exists size,
    rule_size (default (VInt 0) (m !! "shoulder_width")) = Return size /\
    r !! "predicted_size" = Some (OStr size) /\
    r !! "confidence" = Some (OFloat (flit 1 2)) /\
    r !! "method" = Some (OStr "rule_based") /\
    r !! "measurements_used" = Some (ODict m) /\
    r !! "all_probabilities" = None.
Proof.
  unfold _rule_based_prediction. intros (size & Hs & [= <-])%bind_Return.
  exists size. by repeat split.
Qed.

Lemma rule_based_prediction_number m :
  isinstance_int_float (default (VInt 0) (m !! "shoulder_width")) = true ->
  returns (_rule_based_prediction m).
Proof.
  intros [size Hs]%rule_size_number. unfold _rule_based_prediction, returns.
  rewrite Hs. by eexists.
Qed.

Lemma rule_based_prediction_not_number m :
  isinstance_int_float (default (VInt 0) (m !! "shoulder_width")) = false ->
  _rule_based_prediction m = Raise TypeError.
Proof.
  intros Hsw. unfold _rule_based_prediction.
  by rewrite rule_size_not_number.
Qed.

(** *** [predict_size] *)

Lemma predict_size_None self m thr :
  model self = None ->
  predict_size self m thr = ([warning_no_model], _rule_based_prediction m).
Proof. unfold predict_size. by intros ->. Qed.

Lemma predict_size_Raise self clf m thr e :
  model self = Some clf ->
  try_block clf (scaler self) m thr = Raise e ->
  predict_size self m thr = ([error_in_prediction e], _rule_based_prediction m).
Proof. unfold predict_size. by intros -> ->. Qed.

Lemma predict_size_Return self clf m thr log r :
  model self = Some clf ->
  try_block clf (scaler self) m thr = Return (log, r) ->
  predict_size self m thr = (log, Return r).
Proof. unfold predict_size. by intros -> ->. Qed.

Lemma infer_always_raises clf features :
  always_raises clf -> exists e, infer clf features = Raise e.
Proof.
  intros Hr. specialize (Hr features).
  destruct clf; destruct Hr as [e He]; exists e; cbn; by rewrite He.
Qed.

Lemma try_block_always_raises clf sc m thr :
  always_raises clf -> exists e, try_block clf sc m thr = Raise e.
Proof.
  intros Hr. unfold try_block.
  destruct (normalize_measurements m (flit 170 1)) as [nm|e]; [|by exists e].
  cbn [mbind exc_bind].
  destruct (extract_features nm) as [a|e]; [|by exists e].
  cbn [mbind exc_bind].
  destruct (match sc with Some transform => transform a | None => Return a end)
    as [a'|e]; [|by exists e].
  cbn [mbind exc_bind].
  destruct (infer_always_raises clf a' Hr) as [e ->]. by exists e.
Qed.

Lemma infer_inference_raises clf features :
  inference_raises clf features -> exists e, infer clf features = Raise e.
Proof.
  intros Hr. destruct clf; destruct Hr as [e He]; exists e; cbn; by rewrite He.
Qed.

(** When the inference raises in this call, so does the [try] block. *)
Lemma try_block_inference_raises self clf m thr :
  inference_raises_in self clf m ->
  exists e, try_block clf (scaler self) m thr = Raise e.
Proof.
  intros Hr. unfold try_block. unfold inference_raises_in in Hr.
  destruct (normalize_measurements m (flit 170 1)) as [nm|e]; [|by exists e].
  cbn [mbind exc_bind].
  destruct (extract_features nm) as [a|e] eqn:Ha; [|by exists e].
  cbn [mbind exc_bind].
  destruct (match scaler self with Some transform => transform a | None => Return a end)
    as [a'|e] eqn:Hsc; [|by exists e].
  cbn [mbind exc_bind].
  destruct (infer_inference_raises clf a' (Hr nm a a' eq_refl Ha Hsc)) as [e ->].
  by exists e.
Qed.

(** The threshold only selects the log. *)
Lemma try_block_threshold clf sc m thr thr' :
  snd <$> try_block clf sc m thr = snd <$> try_block clf sc m thr'.
Proof.
  unfold try_block.
  destruct (normalize_measurements m (flit 170 1)) as [nm|e]; [|done].
  cbn [mbind exc_bind].
  destruct (extract_features nm) as [a|e]; [|done].
  cbn [mbind exc_bind].
  destruct (match sc with Some transform => transform a | None => Return a end)
    as [a'|e]; [|done].
  cbn [mbind exc_bind].
  destruct (infer clf a') as [[[c conf] probs]|e]; [|done].
  cbn [mbind exc_bind].
  destruct (size_mapping_getitem c) as [size|e]; done.
Qed.

Lemma predict_size_threshold self m thr thr' :
  snd (predict_size self m thr) = snd (predict_size self m thr').
Proof.
  unfold predict_size. destruct (model self) as [clf|]; [|done].
  pose proof (try_block_threshold clf (scaler self) m thr thr') as Ht.
  destruct (try_block clf (scaler self) m thr) as [[log r]|e],
           (try_block clf (scaler self) m thr') as [[log' r']|e'];
    cbn in Ht |- *; congruence.
Qed.

End EstimatorFacts.

(** ** The dtype of an array, for any arithmetic *)

Section ArrayFacts.
Context {F : Type} `{PyFloat F}.
Implicit Types (a b c : dtype) (l : list (pyval F)) (v : pyval F).

Lemma can_cast_promote_l a b : can_cast a (promote_types a b).
Proof. by destruct a, b. Qed.

Lemma can_cast_promote_r a b : can_cast b (promote_types a b).
Proof. by destruct a, b. Qed.

Lemma can_cast_trans a b c : can_cast a b -> can_cast b c -> can_cast a c.
Proof. unfold can_cast. by destruct a, b, c. Qed.

Lemma promote_types_cases a b :
  promote_types a b = a \/ promote_types a b = b \/ promote_types a b = float64.
Proof. destruct a, b; cbn; auto. Qed.

Lemma foldl_promote_types_upper a (ds : list dtype) :
  can_cast a (foldl promote_types a ds) /\
  forall d, d ∈ ds -> can_cast d (foldl promote_types a ds).
Proof.
  revert a. induction ds as [|x ds IH]; intros a; cbn [foldl].
  - split; [by destruct a|]. by intros d Hd%elem_of_nil.
  - destruct (IH (promote_types a x)) as [Ha Hds]. split.
    + eapply can_cast_trans; [apply can_cast_promote_l | exact Ha].
    + intros d [->|Hd]%elem_of_cons; [|by apply Hds].
      eapply can_cast_trans; [apply can_cast_promote_r | exact Ha].
Qed.

Lemma foldl_promote_types_cases a (ds : list dtype) :
  foldl promote_types a ds = a \/ foldl promote_types a ds ∈ ds \/
  foldl promote_types a ds = float64.
Proof.
  revert a. induction ds as [|x ds IH]; intros a; cbn [foldl]; [by left|].
  destruct (IH (promote_types a x)) as [Hr|[Hr|Hr]].
  - rewrite Hr. destruct (promote_types_cases a x) as [-> | [-> | ->] ]; auto.
    right; left. by left.
  - right; left. by right.
  - by right; right.
Qed.

(** Every element can be cast to the common dtype. *)
Lemma result_type_upper l v : v ∈ l -> can_cast (dtype_of v) (result_type l).
Proof.
  intros Hv. destruct l as [|w l]; [by apply elem_of_nil in Hv|].
  unfold result_type.
  apply (foldl_promote_types_upper bool_ (dtype_of <$> w :: l)).
  by apply list_elem_of_fmap_2.
Qed.

(** The common dtype is the dtype of an element, or [float64], or [bool]. *)
Lemma result_type_cases l :
  result_type l = bool_ \/ result_type l = float64 \/
  exists v, v ∈ l /\ dtype_of v = result_type l.
Proof.
  destruct l as [|w l]; [by right; left|]. unfold result_type.
  destruct (foldl_promote_types_cases bool_ (dtype_of <$> w :: l)) as [Hr|[Hr|Hr]];
    [by left | | by right; left].
  right; right. apply list_elem_of_fmap in Hr as (v & Hv & Hin). by exists v.
Qed.







End ArrayFacts.

(** ** The model path, for any arithmetic *)

Section ModelPath.
Context {F : Type} `{PyFloat F}.
Implicit Types (m : gmap string (pyval F)) (thr conf : F).

(** What a completed [try] block went through. *)
Lemma try_block_Return clf sc m thr log r :
  try_block clf sc m thr = Return (log, r) ->
  exists nm a a' c conf ap size,
    normalize_measurements m (flit 170 1) = Return nm /\
    extract_features nm = Return a /\
    match sc with Some transform => transform a | None => Return a end = Return a' /\
    infer clf a' = Return (c, conf, ap) /\
    size_mapping_getitem c = Return size /\
    log = (if conf <.? thr then [warning_low_confidence conf] else []) /\
    r = <["predicted_size" := OStr size]>
        (<["confidence" := OFloat conf]>
        (<["all_probabilities" := ap]>
        (<["measurements_used" := ODict nm]> ∅))).
Proof.
  unfold try_block.
  intros (nm & Hnm & (a & Ha & (a' & Ha' & Hrest)%bind_Return)%bind_Return)%bind_Return.
  apply bind_Return in Hrest as ([[c conf] ap] & Hi & Hrest).
  apply bind_Return in Hrest as (size & Hs & [= <- <-]).
  by exists nm, a, a', c, conf, ap, size.
Qed.

Lemma infer_WithProba predict_proba a c conf ap :
  infer (WithProba predict_proba) a = Return (c, conf, ap) ->
  exists rows probabilities i,
    predict_proba a = Return rows /\
    first rows = Return probabilities /\
    np_argmax probabilities = Return i /\
    probabilities !! i = Some conf /\
    c = VInt (Z.of_nat i) /\
    ap = OList probabilities.
Proof.
  cbn [infer].
  intros (rows & Hr & (probs & Hp & (i & Hi & Hrest)%bind_Return)%bind_Return)%bind_Return.
  destruct (probs !! i) as [conf'|] eqn:Hc; [|done].
  injection Hrest as <- <- <-. by exists rows, probs, i.
Qed.

Lemma infer_HardLabel predict a c conf ap :
  infer (HardLabel predict) a = Return (c, conf, ap) ->
  conf = flit 1 1 /\ ap = ONone /\
  exists labels, predict a = Return labels /\ first labels = Return c.
Proof.
  cbn [infer].
  intros (labels & Hl & (c' & Hc & [= <- <- <-])%bind_Return)%bind_Return.
  eauto.
Qed.

(** A size found in [size_mapping] is one of its six labels. *)
Lemma size_mapping_getitem_Return c size :
  size_mapping_getitem c = Return size ->
  exists k : Z, size_mapping !! k = Some size.
Proof.
  unfold size_mapping_getitem.
  match goal with |- match ?found with _ => _ end = _ -> _ =>
    destruct found as [size'|] eqn:Hf; [|done] end.
  intros [= <-]. destruct c as [|b|z|x|s]; try done; eauto.
  destruct (List.find _ _) as [k|]; [|done]. eauto.
Qed.

Lemma size_mapping_getitem_int (z : Z) size :
  size_mapping_getitem (VInt z) = Return size -> size_mapping !! z = Some size.
Proof.
  unfold size_mapping_getitem. destruct (size_mapping !! z); [|done].
  by intros [= <-].
Qed.

(** The labels of the rule are labels of [size_mapping]. *)
Lemma rule_size_label v size :
  rule_size v = Return size -> exists k : Z, size_mapping !! k = Some size.
Proof.
  unfold rule_size.
  intros ([] & _ & Hr)%bind_Return; [injection Hr as <-; by exists 0|].
  apply bind_Return in Hr as ([] & _ & Hr); [injection Hr as <-; by exists 1|].
  apply bind_Return in Hr as ([] & _ & Hr); [injection Hr as <-; by exists 2|].
  apply bind_Return in Hr as ([] & _ & Hr); [injection Hr as <-; by exists 3|].
  apply bind_Return in Hr as ([] & _ & Hr); [injection Hr as <-; by exists 4|].
  injection Hr as <-; by exists 5.
Qed.

End ModelPath.

(** * The estimator in binary64: the claims *)

(** ** The literals of the source *)

(** [flit] yields the values Python reads for the module's literals. *)
Lemma flit_literals :
  (flit 7 2 = 3.5 /\ flit 1 10 = 0.1 /\ flit 11 10 = 1.1 /\ flit 3 4 = 0.75 /\
   flit 1 2 = 0.5 /\ flit 1 1 = 1 /\ flit 0 1 = 0 /\ flit 170 1 = 170 /\
   flit 7 10 = 0.7)%float.
Proof. repeat split; reflexivity. Qed.

(** ** The arg-max of a float array *)

(** [argmax_from] keeps the index of a largest element seen so far. *)
Lemma argmax_from_max (l pre : list float) (mp : float) (k : nat) :
  Forall not_nan (mp :: l) ->
  pre !! k = Some mp ->
  Forall (fun p => (p <=? mp)%float = true) pre ->
  exists c,
    (pre ++ l) !! argmax_from mp k (length pre) l = Some c /\
    Forall (fun p => (p <=? c)%float = true) (pre ++ l).
Proof.
  revert pre mp k. induction l as [|x l IH]; intros pre mp k Hnan Hk Hmax.
  - exists mp. rewrite app_nil_r. done.
  - apply Forall_cons in Hnan as [Hmp Hnan]. pose proof Hnan as Hxl.
    apply Forall_cons in Hnan as [Hx Hl].
    cbn [argmax_from fis_nan fleb binary64]. rewrite Hmp.
    replace (pre ++ x :: l) with ((pre ++ [x]) ++ l) by by rewrite <- app_assoc.
    replace (S (length pre)) with (length (pre ++ [x]))
      by (rewrite length_app; cbn; lia).
    destruct (x <=? mp)%float eqn:Hle.
    + apply IH.
      * by apply Forall_cons.
      * by apply lookup_app_l_Some.
      * apply Forall_app. split; [done|]. by apply Forall_singleton.
    + apply IH.
      * done.
      * by rewrite lookup_app_r, Nat.sub_diag.
      * assert ((mp <=? x)%float = true) as Hmx
          by (apply leb_total; [exact Hx | exact Hmp | exact Hle]).
        apply Forall_app. split.
        -- eapply Forall_impl; [exact Hmax|]. intros p Hp.
           exact (leb_trans p mp x Hp Hmx).
        -- apply Forall_singleton. apply leb_refl. exact Hx.
Qed.

Lemma np_argmax_max (probabilities : list float) (i : nat) :
  np_argmax probabilities = Return i ->
  Forall not_nan probabilities ->
  exists c,
    probabilities !! i = Some c /\
    Forall (fun p => (p <=? c)%float = true) probabilities.
Proof.
  destruct probabilities as [|x l]; [done|]. cbn [np_argmax].
  intros [= <-] Hnan.
  apply (argmax_from_max l [x] x 0); [done | done |].
  apply Forall_singleton, leb_refl. apply Forall_cons in Hnan as [Hx _]. exact Hx.
Qed.

(** ** C1: the classifier raises *)

(** C1, counterexample.  The classifier raises, the handler calls the
    rule-based path, and that path raises [TypeError] on a shoulder width
    that is [None]: the caller of [predict_size] observes the exception. *)
Lemma predict_size_fallback_raises :
  always_raises broken_classifier /\
  predict_size broken_estimator shoulder_none default_threshold
  = ([error_in_prediction (LibraryError "inference failed")], Raise TypeError).
Proof. split; [intros features; by eexists | reflexivity]. Qed.

(** A classifier that raises on some arrays only: when the second feature,
    the chest width, is not above zero. *)
Lemma predict_size_picky_classifier :
  predict_size picky_estimator shoulder_none default_threshold
  = ([warning_low_confidence 0.5%float], Return picky_result) /\
  picky_result !! "method" = None /\
  predict_size picky_estimator chest_zero default_threshold
  = ([error_in_prediction (LibraryError "chest width must be positive")],
     _rule_based_prediction chest_zero).
Proof. repeat split; vm_compute; reflexivity. Qed.

(** C1, as amended.  For every mapping and every loaded classifier whose
    inference raises in this call (on the array that reaches it; on other
    arrays it may do anything), [predict_size] catches the exception, logs
    it, and yields exactly what the rule-based prediction yields for the
    same measurements.  When the shoulder width is absent or an int, float
    or bool, that is a result tagged ["rule_based"], and no exception
    reaches the caller; when it is present and not a number, the rule-based
    path raises [TypeError] and [predict_size] lets it through. *)
Theorem predict_size_inference_raises self clf (m : measurements) (thr : float) :
  model self = Some clf ->
  inference_raises_in self clf m ->
  (exists e, predict_size self m thr
             = ([error_in_prediction e], _rule_based_prediction m)) /\
  (isinstance_int_float (shoulder_width_of m) = true ->
   exists r, snd (predict_size self m thr) = Return r /\
             _rule_based_prediction m = Return r /\
             r !! "method" = Some (OStr "rule_based")) /\
  (isinstance_int_float (shoulder_width_of m) = false ->
   snd (predict_size self m thr) = Raise TypeError).
Proof.
  intros Hmodel Hraises.
  destruct (try_block_inference_raises self clf m thr Hraises) as [e He].
  rewrite (predict_size_Raise self clf m thr e) by done.
  split; [by exists e|]. split.
  - intros [r Hr]%rule_based_prediction_number. exists r. cbn [snd].
    split; [done|]. split; [done|].
    by apply rule_based_prediction_Return in Hr as (size & _ & _ & _ & Hm & _).
  - intros Hsw. cbn [snd]. by apply rule_based_prediction_not_number.
Qed.

Lemma predict_size_inference_raises_witness :
  (exists e, predict_size picky_estimator chest_zero default_threshold
             = ([error_in_prediction e], _rule_based_prediction chest_zero)) /\
  (isinstance_int_float (shoulder_width_of chest_zero) = true ->
   exists r, snd (predict_size picky_estimator chest_zero default_threshold)
             = Return r /\
             _rule_based_prediction chest_zero = Return r /\
             r !! "method" = Some (OStr "rule_based")) /\
  (isinstance_int_float (shoulder_width_of chest_zero) = false ->
   snd (predict_size picky_estimator chest_zero default_threshold)
   = Raise TypeError).
Proof.
  apply (predict_size_inference_raises picky_estimator picky_classifier
           chest_zero default_threshold).
  - reflexivity.
  - intros normalized features scaled Hn Hf Hs.
    vm_compute in Hn. injection Hn as <-.
    vm_compute in Hf. injection Hf as <-.
    cbn in Hs. injection Hs as <-.
    exists (LibraryError "chest width must be positive"). reflexivity.
Defined.

(** ** C2: the scale factor *)

(** C2, counterexample.  With [torso_length] absent the proxy height is
    [100 * 3.5] and the factor [170 / 35]: a shoulder width of [42.0] is
    returned as [203.99999999999997], not unchanged. *)
Lemma normalize_measurements_absent_torso_scales :
  shoulder_only !! "torso_length" = None /\
  normalize_measurements shoulder_only 170%float
  = Return {[ "shoulder_width" := VFloat 203.99999999999997%float ]} /\
  (203.99999999999997 =? 42)%float = false.
Proof. repeat split; vm_compute; reflexivity. Qed.

Lemma estimated_height_px_absent (m : measurements) :
  m !! "torso_length" = None -> estimated_height_px m = Return 350%float.
Proof. unfold estimated_height_px. by intros ->. Qed.

Lemma estimated_height_px_present (m : measurements) v t :
  m !! "torso_length" = Some v -> as_float v = Return t ->
  estimated_height_px m = Return (t * 3.5)%float.
Proof.
  unfold estimated_height_px, py_mul. intros -> Hv. cbn [default from_option id].
  by rewrite Hv.
Qed.

Lemma height_factor_350 (ref : float) :
  height_factor ref 350%float = Return (ref / 35)%float.
Proof. reflexivity. Qed.

Lemma height_factor_not_positive (ref px : float) :
  (0 <? px)%float = false -> height_factor ref px = Return 1%float.
Proof.
  intros Hpx. unfold height_factor.
  change (f_of_Z 0 <.? px) with (0 <? px)%float. by rewrite Hpx.
Qed.

Lemma normalize_loop_no_int_overflow (factor : float) (m : measurements) :
  no_int_overflow m -> returns (normalize_loop factor m).
Proof.
  intros Hm. apply normalize_loop_returns. intros key v Hk.
  unfold normalized_value. destruct (isinstance_int_float v) eqn:Hv.
  - destruct (Hm key v Hk Hv) as [x Hx]. unfold py_mul. rewrite Hx. by eexists.
  - by eexists.
Qed.

Lemma normalized_value_1 v v' :
  normalized_value 1%float v = Return v' -> v' = scaled_by_one v.
Proof.
  destruct v as [|b|z|x|s]; cbn; try (by intros [= <-]).
  - unfold float_of_int. destruct (fis_finite _); cbn; [|done].
    rewrite mul_1_r. by intros [= <-].
  - unfold float_of_int. destruct (fis_finite _); cbn; [|done].
    rewrite mul_1_r. by intros [= <-].
  - rewrite mul_1_r. by intros [= <-].
Qed.

(** C2, as amended.  [normalize_measurements] estimates the proxy pixel
    height as [torso_length * 3.5], reading [torso_length] as [100] when the
    key is absent: with [torso_length] absent every float is scaled by
    [reference_height / 35].  When [torso_length] is present and not above
    zero the factor is [1.0]: every float is returned unchanged, every int
    as the float nearest to it, every other value untouched.  An empty
    mapping gives an empty mapping.  (Each part that returns a mapping
    supposes that every int in it fits in a float.) *)
Theorem normalize_measurements_scale_factor :
  (forall ref : float,
      normalize_measurements (∅ : measurements) ref = Return ∅) /\
  (forall (m : measurements) (ref : float),
      m !! "torso_length" = None ->
      no_int_overflow m ->
      estimated_height_px m = Return (100 * 3.5)%float /\
      exists n,
        normalize_measurements m ref = Return n /\
        forall key x, m !! key = Some (VFloat x) ->
                      n !! key = Some (VFloat (x * (ref / 35))%float)) /\
  (forall (m : measurements) v (t ref : float),
      m !! "torso_length" = Some v ->
      as_float v = Return t ->
      (0 <? t)%float = false ->
      no_int_overflow m ->
      estimated_height_px m = Return (t * 3.5)%float /\
      exists n,
        normalize_measurements m ref = Return n /\
        forall key w, m !! key = Some w -> n !! key = Some (scaled_by_one w)).
Proof.
  split; [|split].
  - intros ref. unfold normalize_measurements.
    rewrite estimated_height_px_absent by apply lookup_empty.
    cbn [mbind exc_bind]. rewrite height_factor_350.
    cbn [mbind exc_bind]. apply normalize_loop_empty.
  - intros m ref Hk Hm. split; [by apply estimated_height_px_absent|].
    unfold normalize_measurements.
    rewrite estimated_height_px_absent by done.
    cbn [mbind exc_bind]. rewrite height_factor_350. cbn [mbind exc_bind].
    destruct (normalize_loop_no_int_overflow (ref / 35)%float m Hm) as [n Hn].
    exists n. split; [done|]. intros key x Hx.
    by destruct (normalize_loop_lookup _ _ _ _ _ Hn Hx) as (v' & [= <-] & Hv').
  - intros m v t ref Hk Ht Hle Hm.
    split; [by eapply estimated_height_px_present|].
    unfold normalize_measurements.
    rewrite (estimated_height_px_present m v t) by done.
    cbn [mbind exc_bind].
    rewrite height_factor_not_positive
      by (eapply mul_pos_not_gt_0; [reflexivity | done]).
    cbn [mbind exc_bind].
    destruct (normalize_loop_no_int_overflow 1%float m Hm) as [n Hn].
    exists n. split; [done|]. intros key w Hw.
    destruct (normalize_loop_lookup _ _ _ _ _ Hn Hw) as (v' & Hv' & ->).
    by rewrite (normalized_value_1 w v').
Qed.

Lemma no_int_overflow_torso_zero : no_int_overflow torso_zero.
Proof.
  intros key v Hk _. unfold torso_zero in Hk.
  apply elem_of_list_to_map_2 in Hk.
  unfold returns.
  repeat (apply elem_of_cons in Hk as [[= -> ->]|Hk]; [eexists; reflexivity|]).
  by apply elem_of_nil in Hk.
Qed.

Lemma normalize_measurements_scale_factor_witness :
  normalize_measurements (∅ : measurements) 170%float = Return ∅ /\
  (exists n,
      normalize_measurements shoulder_only 170%float = Return n /\
      forall key x, shoulder_only !! key = Some (VFloat x) ->
                    n !! key = Some (VFloat (x * (170 / 35))%float)) /\
  (exists n,
      normalize_measurements torso_zero 170%float = Return n /\
      forall key w, torso_zero !! key = Some w -> n !! key = Some (scaled_by_one w)).
Proof.
  destruct normalize_measurements_scale_factor as (Hempty & Habsent & Hzero).
  split; [apply Hempty|]. split.
  - apply (fun H1 H2 => proj2 (Habsent shoulder_only 170%float H1 H2)); [reflexivity|].
    intros key v Hk _. unfold shoulder_only in Hk.
    apply lookup_singleton_Some in Hk as [_ <-]. eexists; reflexivity.
  - apply (fun H1 H2 H3 H4 => proj2 (Hzero torso_zero (VInt 0) 0%float 170%float H1 H2 H3 H4));
      [reflexivity | reflexivity | reflexivity | apply no_int_overflow_torso_zero].
Defined.

(** ** The feature array in binary64 *)

Section FeatureArray.
Implicit Types (m : measurements) (v : pyval float) (l : list (pyval float)).

Lemma float_value_as_float v sw :
  float_value v = Some sw -> binary64_is_finite sw = true ->
  as_float v = Return sw.
Proof.
  destruct v as [|b|z|x|s]; cbn [float_value as_float]; try done.
  - intros [= <-] Hf. unfold float_of_int. cbn [f_of_Z fis_finite binary64].
    by rewrite Hf.
  - intros [= <-] Hf. unfold float_of_int. cbn [f_of_Z fis_finite binary64].
    by rewrite Hf.
  - by intros [= <-].
Qed.

(** The array is [np.array] of the six entries of the claim. *)
Lemma extract_features_np_array m sw :
  (m !! "chest_width" = None \/ m !! "waist_width" = None ->
   float_value (shoulder_width_of m) = Some sw /\ binary64_is_finite sw = true) ->
  extract_features m = Return [np_array (provided_or_imputed m sw)].
Proof.
  intros Hsw. unfold provided_or_imputed.
  destruct (m !! "chest_width") as [chest|] eqn:Hc.
  - destruct (m !! "waist_width") as [waist|] eqn:Hw.
    + rewrite (extract_features_provided m chest waist Hc Hw). reflexivity.
    + destruct Hsw as [Hv Hf]; [by right|].
      rewrite (extract_features_imputed m sw) by by apply float_value_as_float.
      by rewrite Hc, Hw.
  - destruct Hsw as [Hv Hf]; [by left|].
    rewrite (extract_features_imputed m sw) by by apply float_value_as_float.
    by rewrite Hc.
Qed.










(** Casting a finite number to the common dtype of numbers gives a finite
    number: the number itself, or the int of a bool, or the float nearest
    to an int. *)
Lemma astype_finite_number (dt : dtype) v :
  finite_number v = true -> can_cast (dtype_of v) dt -> dt <> str_ ->
  finite_number (astype dt v) = true /\
  (forall x, v = VFloat x -> astype dt v = VFloat x) /\
  (forall z, int_value v = Some z ->
             astype dt v = v \/ astype dt v = VInt z \/
             astype dt v = VFloat (Z_to_binary64 z)).
Proof.
  intros Hv Hc Hdt. unfold can_cast in Hc.
  destruct v as [|b|z|x|s]; try done.
  - (* a bool *)
    destruct dt; try done; cbn [astype int_value].
    + split; [done|]. split; [done|]. intros z [= <-]. by left.
    + split; [done|]. split; [done|]. intros z [= <-]. right. by left.
    + split; [done|]. split; [done|]. intros z [= <-]. right. by left.
    + split; [destruct b; by vm_compute|]. split; [done|]. intros z [= <-].
      right. by right.
    + split; [done|]. split; [done|]. intros z [= <-]. by left.
  - (* an int *)
    destruct dt; try done; cbn [astype int_value];
      try (split; [done|]; split; [done|]; intros ? [= <-]; by left).
    split; [|split; [done|]; intros ? [= <-]; right; by right].
    cbn [finite_number f_of_Z binary64]. apply Z_to_binary64_finite.
    cbn [dtype_of] in Hc.
    destruct (- 2 ^ 63 <=? z) eqn:H1; cbn [andb] in Hc.
    + destruct (z <? 2 ^ 63) eqn:H2.
      * apply Z.leb_le in H1. apply Z.ltb_lt in H2.
        assert (2 ^ 63 < 2 ^ 1023) by (apply Z.pow_lt_mono_r; lia). lia.
      * destruct (0 <=? z) eqn:H3; [|done]. cbn [andb] in Hc.
        destruct (z <? 2 ^ 64) eqn:H4; [|done].
        apply Z.leb_le in H3. apply Z.ltb_lt in H4.
        assert (2 ^ 64 < 2 ^ 1023) by (apply Z.pow_lt_mono_r; lia). lia.
    + destruct (0 <=? z) eqn:H3; [|done]. cbn [andb] in Hc.
      destruct (z <? 2 ^ 64) eqn:H4; [|done].
      apply Z.leb_le in H3. apply Z.ltb_lt in H4.
      assert (2 ^ 64 < 2 ^ 1023) by (apply Z.pow_lt_mono_r; lia). lia.
  - (* a float *)
    destruct dt; try done; cbn [astype int_value]; by repeat split.
Qed.

(** The common dtype of finite numbers is no string dtype. *)
Lemma result_type_finite_numbers l :
  Forall (fun v => finite_number v = true) l -> result_type l <> str_.
Proof.
  intros Hall Hr. destruct (result_type_cases l) as [Hb|[Hf|(v & Hv & Hd)]];
    [congruence..|].
  rewrite Forall_forall in Hall. specialize (Hall v Hv).
  rewrite Hr in Hd. destruct v as [|b|z|x|s]; try done.
  cbn [dtype_of] in Hd. by repeat case_match.
Qed.

End FeatureArray.

Lemma SF_below_finite k s : SF_below k s -> SF_is_finite s = true.
Proof. by destruct s. Qed.

(** ** C3: what the feature vector holds *)

(** C3, counterexample.  A hip width that is text is not replaced by a
    number: NumPy casts all six entries to strings, so that the array
    holds no number at all. *)
Lemma extract_features_keeps_non_numeric :
  extract_features hip_not_a_number
  = Return [[VStr "42.0"; VStr "46.2"; VStr "31.5";
             VStr "n/a"; VStr "0.0"; VStr "0.0"]] /\
  forallb (fun v => negb (finite_number v))
    [VStr "42.0"; VStr "46.2"; VStr "31.5"; VStr "n/a"; VStr "0.0"; VStr "0.0"]
  = true.
Proof. split; vm_compute; reflexivity. Qed.

(** A hip width that is [None] stays [None], in an array of Python
    objects. *)
Lemma extract_features_keeps_none :
  extract_features hip_none
  = Return [[VFloat 42%float; VFloat 46.2%float; VFloat 31.5%float;
             VNone; VFloat 0%float; VFloat 0%float]].
Proof. vm_compute. reflexivity. Qed.

(** Nor is a NaN replaced, and a shoulder width that is not a number makes
    the imputation itself raise. *)
Lemma extract_features_keeps_nan :
  extract_features (shoulder (VFloat nan))
  = Return [[VFloat nan; VFloat nan; VFloat nan;
             VFloat 0%float; VFloat 0%float; VFloat 0%float]].
Proof. vm_compute. reflexivity. Qed.

Lemma extract_features_raises :
  extract_features (shoulder (VStr "wide")) = Raise TypeError.
Proof. reflexivity. Qed.

(** C3, as amended.  For every mapping in which each of the six
    measurements that is present is a finite number (an int, a bool, or a
    float that is neither an infinity nor NaN), and whose shoulder width,
    taken as [0] when absent, has a float value [sw] below [2^1022] in
    magnitude, [extract_features] returns one row of exactly six finite
    numbers in the order of the feature names.  A missing measurement is
    replaced by its default; a present float is passed through as it is; a
    present int or bool is kept, or becomes the int of the bool, or the
    float nearest to it, as the common dtype of the array requires. *)
Theorem extract_features_finite (m : measurements) (sw : float) :
  float_value (shoulder_width_of m) = Some sw ->
  (abs sw <? 0x1p+1022)%float = true ->
  (forall name v, name ∈ feature_names -> m !! name = Some v ->
                  finite_number v = true) ->
  exists row,
    extract_features m = Return [row] /\
    length row = 6%nat /\
    Forall (fun v => finite_number v = true) row /\
    (forall i name x, feature_names !! i = Some name ->
                      m !! name = Some (VFloat x) -> row !! i = Some (VFloat x)) /\
    (forall i name v z, feature_names !! i = Some name ->
                        m !! name = Some v -> int_value v = Some z ->
                        row !! i = Some v \/ row !! i = Some (VInt z) \/
                        row !! i = Some (VFloat (Z_to_binary64 z))).
Proof.
  intros Hsw Hbelow%abs_ltb_below Hpresent.
  pose proof (SF_below_finite _ _ Hbelow) as Hfin.
  exists (np_array (provided_or_imputed m sw)).
  split; [by apply extract_features_np_array|].
  split; [by rewrite np_array_length|].
  assert (forall name d, name ∈ feature_names -> finite_number d = true ->
            finite_number (default d (m !! name)) = true) as Hdefault.
  { intros name d Hname Hd. destruct (m !! name) as [v|] eqn:Hv; [|done].
    by apply (Hpresent name). }
  assert (binary64_is_finite (sw * 1.1)%float = true) as Hchest
    by (apply (mul_finite sw 1.1%float 1022 1); [done | by vm_compute | done]).
  assert (binary64_is_finite (sw * 0.75)%float = true) as Hwaist
    by (apply (mul_finite sw 0.75%float 1022 0); [done | by vm_compute | done]).
  assert (Forall (fun v => finite_number v = true) (provided_or_imputed m sw)) as Hall.
  { unfold provided_or_imputed.
    repeat (apply Forall_cons; split;
            [apply Hdefault;
             [unfold feature_names; repeat (apply elem_of_cons; first [by left | right])
             | done]|]).
    by apply Forall_nil. }
  pose proof (result_type_finite_numbers _ Hall) as Hdt.
  assert (forall v, v ∈ provided_or_imputed m sw ->
            finite_number (astype (result_type (provided_or_imputed m sw)) v) = true /\
            (forall x, v = VFloat x ->
               astype (result_type (provided_or_imputed m sw)) v = VFloat x) /\
            (forall z, int_value v = Some z ->
               astype (result_type (provided_or_imputed m sw)) v = v \/
               astype (result_type (provided_or_imputed m sw)) v = VInt z \/
               astype (result_type (provided_or_imputed m sw)) v
               = VFloat (Z_to_binary64 z))) as Hcast.
  { intros v Hv. apply astype_finite_number; [|by apply result_type_upper|done].
    rewrite Forall_forall in Hall. by apply Hall. }
  assert (forall i name v, feature_names !! i = Some name -> m !! name = Some v ->
            provided_or_imputed m sw !! i = Some v) as Hlookup.
  { intros i name v Hi Hv. unfold feature_names in Hi. unfold provided_or_imputed.
    do 6 (destruct i as [|i]; [injection Hi as <-; cbn; by rewrite Hv|]).
    done. }
  unfold np_array. split; [|split].
  - apply Forall_fmap, Forall_forall. intros v Hv. by apply Hcast.
  - intros i name x Hi Hx. rewrite list_lookup_fmap, (Hlookup i name _ Hi Hx).
    cbn [fmap option_fmap option_map]. f_equal.
    apply Hcast; [|done]. eapply list_elem_of_lookup_2. by apply (Hlookup i name).
  - intros i name v z Hi Hv Hz. rewrite list_lookup_fmap, (Hlookup i name _ Hi Hv).
    cbn [fmap option_fmap option_map].
    destruct (Hcast v) as (_ & _ & Hint);
      [eapply list_elem_of_lookup_2; by apply (Hlookup i name)|].
    destruct (Hint z Hz) as [-> | [-> | ->] ]; auto.
Qed.

Lemma extract_features_finite_witness :
  exists row,
    extract_features shoulder_and_arm = Return [row] /\
    length row = 6%nat /\
    Forall (fun v => finite_number v = true) row /\
    (forall i name x, feature_names !! i = Some name ->
                      shoulder_and_arm !! name = Some (VFloat x) ->
                      row !! i = Some (VFloat x)) /\
    (forall i name v z, feature_names !! i = Some name ->
                        shoulder_and_arm !! name = Some v -> int_value v = Some z ->
                        row !! i = Some v \/ row !! i = Some (VInt z) \/
                        row !! i = Some (VFloat (Z_to_binary64 z))).
Proof.
  apply (extract_features_finite shoulder_and_arm 40%float).
  - reflexivity.
  - reflexivity.
  - intros name v _ Hv. unfold shoulder_and_arm in Hv.
    apply elem_of_list_to_map_2 in Hv.
    repeat (apply elem_of_cons in Hv as [[= -> ->]|Hv]; [reflexivity|]).
    by apply elem_of_nil in Hv.
Defined.

(** ** C4: the fields of a result *)

(** C4, counterexample.  The rule-based result has no [all_probabilities]
    field: the key is absent, not mapped to [None]. *)
Lemma rule_based_result_lacks_all_probabilities :
  exists r,
    snd (predict_size no_model example_measurements default_threshold) = Return r /\
    r !! "all_probabilities" = None.
Proof. eexists. split; [reflexivity | vm_compute; reflexivity]. Qed.

(** C4, as amended.  Every result of [predict_size] holds [predicted_size],
    one of the six labels, [confidence], a float in [[0,1]] as long as the
    classifier's probabilities are, and [measurements_used], a mapping.  A
    result of the model path (a classifier is loaded and the [try] block
    completes) also holds [all_probabilities], the list of floats of a
    classifier with [predict_proba] and [None] for one without, and no
    [method]; a result of the rule-based path (no classifier, or an
    exception in the [try] block) holds [method], equal to ["rule_based"],
    and no [all_probabilities]. *)
Theorem predict_size_result_fields self (m : measurements) (thr : float) log r :
  predict_size self m thr = (log, Return r) ->
  probabilities_in_unit_interval self ->
  (exists size (k : Z),
      r !! "predicted_size" = Some (OStr size) /\ size_mapping !! k = Some size) /\
  (exists conf, r !! "confidence" = Some (OFloat conf) /\ unit_interval conf) /\
  (exists used, r !! "measurements_used" = Some (ODict used)) /\
  match model self with
  | Some clf =>
      match try_block clf (scaler self) m thr with
      | Return _ =>
          r !! "method" = None /\
          match clf with
          | WithProba _ => exists l, r !! "all_probabilities" = Some (OList l)
          | HardLabel _ => r !! "all_probabilities" = Some ONone
          end
      | Raise _ =>
          r !! "method" = Some (OStr "rule_based") /\
          r !! "all_probabilities" = None
      end
  | None =>
      r !! "method" = Some (OStr "rule_based") /\
      r !! "all_probabilities" = None
  end.
Proof.
  intros Hp Hprobs.
  assert (forall r, _rule_based_prediction m = Return r ->
    (exists size (k : Z),
        r !! "predicted_size" = Some (OStr size) /\ size_mapping !! k = Some size) /\
    (exists conf, r !! "confidence" = Some (OFloat conf) /\ unit_interval conf) /\
    (exists used, r !! "measurements_used" = Some (ODict used)) /\
    r !! "method" = Some (OStr "rule_based") /\
    r !! "all_probabilities" = None) as Hrule.
  { intros r' (size & Hs & Hps & Hc & Hm & Hu & Ha)%rule_based_prediction_Return.
    apply rule_size_label in Hs as [k Hk].
    split; [by exists size, k|]. split; [|split; [by exists m | by split]].
    exists (flit 1 2). split; [done|]. by split. }
  unfold predict_size in Hp. unfold probabilities_in_unit_interval in Hprobs.
  destruct (model self) as [clf|]; [|injection Hp as <- Hr; by apply Hrule].
  destruct (try_block clf (scaler self) m thr) as [[log' r']|e] eqn:Htry;
    [|injection Hp as <- Hr; by apply Hrule].
  injection Hp as <- <-.
  apply try_block_Return in Htry
    as (nm & a & a' & c & conf & ap & size & _ & _ & _ & Hi & Hs & _ & ->).
  apply size_mapping_getitem_Return in Hs as [k Hk].
  split; [by exists size, k|].
  destruct clf as [predict_proba|predict].
  - apply infer_WithProba in Hi as (rows & probs & i & Hr & Hf & _ & Hc & _ & ->).
    split; [|split; [by exists nm | split; [done | by exists probs]]].
    exists conf. split; [done|].
    specialize (Hprobs a' rows Hr).
    destruct rows as [|row rows']; [done|]. injection Hf as ->.
    apply Forall_cons in Hprobs as [Hrow _].
    rewrite Forall_lookup in Hrow. by apply (Hrow i).
  - apply infer_HardLabel in Hi as (-> & -> & _).
    split; [|split; [by exists nm | by split]].
    exists (flit 1 1). split; [done|]. by split.
Qed.

Lemma hesitant_probabilities_in_unit_interval :
  probabilities_in_unit_interval hesitant_estimator.
Proof.
  intros a rows [= <-]. apply Forall_singleton.
  repeat (apply Forall_cons; split; [split; reflexivity|]). by apply Forall_nil.
Qed.

Lemma predict_size_result_fields_witness :
  (exists size (k : Z),
      hesitant_result !! "predicted_size" = Some (OStr size) /\
      size_mapping !! k = Some size) /\
  (exists conf,
      hesitant_result !! "confidence" = Some (OFloat conf) /\ unit_interval conf) /\
  (exists used, hesitant_result !! "measurements_used" = Some (ODict used)) /\
  hesitant_result !! "method" = None /\
  exists l, hesitant_result !! "all_probabilities" = Some (OList l).
Proof.
  apply (predict_size_result_fields hesitant_estimator example_measurements
           default_threshold [warning_low_confidence 0.5%float] hesitant_result).
  - vm_compute. reflexivity.
  - exact hesitant_probabilities_in_unit_interval.
Defined.

(** ** C5: no model loaded *)

(** C5, counterexample.  With no model loaded and a shoulder width that is
    [None], the comparison [None < 35] raises [TypeError] and [predict_size]
    returns no result. *)
Lemma predict_size_no_model_raises :
  model no_model = None /\
  predict_size no_model shoulder_none default_threshold
  = ([warning_no_model], Raise TypeError).
Proof. split; reflexivity. Qed.

(** C5, as amended.  With no model loaded, for every mapping whose shoulder
    width is absent or an int, float or bool, and for every threshold,
    [predict_size] logs the missing model and returns a result whose
    [method] is ["rule_based"] and whose [confidence] is exactly [0.5]. *)
Theorem predict_size_no_model self (m : measurements) (thr : float) :
  model self = None ->
  isinstance_int_float (shoulder_width_of m) = true ->
  exists r,
    predict_size self m thr = ([warning_no_model], Return r) /\
    r !! "method" = Some (OStr "rule_based") /\
    r !! "confidence" = Some (OFloat 0.5%float).
Proof.
  intros Hmodel Hsw. rewrite predict_size_None by done.
  destruct (rule_based_prediction_number m Hsw) as [r Hr].
  exists r. rewrite Hr. split; [done|].
  apply rule_based_prediction_Return in Hr as (size & _ & _ & Hc & Hm & _).
  done.
Qed.

Lemma predict_size_no_model_witness :
  exists r,
    predict_size no_model example_measurements default_threshold
    = ([warning_no_model], Return r) /\
    r !! "method" = Some (OStr "rule_based") /\
    r !! "confidence" = Some (OFloat 0.5%float).
Proof.
  apply (predict_size_no_model no_model example_measurements default_threshold);
    reflexivity.
Defined.

(** ** C6: the rule-based prediction *)

Section RuleBased.
Implicit Types (w : pyval float) (m : measurements).

Lemma py_lt_int_lt_int w K :
  isinstance_int_float w = true -> py_lt_int w K = Return (lt_int w K).
Proof. by destruct w. Qed.

Lemma rule_size_lt_int w :
  isinstance_int_float w = true ->
  rule_size w =
  Return (if lt_int w 35 then "XS" else if lt_int w 40 then "S"
          else if lt_int w 45 then "M" else if lt_int w 50 then "L"
          else if lt_int w 55 then "XL" else "XXL").
Proof.
  intros Hw. unfold rule_size. rewrite !py_lt_int_lt_int by done.
  cbn [mbind exc_bind].
  by destruct (lt_int w 35), (lt_int w 40), (lt_int w 45), (lt_int w 50),
    (lt_int w 55).
Qed.

Lemma number_le_numbers w w' :
  number_le w w' = true ->
  isinstance_int_float w = true /\ isinstance_int_float w' = true.
Proof. by destruct w, w'. Qed.

Lemma threshold_shape K :
  K ∈ thresholds ->
  exists mc, Prim2SF (Z_to_binary64 K) = S754_finite false mc (-47) /\
             Zpos mc = K * 2 ^ 47 /\ 32 <= K < 64.
Proof.
  unfold thresholds. intros HK.
  repeat (apply elem_of_cons in HK as [->|HK];
          [eexists; split; [vm_compute; reflexivity|]; split; [reflexivity | lia]|]).
  by apply elem_of_nil in HK.
Qed.

(** Below a threshold is closed downwards. *)
Lemma lt_int_mono w w' K :
  K ∈ thresholds ->
  number_le w w' = true -> lt_int w' K = true -> lt_int w K = true.
Proof.
  intros (mc & Hc & Hmc & HK)%threshold_shape.
  destruct w as [|b|z|a|s], w' as [|b'|z'|a'|s']; cbn [number_le int_value lt_int];
    try done.
  - intros H1%Z.leb_le H2%Z.ltb_lt. apply Z.ltb_lt. lia.
  - intros H1%Z.leb_le H2%Z.ltb_lt. apply Z.ltb_lt. lia.
  - intros H1 H2. apply Z.ltb_lt.
    apply (Z_le_float_lt_threshold _ K mc Hc Hmc HK _ a' H1 H2).
  - intros H1%Z.leb_le H2%Z.ltb_lt. apply Z.ltb_lt. lia.
  - intros H1%Z.leb_le H2%Z.ltb_lt. apply Z.ltb_lt. lia.
  - intros H1 H2. apply Z.ltb_lt.
    apply (Z_le_float_lt_threshold _ K mc Hc Hmc HK _ a' H1 H2).
  - intros H1 H2%Z.ltb_lt.
    apply (float_le_Z_lt_threshold _ K mc Hc Hmc HK a _ H1 H2).
  - intros H1 H2%Z.ltb_lt.
    apply (float_le_Z_lt_threshold _ K mc Hc Hmc HK a _ H1 H2).
  - apply leb_ltb_trans.
Qed.

Lemma predicted_size_of_rule m :
  predicted_size_of (_rule_based_prediction m)
  = match rule_size (shoulder_width_of m) with
    | Return size => Some size
    | Raise _ => None
    end.
Proof.
  unfold _rule_based_prediction, shoulder_width_of.
  by destruct (rule_size _).
Qed.

Lemma rule_size_band w :
  isinstance_int_float w = true ->
  exists size,
    rule_size w = Return size /\
    size_mapping !! band w = Some size /\
    reverse_size_mapping !! size = Some (band w).
Proof.
  intros Hw. rewrite rule_size_lt_int by done. unfold band.
  destruct (lt_int w 35), (lt_int w 40), (lt_int w 45), (lt_int w 50),
    (lt_int w 55);
    eexists; (split; [reflexivity|]); split; vm_compute; reflexivity.
Qed.

Local Ltac in_thresholds :=
  unfold thresholds; repeat (apply elem_of_cons; first [by left | right]).

Lemma band_monotone w w' : number_le w w' = true -> band w <= band w'.
Proof.
  intros Hle.
  pose proof (fun K HK => lt_int_mono w w' K HK Hle) as Hmono.
  assert (lt_int w' 35 = true -> lt_int w 35 = true) as H35
    by (apply Hmono; in_thresholds).
  assert (lt_int w' 40 = true -> lt_int w 40 = true) as H40
    by (apply Hmono; in_thresholds).
  assert (lt_int w' 45 = true -> lt_int w 45 = true) as H45
    by (apply Hmono; in_thresholds).
  assert (lt_int w' 50 = true -> lt_int w 50 = true) as H50
    by (apply Hmono; in_thresholds).
  assert (lt_int w' 55 = true -> lt_int w 55 = true) as H55
    by (apply Hmono; in_thresholds).
  clear Hmono. unfold band.
  destruct (lt_int w' 35), (lt_int w' 40), (lt_int w' 45), (lt_int w' 50),
    (lt_int w' 55);
    rewrite ?H35, ?H40, ?H45, ?H50, ?H55 by reflexivity;
    destruct (lt_int w 35), (lt_int w 40), (lt_int w 45), (lt_int w 50),
      (lt_int w 55); lia.
Qed.

Lemma rule_size_monotone w w' :
  number_le w w' = true ->
  exists size size' k k',
    rule_size w = Return size /\ rule_size w' = Return size' /\
    reverse_size_mapping !! size = Some k /\
    reverse_size_mapping !! size' = Some k' /\ k <= k'.
Proof.
  intros Hle. destruct (number_le_numbers w w' Hle) as [Hw Hw'].
  destruct (rule_size_band w Hw) as (size & Hs & _ & Hk).
  destruct (rule_size_band w' Hw') as (size' & Hs' & _ & Hk').
  exists size, size', (band w), (band w').
  repeat (split; [done|]). by apply band_monotone.
Qed.

End RuleBased.

(** C6.  The rule-based label depends on the shoulder width only; 34, 39,
    44, 49, 54 and 60 give XS, S, M, L, XL and XXL, as an int and as a float
    alike, the thresholds 35, 40, 45, 50 and 55 belonging to the larger
    label; for every shoulder width that is a float [x], or an int or bool
    of value [z] ([0] when the key is absent), the label is XS below 35, S
    from 35 to below 40, M from 40 to below 45, L from 45 to below 50, XL
    from 50 to below 55 and XXL otherwise (a NaN, below nothing, gives
    XXL); and whenever one shoulder width is less than or equal to another
    in Python's order on numbers, its label does not come later in
    [size_mapping]. *)
Theorem rule_based_prediction_monotone :
  (forall m m' : measurements,
      m !! "shoulder_width" = m' !! "shoulder_width" ->
      predicted_size_of (_rule_based_prediction m)
      = predicted_size_of (_rule_based_prediction m')) /\
  Forall (fun '(w, size) =>
            predicted_size_of (_rule_based_prediction (shoulder (VInt w)))
            = Some size /\
            predicted_size_of
              (_rule_based_prediction (shoulder (VFloat (Z_to_binary64 w))))
            = Some size)
         rule_examples /\
  (forall (m : measurements) (x : float),
      m !! "shoulder_width" = Some (VFloat x) ->
      predicted_size_of (_rule_based_prediction m)
      = Some (if (x <? 35)%float then "XS" else if (x <? 40)%float then "S"
              else if (x <? 45)%float then "M" else if (x <? 50)%float then "L"
              else if (x <? 55)%float then "XL" else "XXL")) /\
  (forall (m : measurements) (w : pyval float) (z : Z),
      shoulder_width_of m = w -> int_value w = Some z ->
      predicted_size_of (_rule_based_prediction m)
      = Some (if z <? 35 then "XS" else if z <? 40 then "S"
              else if z <? 45 then "M" else if z <? 50 then "L"
              else if z <? 55 then "XL" else "XXL")) /\
  (forall m m' : measurements,
      number_le (shoulder_width_of m) (shoulder_width_of m') = true ->
      exists k k',
        size_index (_rule_based_prediction m) = Some k /\
        size_index (_rule_based_prediction m') = Some k' /\
        k <= k').
Proof.
  split; [|split; [|split; [|split]]].
  - intros m m' Heq. rewrite !predicted_size_of_rule.
    unfold shoulder_width_of. by rewrite Heq.
  - unfold rule_examples.
    repeat (apply Forall_cons; split; [split; vm_compute; reflexivity|]).
    by apply Forall_nil.
  - intros m x Hx. rewrite predicted_size_of_rule. unfold shoulder_width_of.
    rewrite Hx. cbn [default from_option id].
    rewrite rule_size_lt_int by done. cbn [lt_int].
    change (Z_to_binary64 35) with 35%float.
    change (Z_to_binary64 40) with 40%float.
    change (Z_to_binary64 45) with 45%float.
    change (Z_to_binary64 50) with 50%float.
    change (Z_to_binary64 55) with 55%float.
    reflexivity.
  - intros m w z Hw Hz. rewrite predicted_size_of_rule, Hw.
    destruct w as [|b|z'|x|s]; try done; injection Hz as <-;
      by rewrite rule_size_lt_int by done.
  - intros m m' Hle.
    destruct (rule_size_monotone _ _ Hle) as (size & size' & k & k' & Hs & Hs' & Hk & Hk' & Hkk).
    exists k, k'. unfold size_index. rewrite !predicted_size_of_rule, Hs, Hs'.
    by repeat split.
Qed.

Lemma rule_based_prediction_monotone_witness :
  exists k k',
    size_index (_rule_based_prediction (shoulder (VInt 39))) = Some k /\
    size_index (_rule_based_prediction (shoulder (VFloat 44.5%float))) = Some k' /\
    k <= k'.
Proof.
  destruct rule_based_prediction_monotone as (_ & _ & _ & _ & Hmono).
  apply (Hmono (shoulder (VInt 39)) (shoulder (VFloat 44.5%float))).
  reflexivity.
Defined.

(** ** C7: provided and imputed features *)


(** Next to a float, an int above [2^53] is rounded to the nearest float. *)
Lemma extract_features_rounds_int :
  extract_features shoulder_above_2_53
  = Return [[VFloat 9007199254740992%float; VFloat 9907919180215092%float;
             VFloat 6755399441055744%float; VFloat 0%float; VFloat 0%float;
             VFloat 65%float]].
Proof. vm_compute. reflexivity. Qed.



Example extract_features_shoulder_and_arm :
  extract_features shoulder_and_arm
  = Return [[VFloat 40; VFloat 44; VFloat 30; VFloat 0; VFloat 0; VFloat 60]%float].
Proof. reflexivity. Qed.

(** With no key at all the vector is all zeros. *)
Example extract_features_empty :
  extract_features (∅ : measurements)
  = Return [[VFloat 0; VFloat 0; VFloat 0; VFloat 0; VFloat 0; VFloat 0]%float].
Proof. reflexivity. Qed.

(** ** C8: the model path *)

(** C8.  When the [try] block completes, [predict_size] returns its result.
    With a classifier that has [predict_proba], the result holds the label
    of the arg-max class of the first row of probabilities, that class's
    probability as confidence, which is a largest element of the vector,
    and the whole vector; with a classifier that has [predict] only, the
    confidence is exactly [1.0] and [all_probabilities] is [None]. *)
Theorem predict_size_model_path self clf (m : measurements) (thr : float) log r :
  model self = Some clf ->
  try_block clf (scaler self) m thr = Return (log, r) ->
  predict_size self m thr = (log, Return r) /\
  match clf with
  | WithProba predict_proba =>
      exists a rows probabilities i conf size,
        predict_proba a = Return rows /\
        first rows = Return probabilities /\
        np_argmax probabilities = Return i /\
        probabilities !! i = Some conf /\
        size_mapping !! Z.of_nat i = Some size /\
        r !! "predicted_size" = Some (OStr size) /\
        r !! "confidence" = Some (OFloat conf) /\
        r !! "all_probabilities" = Some (OList probabilities) /\
        (Forall not_nan probabilities ->
         Forall (fun p => (p <=? conf)%float = true) probabilities)
  | HardLabel _ =>
      r !! "confidence" = Some (OFloat 1%float) /\
      r !! "all_probabilities" = Some ONone
  end.
Proof.
  intros Hmodel Htry. split; [by apply (predict_size_Return self clf)|].
  apply try_block_Return in Htry
    as (nm & a & a' & c & conf & ap & size & _ & _ & _ & Hi & Hs & _ & ->).
  destruct clf as [predict_proba|predict].
  - apply infer_WithProba in Hi as (rows & probs & i & Hr & Hp & Ha & Hc & -> & ->).
    exists a', rows, probs, i, conf, size.
    repeat (split; [done || by apply size_mapping_getitem_int|]).
    intros Hnan. destruct (np_argmax_max probs i Ha Hnan) as (c' & Hc' & Hmax).
    by replace conf with c' by congruence.
  - by apply infer_HardLabel in Hi as (-> & -> & _).
Qed.

Lemma predict_size_model_path_witness :
  predict_size hesitant_estimator example_measurements default_threshold
  = ([warning_low_confidence 0.5%float], Return hesitant_result) /\
  exists (a : list (list (pyval float))) rows probabilities i conf size,
    Return [[0.25; 0.5; 0.25; 0; 0; 0]%float] = Return rows /\
    first rows = Return probabilities /\
    np_argmax probabilities = Return i /\
    probabilities !! i = Some conf /\
    size_mapping !! Z.of_nat i = Some size /\
    hesitant_result !! "predicted_size" = Some (OStr size) /\
    hesitant_result !! "confidence" = Some (OFloat conf) /\
    hesitant_result !! "all_probabilities" = Some (OList probabilities) /\
    (Forall not_nan probabilities ->
     Forall (fun p => (p <=? conf)%float = true) probabilities).
Proof.
  apply (predict_size_model_path hesitant_estimator hesitant_classifier
           example_measurements default_threshold
           [warning_low_confidence 0.5%float] hesitant_result).
  - reflexivity.
  - vm_compute. reflexivity.
Defined.

(** ** C9: the confidence threshold *)

(** C9.  The result of [predict_size] does not depend on the threshold:
    for every estimator, mapping and pair of thresholds the two calls give
    the same outcome. *)
Theorem predict_size_threshold_independent
    (self : estimator float) (m : measurements) (thr thr' : float) :
  snd (predict_size self m thr) = snd (predict_size self m thr').
Proof. apply predict_size_threshold. Qed.

(** On the model path the threshold decides one thing: whether the
    low-confidence warning is logged next to the prediction. *)
Lemma predict_size_low_confidence self clf (m : measurements) (thr : float) log r :
  model self = Some clf ->
  try_block clf (scaler self) m thr = Return (log, r) ->
  exists conf,
    r !! "confidence" = Some (OFloat conf) /\
    log = if (conf <? thr)%float then [warning_low_confidence conf] else [].
Proof.
  intros _ Htry.
  apply try_block_Return in Htry
    as (nm & a & a' & c & conf & ap & size & _ & _ & _ & _ & _ & -> & ->).
  by exists conf.
Qed.

(** Only the log tells two calls apart: below the threshold the prediction
    is returned with a warning, above it without. *)
Lemma predict_size_low_confidence_logged :
  fst (predict_size hesitant_estimator example_measurements 0.75%float)
  = [warning_low_confidence 0.5%float] /\
  fst (predict_size hesitant_estimator example_measurements 0.25%float) = [] /\
  exists r,
    snd (predict_size hesitant_estimator example_measurements 0.75%float) = Return r /\
    snd (predict_size hesitant_estimator example_measurements 0.25%float) = Return r /\
    r !! "predicted_size" = Some (OStr "S") /\
    r !! "confidence" = Some (OFloat 0.5%float).
Proof.
  split; [reflexivity|]. split; [reflexivity|].
  eexists. split; [reflexivity|]. split; [reflexivity|]. split; reflexivity.
Qed.

(** ** C10: what normalisation does to the torso length *)

(** C10, counterexample.  For the positive torso length [1e308] the proxy
    height is infinite, the factor [170 / inf] is zero, and the normalised
    torso length is [0.0], not [170 / 0.35]. *)
Lemma normalize_measurements_torso_overflow :
  (0 <? 1e308)%float = true /\
  normalize_measurements torso_huge 170%float
  = Return {[ "torso_length" := VFloat 0%float ]} /\
  (0 =? 170 / 0.35)%float = false.
Proof. repeat split; vm_compute; reflexivity. Qed.

(** Within the ordinary range the value is [170 / 0.35] only up to
    rounding: 84 and 85 are sent to neighbouring floats. *)
Lemma normalize_measurements_torso_rounding :
  normalize_measurements torso_84 170%float
  = Return {[ "torso_length" := VFloat 485.71428571428567%float ]} /\
  normalize_measurements torso_85 170%float
  = Return {[ "torso_length" := VFloat 485.71428571428572%float ]} /\
  (170 / 0.35 = 485.71428571428572)%float /\
  (485.71428571428567 =? 485.71428571428572)%float = false.
Proof. repeat split; vm_compute; reflexivity. Qed.

(** At the other end, for the smallest positive float the divisor rounds to
    zero and the division raises. *)
Lemma normalize_measurements_torso_underflow :
  (0 <? 5e-324)%float = true /\
  normalize_measurements torso_tiny 170%float = Raise ZeroDivisionError.
Proof. repeat split; vm_compute; reflexivity. Qed.

(** In between, for a torso length so small that the factor overflows, the
    normalised torso length is infinite. *)
Lemma normalize_measurements_torso_infinite :
  (0 <? 1e-310)%float = true /\
  normalize_measurements torso_small 170%float
  = Return {[ "torso_length" := VFloat infinity ]}.
Proof. repeat split; vm_compute; reflexivity. Qed.

(** In binary64 the normalised torso length is the product below, whenever
    the torso length is above zero and the divisor is not zero. *)
Lemma normalize_measurements_torso_binary64 (m : measurements) v (t ref : float) :
  m !! "torso_length" = Some v ->
  as_float v = Return t ->
  (0 <? t)%float = true ->
  (t * 3.5 * 0.1 =? 0)%float = false ->
  no_int_overflow m ->
  exists n,
    normalize_measurements m ref = Return n /\
    n !! "torso_length" = Some (VFloat (t * (ref / (t * 3.5 * 0.1)))%float).
Proof.
  intros Hk Hv Hpos Hnz Hm. unfold normalize_measurements.
  rewrite (estimated_height_px_present m v t) by done.
  cbn [mbind exc_bind]. unfold height_factor, py_div.
  change (f_of_Z 0 <.? (t * 3.5)%float) with (0 <? t * 3.5)%float.
  rewrite (mul_pos_gt_0 t 3.5%float 7881299347898368 (-51)) by done.
  change ((t * 3.5)%float ⊗ flit 1 10 =.? f_of_Z 0) with (t * 3.5 * 0.1 =? 0)%float.
  rewrite Hnz. cbn [mbind exc_bind].
  destruct (normalize_loop_no_int_overflow
              (ref / (t * 3.5 * 0.1))%float m Hm) as [n Hn].
  exists n. split; [exact Hn|].
  destruct (normalize_loop_lookup _ _ _ _ _ Hn Hk) as (v' & Hv' & ->).
  unfold normalized_value, py_mul in Hv'. rewrite Hv in Hv'.
  destruct (isinstance_int_float v) eqn:Hnum;
    [by injection Hv' as <- | by destruct v].
Qed.

Lemma bounds_positive_normal :
  positive_normal (Prim2SF 0x1p-900%float) /\
  positive_normal (Prim2SF 0x1p+900%float) /\
  positive_normal (Prim2SF 0x1p-100%float) /\
  positive_normal (Prim2SF 0x1p+100%float) /\
  (binary64_value 0x1p-900%float == 2 ^ (-900))%Q /\
  (binary64_value 0x1p+900%float == 2 ^ 900)%Q /\
  (binary64_value 0x1p-100%float == 2 ^ (-100))%Q /\
  (binary64_value 0x1p+100%float == 2 ^ 100)%Q.
Proof.
  repeat split;
    try (eexists _, _; split; [vm_compute; reflexivity|]; by vm_compute);
    vm_compute; reflexivity.
Qed.

(** C10, as amended.  For every mapping whose torso length is a number with
    a float value between [2^-900] and [2^900], every reference height
    between [2^-100] and [2^100], and no int too large for a float in the
    mapping, [normalize_measurements] returns, and the torso length of its
    result is a finite float within a relative error of [2^-49] of
    [reference_height / 0.35].  It is not that quotient itself, and it
    depends on the input: 84 and 85 above are sent to different floats. *)
Theorem normalize_measurements_torso_length
    (m : measurements) (v : pyval float) (t ref : float) :
  m !! "torso_length" = Some v ->
  float_value v = Some t ->
  (0x1p-900 <=? t)%float = true -> (t <=? 0x1p+900)%float = true ->
  (0x1p-100 <=? ref)%float = true -> (ref <=? 0x1p+100)%float = true ->
  no_int_overflow m ->
  exists n r,
    normalize_measurements m ref = Return n /\
    n !! "torso_length" = Some (VFloat r) /\
    binary64_is_finite r = true /\
    (binary64_value ref / (35 # 100) * (1 - (1 # 2 ^ 49))
     <= binary64_value r
     <= binary64_value ref / (35 # 100) * (1 + (1 # 2 ^ 49)))%Q.
Proof.
  intros Hk Hv Ht1 Ht2 Hr1 Hr2 Hm.
  destruct bounds_positive_normal
    as (Hp1 & Hp2 & Hp3 & Hp4 & Hv1 & Hv2 & Hv3 & Hv4).
  destruct (between_positive_normal _ t _ Hp1 Hp2 Ht1 Ht2) as [Ht Htv].
  destruct (between_positive_normal _ ref _ Hp3 Hp4 Hr1 Hr2) as [Href Hrv].
  rewrite Hv1, Hv2 in Htv. rewrite Hv3, Hv4 in Hrv.
  destruct (torso_length_rounded t ref Ht Href Htv Hrv) as (_ & Hd & Hr & Hbound).
  destruct (normalize_measurements_torso_binary64 m v t ref) as (n & Hn & Hnt);
    [done
    |by apply float_value_as_float; [|apply positive_normal_finite]
    |by apply positive_normal_gt_0
    |by apply positive_normal_not_0
    |done|].
  exists n, (t * (ref / (t * 3.5 * 0.1)))%float.
  split; [exact Hn|]. split; [exact Hnt|].
  split; [by apply positive_normal_finite | exact Hbound].
Qed.

Lemma normalize_measurements_torso_length_witness :
  exists n r,
    normalize_measurements torso_85 170%float = Return n /\
    n !! "torso_length" = Some (VFloat r) /\
    binary64_is_finite r = true /\
    (binary64_value 170%float / (35 # 100) * (1 - (1 # 2 ^ 49))
     <= binary64_value r
     <= binary64_value 170%float / (35 # 100) * (1 + (1 # 2 ^ 49)))%Q.
Proof.
  apply (normalize_measurements_torso_length torso_85 (VFloat 85%float)
           85%float 170%float); [reflexivity ..|].
  intros key v Hk _. unfold torso_85 in Hk.
  apply lookup_singleton_Some in Hk as [_ <-]. eexists; reflexivity.
Defined.


(** * Further properties of the estimator *)

(** ** Facts shared by the statements below *)

Section FurtherEstimatorFacts.
Context {F : Type} `{PyFloat F}.
Implicit Types (m n : gmap string (pyval F)) (v : pyval F) (x : F).

Lemma as_float_Raise v e :
  as_float v = Raise e ->
  (e = TypeError /\ isinstance_int_float v = false) \/
  (e = OverflowError /\ isinstance_int_float v = true).
Proof.
  destruct v as [|b|z|x|s]; cbn; try (intros [= <-]; by left); try done.
  - unfold float_of_int. destruct (fis_finite _); [done|]. intros [= <-]. by right.
  - unfold float_of_int. destruct (fis_finite _); [done|]. intros [= <-]. by right.
Qed.

Lemma as_float_not_number v :
  isinstance_int_float v = false -> as_float v = Raise TypeError.
Proof. by destruct v. Qed.

Lemma normalized_value_Raise factor v e :
  normalized_value factor v = Raise e ->
  e = OverflowError /\ as_float v = Raise OverflowError.
Proof.
  unfold normalized_value, py_mul.
  destruct (isinstance_int_float v) eqn:Hv; [|done].
  destruct (as_float v) as [x|e'] eqn:Hx; [done|]. cbn. intros [= <-].
  destruct (as_float_Raise v e' Hx) as [[_ ?]|[-> _]]; [congruence | done].
Qed.

(** The loop raises nothing but the [OverflowError] of an int that does not
    fit in a float. *)
Lemma normalize_loop_Raise factor m e :
  normalize_loop factor m = Raise e ->
  e = OverflowError /\
  exists key v, m !! key = Some v /\ as_float v = Raise OverflowError.
Proof.
  intros He. pose proof (normalize_loop_inv factor m) as Hinv. rewrite He in Hinv.
  destruct Hinv as (key & v & Hk & [-> Hv]%normalized_value_Raise). eauto.
Qed.

Lemma normalized_value_Return factor v v' :
  normalized_value factor v = Return v' ->
  if isinstance_int_float v
  then exists x, as_float v = Return x /\ v' = VFloat (x ⊗ factor)
  else v' = v.
Proof.
  unfold normalized_value, py_mul.
  destruct (isinstance_int_float v); [|by intros [= <-]].
  destruct (as_float v) as [x|e]; [|done]. cbn. intros [= <-]. eauto.
Qed.

Lemma normalize_measurements_Return m ref n :
  normalize_measurements m ref = Return n ->
  exists px factor,
    estimated_height_px m = Return px /\
    height_factor ref px = Return factor /\
    normalize_loop factor m = Return n.
Proof.
  unfold normalize_measurements.
  intros (px & Hpx & (factor & Hf & Hn)%bind_Return)%bind_Return. eauto.
Qed.

(** With a shoulder width that is a number, [predict_size] returns. *)
Lemma predict_size_number self m thr :
  isinstance_int_float (default (VInt 0) (m !! "shoulder_width")) = true ->
  exists log r, predict_size self m thr = (log, Return r).
Proof.
  intros Hsw. destruct (rule_based_prediction_number m Hsw) as [r Hr].
  unfold predict_size. destruct (model self) as [clf|].
  - destruct (try_block clf (scaler self) m thr) as [[log r']|e]; rewrite ?Hr; eauto.
  - rewrite Hr. eauto.
Qed.

(** The [try] block once normalisation, extraction and scaling went
    through. *)
Lemma try_block_infer clf sc m n thr a a' :
  normalize_measurements m (flit 170 1) = Return n ->
  extract_features n = Return a ->
  match sc with Some transform => transform a | None => Return a end = Return a' ->
  try_block clf sc m thr =
  '(predicted_class, confidence, all_probabilities) ← infer clf a';
  predicted_size ← size_mapping_getitem predicted_class;
  let log := if confidence <.? thr
             then [warning_low_confidence confidence] else [] in
  Return (log,
          <["predicted_size" := OStr predicted_size]>
          (<["confidence" := OFloat confidence]>
          (<["all_probabilities" := all_probabilities]>
          (<["measurements_used" := ODict n]> ∅)))).
Proof.
  unfold try_block. intros -> Ha Ha'. cbn [mbind exc_bind]. rewrite Ha.
  cbn [mbind exc_bind]. by rewrite Ha'.
Qed.

Lemma size_mapping_getitem_unknown (z : Z) :
  ~ (0 <= z <= 5) -> size_mapping_getitem (F:=F) (VInt z) = Raise KeyError.
Proof.
  intros Hz. unfold size_mapping_getitem.
  destruct (size_mapping !! z) as [size|] eqn:Hk; [|done].
  exfalso. apply Hz. unfold size_mapping in Hk. apply elem_of_list_to_map_2 in Hk.
  repeat (apply elem_of_cons in Hk as [[= -> _]|Hk]; [lia|]).
  by apply elem_of_nil in Hk.
Qed.

End FurtherEstimatorFacts.

Section FurtherOrder.

(** A NaN is below nothing. *)
Lemma ltb_nan (x y : float) : PrimFloat.is_nan x = true -> (x <? y)%float = false.
Proof.
  intros Hx%is_nan_key. destruct (x <? y)%float eqn:Hlt; [|done].
  apply ltb_key in Hlt as (kx & ky & Hkx & _). congruence.
Qed.

Lemma leb_false_ltb (a b : float) :
  PrimFloat.is_nan a = false -> PrimFloat.is_nan b = false ->
  (a <=? b)%float = false -> (b <? a)%float = true.
Proof.
  intros Ha Hb Hab. apply ltb_key.
  destruct (float_key a) as [ka|] eqn:Ea; [|apply is_nan_key in Ea; congruence].
  destruct (float_key b) as [kb|] eqn:Eb; [|apply is_nan_key in Eb; congruence].
  exists kb, ka. repeat split.
  destruct (key_total ka kb) as [Hl | [Heq | Hl]]; [| |done];
    (assert ((a <=? b)%float = true); [|congruence]);
    apply leb_key; exists ka, kb; auto.
Qed.

Lemma leb_not_ltb (a b : float) : (a <=? b)%float = true -> (b <? a)%float = false.
Proof.
  intros (ka & kb & Ha & Hb & Hab)%leb_key.
  destruct (b <? a)%float eqn:Hlt; [|done].
  apply ltb_key in Hlt as (kb' & ka' & Hb' & Ha' & Hlt).
  replace kb' with kb in Hlt by congruence. replace ka' with ka in Hlt by congruence.
  exfalso. unfold key_lt in *. destruct ka as [[? ?] ?], kb as [[? ?] ?].
  cbn [fst snd] in *. destruct Hab as [Hab| [= -> -> ->]]; lia.
Qed.

(** [b] is not below [c] when [c <= a <= b]. *)
Lemma leb_leb_not_ltb (a b c : float) :
  (a <=? b)%float = true -> (c <=? a)%float = true -> (b <? c)%float = false.
Proof. intros Hab Hca. apply leb_not_ltb. by apply (leb_trans c a b). Qed.

Lemma ltb_not_nan (a b : float) :
  (a <? b)%float = true -> PrimFloat.is_nan a = false.
Proof.
  intros (ka & kb & Ha & _)%ltb_key.
  destruct (PrimFloat.is_nan a) eqn:Hn; [|done].
  apply is_nan_key in Hn. congruence.
Qed.

End FurtherOrder.

(** ** [predict_size] as a whole *)

(** X1.  With a shoulder width that is absent or an int, float or bool,
    [predict_size] returns a result, whatever the model, the scaler, the
    threshold and the other measurements are; the only exception that can
    leave [predict_size] is [TypeError], and only for a shoulder width that
    is present and not a number. *)
Theorem predict_size_returns self (m : measurements) (thr : float) :
  (isinstance_int_float (shoulder_width_of m) = true ->
   exists log r, predict_size self m thr = (log, Return r)) /\
  (forall e, snd (predict_size self m thr) = Raise e ->
             e = TypeError /\ isinstance_int_float (shoulder_width_of m) = false).
Proof.
  assert (forall e, _rule_based_prediction m = Raise e ->
            e = TypeError /\ isinstance_int_float (shoulder_width_of m) = false)
    as Hrule.
  { intros e He. unfold shoulder_width_of.
    destruct (isinstance_int_float (default (VInt 0) (m !! "shoulder_width"))) eqn:Hsw.
    - destruct (rule_based_prediction_number m Hsw) as [r Hr]. congruence.
    - rewrite (rule_based_prediction_not_number m Hsw) in He. by injection He as <-. }
  split.
  - apply predict_size_number.
  - intros e. unfold predict_size. destruct (model self) as [clf|]; [|apply Hrule].
    destruct (try_block clf (scaler self) m thr) as [[log r']|e']; [done | apply Hrule].
Qed.

Lemma predict_size_returns_witness :
  exists log r,
    predict_size broken_estimator example_measurements default_threshold
    = (log, Return r).
Proof.
  apply (proj1 (predict_size_returns broken_estimator example_measurements
                  default_threshold)).
  reflexivity.
Defined.

(** ** [normalize_measurements] *)

(** X2.  [normalize_measurements] raises in three situations only:
    [TypeError] when [torso_length] is present and not a number,
    [OverflowError] when some int of the mapping does not fit in a float,
    and [ZeroDivisionError] when the proxy height [torso_length * 3.5] is
    above zero and its product with [0.1] has underflowed to zero. *)
Theorem normalize_measurements_raises (m : measurements) (ref : float) e :
  normalize_measurements m ref = Raise e ->
  (e = TypeError /\
   exists v, m !! "torso_length" = Some v /\ isinstance_int_float v = false) \/
  (e = OverflowError /\
   exists key v, m !! key = Some v /\ as_float v = Raise OverflowError) \/
  (e = ZeroDivisionError /\
   exists v t, m !! "torso_length" = Some v /\ as_float v = Return t /\
               (0 <? t * 3.5)%float = true /\ (t * 3.5 * 0.1 =? 0)%float = true).
Proof.
  unfold normalize_measurements.
  destruct (m !! "torso_length") as [v|] eqn:Hk.
  - destruct (as_float v) as [t|e'] eqn:Hv.
    + rewrite (estimated_height_px_present m v t Hk Hv). cbn [mbind exc_bind].
      unfold height_factor, py_div.
      change (f_of_Z 0 <.? (t * 3.5)%float) with (0 <? t * 3.5)%float.
      change ((t * 3.5)%float ⊗ flit 1 10 =.? f_of_Z 0)
        with (t * 3.5 * 0.1 =? 0)%float.
      destruct (0 <? t * 3.5)%float eqn:Hpos.
      * destruct (t * 3.5 * 0.1 =? 0)%float eqn:Hz; cbn [mbind exc_bind].
        -- intros [= <-]. right; right. split; [done|]. by exists v, t.
        -- intros [-> Hov]%normalize_loop_Raise. right; left. done.
      * cbn [mbind exc_bind]. intros [-> Hov]%normalize_loop_Raise. right; left. done.
    + unfold estimated_height_px, py_mul. rewrite Hk. cbn [default from_option id].
      rewrite Hv. cbn [mbind exc_bind]. intros [= <-].
      destruct (as_float_Raise v e' Hv) as [[-> Hn]|[-> Hn]].
      * left. split; [done|]. by exists v.
      * right; left. split; [done|]. by exists "torso_length"%string, v.
  - rewrite (estimated_height_px_absent m Hk). cbn [mbind exc_bind].
    rewrite height_factor_350. cbn [mbind exc_bind].
    intros [-> Hov]%normalize_loop_Raise. right; left. done.
Qed.

Lemma normalize_measurements_raises_witness :
  (ZeroDivisionError = TypeError /\
   exists v, torso_tiny !! "torso_length" = Some v /\ isinstance_int_float v = false) \/
  (ZeroDivisionError = OverflowError /\
   exists key v, torso_tiny !! key = Some v /\ as_float v = Raise OverflowError) \/
  (ZeroDivisionError = ZeroDivisionError /\
   exists v t, torso_tiny !! "torso_length" = Some v /\ as_float v = Return t /\
               (0 <? t * 3.5)%float = true /\ (t * 3.5 * 0.1 =? 0)%float = true).
Proof.
  apply (normalize_measurements_raises torso_tiny 170%float ZeroDivisionError).
  vm_compute. reflexivity.
Defined.

(** X3.  A [torso_length] that is present and not a number makes
    [normalize_measurements] raise [TypeError]; inside [predict_size] with
    a model loaded, that error is logged and the rule-based prediction is
    the answer. *)
Theorem normalize_measurements_torso_not_number
    self clf (m : measurements) (ref thr : float) v :
  m !! "torso_length" = Some v ->
  isinstance_int_float v = false ->
  model self = Some clf ->
  normalize_measurements m ref = Raise TypeError /\
  predict_size self m thr
  = ([error_in_prediction TypeError], _rule_based_prediction m).
Proof.
  intros Hk Hv Hm.
  assert (forall ref, normalize_measurements m ref = Raise TypeError) as Hn.
  { intros ref'. unfold normalize_measurements, estimated_height_px, py_mul.
    rewrite Hk. cbn [default from_option id]. by rewrite (as_float_not_number v Hv). }
  split; [apply Hn|]. apply (predict_size_Raise self clf); [done|].
  unfold try_block. by rewrite Hn.
Qed.

Lemma normalize_measurements_torso_not_number_witness :
  normalize_measurements torso_unknown 170%float = Raise TypeError /\
  predict_size hesitant_estimator torso_unknown default_threshold
  = ([error_in_prediction TypeError], _rule_based_prediction torso_unknown).
Proof.
  apply (normalize_measurements_torso_not_number hesitant_estimator
           hesitant_classifier torso_unknown 170%float default_threshold
           (VStr "unknown")); reflexivity.
Defined.

(** X4.  A mapping that [normalize_measurements] returns has the keys of
    its input, and one factor for all of them: every int, float or bool is
    stored as the float that is its product with the factor, and every
    other value is stored as it is. *)
Theorem normalize_measurements_uniform (m n : measurements) (ref : float) :
  normalize_measurements m ref = Return n ->
  exists factor : float,
    forall key,
      match m !! key with
      | None => n !! key = None
      | Some v =>
          if isinstance_int_float v
          then exists x, as_float v = Return x /\
                         n !! key = Some (VFloat (x * factor)%float)
          else n !! key = Some v
      end.
Proof.
  intros (px & factor & _ & _ & Hn)%normalize_measurements_Return.
  exists factor. intros key.
  pose proof (normalize_loop_inv factor m) as Hinv. rewrite Hn in Hinv.
  specialize (Hinv key). destruct (m !! key) as [v|]; [|done].
  destruct Hinv as (v' & Hv' & Hk). apply normalized_value_Return in Hv'.
  destruct (isinstance_int_float v).
  - destruct Hv' as (x & Hx & ->). eauto.
  - by subst v'.
Qed.

Lemma normalize_measurements_uniform_witness :
  exists factor : float,
    forall key,
      match hip_not_a_number !! key with
      | None => hip_not_a_number_normalized !! key = None
      | Some v =>
          if isinstance_int_float v
          then exists x, as_float v = Return x /\
                 hip_not_a_number_normalized !! key
                 = Some (VFloat (x * factor)%float)
          else hip_not_a_number_normalized !! key = Some v
      end.
Proof.
  apply (normalize_measurements_uniform hip_not_a_number
           hip_not_a_number_normalized 170%float).
  vm_compute. reflexivity.
Defined.

(** ** [extract_features] *)

(** X8.  [extract_features] raises exactly when [chest_width] or
    [waist_width] is absent and the shoulder width it would be estimated
    from cannot be multiplied by a float; the exception is the one of that
    product: [TypeError] for a value that is not a number, [OverflowError]
    for an int too large for a float. *)
Theorem extract_features_error (m : measurements) e :
  extract_features m = Raise e <->
  (m !! "chest_width" = None \/ m !! "waist_width" = None) /\
  as_float (shoulder_width_of m) = Raise e.
Proof.
  unfold extract_features, feature_names, mapM, feature, py_mul, shoulder_width_of.
  cbn [String.eqb Ascii.eqb Bool.eqb].
  destruct (as_float (default (VInt 0) (m !! "shoulder_width"))) as [sw|e'] eqn:Hsw;
  destruct (m !! "shoulder_width"), (m !! "chest_width"), (m !! "waist_width"),
    (m !! "hip_width"), (m !! "torso_length"), (m !! "arm_length");
    cbn [mbind exc_bind fmap exc_fmap mret exc_ret];
    (split; [intros [= <-] || intros [=]; (split; [by (left + right)| done])
            | intros [[?|?] ?]; congruence]).
Qed.

(** X9.  [extract_features] reads the six feature names and nothing else:
    two mappings that agree on them give the same outcome. *)
Theorem extract_features_frame (m m' : measurements) :
  (forall name, name ∈ feature_names -> m !! name = m' !! name) ->
  extract_features m = extract_features m'.
Proof.
  intros Heq. unfold extract_features, feature_names, mapM, feature.
  cbn [String.eqb Ascii.eqb Bool.eqb].
  rewrite <- !Heq;
    [done | unfold feature_names;
            repeat (apply elem_of_cons; first [by left | right]) ..].
Qed.

Lemma extract_features_frame_witness :
  extract_features shoulder_and_arm_labelled = extract_features shoulder_and_arm.
Proof.
  apply (extract_features_frame shoulder_and_arm_labelled shoulder_and_arm).
  intros name Hname. apply lookup_insert_ne. intros <-.
  unfold feature_names in Hname.
  repeat (apply elem_of_cons in Hname as [[=]|Hname]).
  by apply elem_of_nil in Hname.
Defined.

(** ** [_rule_based_prediction] and the size labels *)

(** X10.  The rule-based label at the edges of its input: a mapping with no
    shoulder width gets XS, as does a shoulder width that is a bool; a
    shoulder width that is NaN gets XXL, every comparison with it being
    false. *)
Theorem rule_based_prediction_edge_cases (m : measurements) :
  (m !! "shoulder_width" = None ->
   predicted_size_of (_rule_based_prediction m) = Some "XS"%string) /\
  (forall b, m !! "shoulder_width" = Some (VBool b) ->
   predicted_size_of (_rule_based_prediction m) = Some "XS"%string) /\
  (forall x, m !! "shoulder_width" = Some (VFloat x) ->
   PrimFloat.is_nan x = true ->
   predicted_size_of (_rule_based_prediction m) = Some "XXL"%string).
Proof.
  rewrite predicted_size_of_rule. unfold shoulder_width_of.
  split; [|split].
  - by intros ->.
  - intros b ->. by destruct b.
  - intros x -> Hx. cbn [default from_option id]. unfold rule_size, py_lt_int.
    change (?a <.? ?b) with (PrimFloat.ltb a b).
    by rewrite !ltb_nan.
Qed.

Lemma rule_based_prediction_edge_cases_witness :
  predicted_size_of (_rule_based_prediction (shoulder (VFloat nan)))
  = Some "XXL"%string.
Proof.
  apply (proj2 (proj2 (rule_based_prediction_edge_cases (shoulder (VFloat nan)))) nan);
    reflexivity.
Defined.

(** X11.  [reverse_size_mapping] is the inverse of [size_mapping]: a class
    index maps to a label exactly when the label maps back to the index. *)
Theorem size_mapping_round_trip (k : Z) (size : string) :
  size_mapping !! k = Some size <-> reverse_size_mapping !! size = Some k.
Proof.
  assert (reverse_size_mapping
          = list_to_map [("XS"%string, 0); ("S"%string, 1); ("M"%string, 2);
                         ("L"%string, 3); ("XL"%string, 4); ("XXL"%string, 5)]) as ->
    by (vm_compute; reflexivity).
  unfold size_mapping. split.
  - intros Hk%elem_of_list_to_map_2.
    repeat (apply elem_of_cons in Hk as [[= -> ->]|Hk]; [vm_compute; reflexivity|]).
    by apply elem_of_nil in Hk.
  - intros Hk%elem_of_list_to_map_2.
    repeat (apply elem_of_cons in Hk as [[= -> ->]|Hk]; [vm_compute; reflexivity|]).
    by apply elem_of_nil in Hk.
Qed.

(** ** The fields and the failures of [predict_size] *)

(** X12.  The [measurements_used] of a result: on the rule-based paths it is
    the caller's mapping as it was passed; on the model path it is the
    normalised mapping, which has the same keys. *)
Theorem predict_size_measurements_used self (m : measurements) (thr : float) log r :
  predict_size self m thr = (log, Return r) ->
  (r !! "method" = Some (OStr "rule_based") /\
   r !! "measurements_used" = Some (ODict m)) \/
  (r !! "method" = None /\
   exists n, normalize_measurements m 170%float = Return n /\
             r !! "measurements_used" = Some (ODict n) /\
             forall key, is_Some (n !! key) <-> is_Some (m !! key)).
Proof.
  unfold predict_size.
  assert (forall r, _rule_based_prediction m = Return r ->
            r !! "method" = Some (OStr "rule_based") /\
            r !! "measurements_used" = Some (ODict m)) as Hrule.
  { by intros r' (size & _ & _ & _ & Hm & Hu & _)%rule_based_prediction_Return. }
  destruct (model self) as [clf|]; [|intros [= <- Hr]; left; by apply Hrule].
  destruct (try_block clf (scaler self) m thr) as [[log' r']|e] eqn:Htry;
    [|intros [= <- Hr]; left; by apply Hrule].
  intros [= <- <-]. right.
  apply try_block_Return in Htry
    as (n & a & a' & c & conf & ap & size & Hn & _ & _ & _ & _ & _ & ->).
  split; [done|]. exists n. split; [exact Hn|]. split; [done|].
  intros key.
  apply normalize_measurements_Return in Hn as (px & factor & _ & _ & Hn).
  pose proof (normalize_loop_inv factor m) as Hinv. rewrite Hn in Hinv.
  specialize (Hinv key). destruct (m !! key) as [v|].
  - destruct Hinv as (v' & _ & ->). split; eauto.
  - rewrite Hinv. split; by intros [? [=]].
Qed.

Lemma predict_size_measurements_used_witness :
  (hesitant_result !! "method" = Some (OStr "rule_based") /\
   hesitant_result !! "measurements_used" = Some (ODict example_measurements)) \/
  (hesitant_result !! "method" = None /\
   exists n, normalize_measurements example_measurements 170%float = Return n /\
             hesitant_result !! "measurements_used" = Some (ODict n) /\
             forall key, is_Some (n !! key) <-> is_Some (example_measurements !! key)).
Proof.
  apply (predict_size_measurements_used hesitant_estimator example_measurements
           default_threshold [warning_low_confidence 0.5%float] hesitant_result).
  vm_compute. reflexivity.
Defined.

(** X13.  When normalisation, feature extraction and scaling go through and
    the classifier names a class that [size_mapping] does not have, the
    lookup raises [KeyError] inside the [try] block: [predict_size] logs it
    and answers with the rule-based prediction. *)
Theorem predict_size_unknown_class
    self clf (m n : measurements) (thr : float) a a' :
  model self = Some clf ->
  normalize_measurements m 170%float = Return n ->
  extract_features n = Return a ->
  match scaler self with Some transform => transform a | None => Return a end
  = Return a' ->
  unknown_class clf a' ->
  predict_size self m thr
  = ([error_in_prediction KeyError], _rule_based_prediction m).
Proof.
  intros Hm Hn Ha Ha' Hc. apply (predict_size_Raise self clf); [done|].
  rewrite (try_block_infer clf (scaler self) m n thr a a' Hn Ha Ha').
  destruct clf as [pp|p]; cbn [unknown_class infer] in Hc |- *.
  - destruct Hc as (probs & rows & i & -> & Hi & [c Hc] & Hge).
    cbn [mbind exc_bind first]. rewrite Hi. cbn [mbind exc_bind]. rewrite Hc.
    cbn [mbind exc_bind]. rewrite size_mapping_getitem_unknown by lia. done.
  - destruct Hc as (label & labels & -> & Hl). cbn [mbind exc_bind first].
    destruct label as [|b|z|x|s]; try done.
    by rewrite size_mapping_getitem_unknown.
Qed.

Lemma predict_size_unknown_class_witness :
  predict_size seven_classes_estimator shoulder_only default_threshold
  = ([error_in_prediction KeyError], _rule_based_prediction shoulder_only).
Proof.
  apply (predict_size_unknown_class seven_classes_estimator seven_classes
           shoulder_only {[ "shoulder_width" := VFloat 203.99999999999997%float ]}
           default_threshold
           [[VFloat 203.99999999999997%float; VFloat 224.39999999999998%float;
             VFloat 152.99999999999997%float; VFloat 0%float; VFloat 0%float;
             VFloat 0%float]]
           [[VFloat 203.99999999999997%float; VFloat 224.39999999999998%float;
             VFloat 152.99999999999997%float; VFloat 0%float; VFloat 0%float;
             VFloat 0%float]]).
  - reflexivity.
  - vm_compute. reflexivity.
  - vm_compute. reflexivity.
  - reflexivity.
  - exists [0; 0; 0; 0; 0; 0.25; 0.75]%float, [], 6%nat.
    split; [reflexivity|]. split; [vm_compute; reflexivity|].
    split; [by eexists | lia].
Defined.

(** ** The arg-max and the confidence *)

Section ArgMax.

(** [argmax_from] returns the first index that holds a largest element. *)
Lemma argmax_from_first (l pre : list float) (mp : float) (k : nat) :
  Forall not_nan (mp :: l) ->
  pre !! k = Some mp ->
  (forall j p, (j < k)%nat -> pre !! j = Some p -> (p <? mp)%float = true) ->
  Forall (fun p => (p <=? mp)%float = true) pre ->
  exists c,
    (pre ++ l) !! argmax_from mp k (length pre) l = Some c /\
    forall j p, (j < argmax_from mp k (length pre) l)%nat ->
                (pre ++ l) !! j = Some p -> (p <? c)%float = true.
Proof.
  revert pre mp k. induction l as [|x l IH]; intros pre mp k Hnan Hk Hlt Hmax.
  - exists mp. rewrite app_nil_r. done.
  - apply Forall_cons in Hnan as [Hmp Hnan]. pose proof Hnan as Hxl.
    apply Forall_cons in Hnan as [Hx Hl].
    cbn [argmax_from fis_nan fleb binary64]. rewrite Hmp.
    replace (pre ++ x :: l) with ((pre ++ [x]) ++ l) by by rewrite <- app_assoc.
    replace (S (length pre)) with (length (pre ++ [x]))
      by (rewrite length_app; cbn; lia).
    destruct (x <=? mp)%float eqn:Hle.
    + apply IH.
      * by apply Forall_cons.
      * by apply lookup_app_l_Some.
      * intros j p Hj Hp. apply (Hlt j p Hj).
        apply lookup_lt_Some in Hk.
        rewrite lookup_app_l in Hp by lia. done.
      * apply Forall_app. split; [done|]. by apply Forall_singleton.
    + assert ((mp <=? x)%float = true) as Hmx
        by (apply leb_total; [exact Hx | exact Hmp | exact Hle]).
      assert ((mp <? x)%float = true) as Hmlt by by apply leb_false_ltb.
      apply IH.
      * done.
      * by rewrite lookup_app_r, Nat.sub_diag.
      * intros j p Hj Hp. rewrite lookup_app_l in Hp by done.
        rewrite Forall_lookup in Hmax. specialize (Hmax j p Hp).
        exact (leb_ltb_trans p mp x Hmax Hmlt).
      * apply Forall_app. split.
        -- eapply Forall_impl; [exact Hmax|]. intros p Hp.
           exact (leb_trans p mp x Hp Hmx).
        -- apply Forall_singleton. apply leb_refl. exact Hx.
Qed.

Lemma np_argmax_first (probabilities : list float) (i : nat) :
  np_argmax probabilities = Return i ->
  Forall not_nan probabilities ->
  exists c,
    probabilities !! i = Some c /\
    forall j p, (j < i)%nat -> probabilities !! j = Some p -> (p <? c)%float = true.
Proof.
  destruct probabilities as [|x l]; [done|]. cbn [np_argmax].
  intros [= <-] Hnan.
  apply (argmax_from_first l [x] x 0); [done | done | intros j p Hj; lia |].
  apply Forall_singleton, leb_refl. apply Forall_cons in Hnan as [Hx _]. exact Hx.
Qed.

(** With a NaN in the array, [argmax_from] returns the index of one. *)
Lemma argmax_from_nan (l pre : list float) (mp : float) (k : nat) :
  Exists (fun p => PrimFloat.is_nan p = true) (mp :: l) ->
  pre !! k = Some mp ->
  exists c,
    (pre ++ l) !! argmax_from mp k (length pre) l = Some c /\
    PrimFloat.is_nan c = true.
Proof.
  revert pre mp k. induction l as [|x l IH]; intros pre mp k Hnan Hk.
  - apply Exists_cons in Hnan as [Hmp|Hnan]; [|by apply Exists_nil in Hnan].
    exists mp. by rewrite app_nil_r.
  - cbn [argmax_from fis_nan fleb binary64].
    destruct (PrimFloat.is_nan mp) eqn:Hmp.
    { exists mp. split; [|done]. by apply lookup_app_l_Some. }
    apply Exists_cons in Hnan as [Hmp'|Hnan]; [congruence|].
    replace (pre ++ x :: l) with ((pre ++ [x]) ++ l) by by rewrite <- app_assoc.
    replace (S (length pre)) with (length (pre ++ [x]))
      by (rewrite length_app; cbn; lia).
    destruct (x <=? mp)%float eqn:Hle.
    + apply IH.
      * apply Exists_cons in Hnan as [Hx|Hnan]; [|by apply Exists_cons_tl].
        exfalso. apply leb_key in Hle as (kx & _ & Hkx & _).
        apply is_nan_key in Hx. congruence.
      * by apply lookup_app_l_Some.
    + apply IH; [done|]. by rewrite lookup_app_r, Nat.sub_diag.
Qed.

Lemma np_argmax_nan (probabilities : list float) (i : nat) :
  np_argmax probabilities = Return i ->
  Exists (fun p => PrimFloat.is_nan p = true) probabilities ->
  exists c, probabilities !! i = Some c /\ PrimFloat.is_nan c = true.
Proof.
  destruct probabilities as [|x l]; [done|]. cbn [np_argmax].
  intros [= <-] Hnan. by apply (argmax_from_nan l [x] x 0).
Qed.

(** A result that holds a probability vector came out of the [try] block. *)
Lemma predict_size_all_probabilities
    self (m : measurements) (thr : float) log r probabilities :
  predict_size self m thr = (log, Return r) ->
  r !! "all_probabilities" = Some (OList probabilities) ->
  exists i conf size,
    np_argmax probabilities = Return i /\
    probabilities !! i = Some conf /\
    size_mapping !! Z.of_nat i = Some size /\
    r !! "predicted_size" = Some (OStr size) /\
    r !! "confidence" = Some (OFloat conf) /\
    log = if (conf <? thr)%float then [warning_low_confidence conf] else [].
Proof.
  unfold predict_size. intros Hp Hall.
  assert (forall r', _rule_based_prediction m = Return r' ->
                     r' !! "all_probabilities" = None) as Hrule.
  { by intros r' (size & _ & _ & _ & _ & _ & Ha)%rule_based_prediction_Return. }
  destruct (model self) as [clf|];
    [|injection Hp as _ Hr; apply Hrule in Hr; congruence].
  destruct (try_block clf (scaler self) m thr) as [[log' r']|e] eqn:Htry;
    [|injection Hp as _ Hr; apply Hrule in Hr; congruence].
  injection Hp as -> ->.
  apply try_block_Return in Htry
    as (nm & a & a' & c & conf & ap & size & _ & _ & _ & Hi & Hs & -> & ->).
  rewrite lookup_insert_ne, lookup_insert_ne, lookup_insert_eq in Hall by done.
  injection Hall as ->.
  destruct clf as [pp|p]; [|by apply infer_HardLabel in Hi as (_ & [=] & _)].
  apply infer_WithProba in Hi as (rows & probs & i & _ & _ & Ha & Hc & -> & [= <-]).
  exists i, conf, size. repeat (split; [done || by apply size_mapping_getitem_int|]).
  done.
Qed.

End ArgMax.

(** X14.  Among classes that share the highest probability, the first one,
    that is the smallest size, is predicted: in a result that holds a
    probability vector without NaN, the confidence is the probability of
    the predicted class, no probability of the vector is above it, and
    every class before the predicted one has a probability strictly below
    it. *)
Theorem predict_size_first_maximum
    self (m : measurements) (thr : float) log r probabilities :
  predict_size self m thr = (log, Return r) ->
  r !! "all_probabilities" = Some (OList probabilities) ->
  Forall not_nan probabilities ->
  exists i conf size,
    probabilities !! i = Some conf /\
    size_mapping !! Z.of_nat i = Some size /\
    r !! "predicted_size" = Some (OStr size) /\
    r !! "confidence" = Some (OFloat conf) /\
    Forall (fun p => (p <=? conf)%float = true) probabilities /\
    forall j p, (j < i)%nat -> probabilities !! j = Some p ->
                (p <? conf)%float = true.
Proof.
  intros Hp Hall Hnan.
  destruct (predict_size_all_probabilities self m thr log r probabilities Hp Hall)
    as (i & conf & size & Ha & Hc & Hs & Hps & Hconf & _).
  exists i, conf, size. repeat (split; [done|]).
  destruct (np_argmax_first probabilities i Ha Hnan) as (c' & Hc' & Hlt).
  destruct (np_argmax_max probabilities i Ha Hnan) as (c'' & Hc'' & Hmax).
  replace conf with c' by congruence. split; [|done].
  by replace c' with c'' by congruence.
Qed.

Lemma predict_size_first_maximum_witness :
  exists i conf size,
    [0.25; 0.375; 0.375; 0; 0; 0]%float !! i = Some conf /\
    size_mapping !! Z.of_nat i = Some size /\
    tied_result !! "predicted_size" = Some (OStr size) /\
    tied_result !! "confidence" = Some (OFloat conf) /\
    Forall (fun p => (p <=? conf)%float = true) [0.25; 0.375; 0.375; 0; 0; 0]%float /\
    forall j p, (j < i)%nat -> [0.25; 0.375; 0.375; 0; 0; 0]%float !! j = Some p ->
                (p <? conf)%float = true.
Proof.
  apply (predict_size_first_maximum tied_estimator example_measurements
           default_threshold tied_run.1 tied_result
           [0.25; 0.375; 0.375; 0; 0; 0]%float).
  - vm_compute. reflexivity.
  - vm_compute. reflexivity.
  - repeat (apply Forall_cons; split; [reflexivity|]). by apply Forall_nil.
Defined.

(** X15.  A NaN among the probabilities: the confidence of the result is
    NaN, and no low-confidence warning is logged, whatever the threshold
    is. *)
Theorem predict_size_nan_probability
    self (m : measurements) (thr : float) log r probabilities :
  predict_size self m thr = (log, Return r) ->
  r !! "all_probabilities" = Some (OList probabilities) ->
  Exists (fun p => PrimFloat.is_nan p = true) probabilities ->
  exists conf,
    r !! "confidence" = Some (OFloat conf) /\
    PrimFloat.is_nan conf = true /\
    log = [].
Proof.
  intros Hp Hall Hnan.
  destruct (predict_size_all_probabilities self m thr log r probabilities Hp Hall)
    as (i & conf & size & Ha & Hc & Hs & Hps & Hconf & ->).
  destruct (np_argmax_nan probabilities i Ha Hnan) as (c' & Hc' & Hnanc).
  replace c' with conf in Hnanc by congruence.
  exists conf. split; [done|]. split; [done|].
  by rewrite ltb_nan.
Qed.

Lemma predict_size_nan_probability_witness :
  exists conf,
    nan_result !! "confidence" = Some (OFloat conf) /\
    PrimFloat.is_nan conf = true /\
    nan_run.1 = [].
Proof.
  apply (predict_size_nan_probability nan_estimator example_measurements
           default_threshold nan_run.1 nan_result
           [0.5; nan; 0.25; 0; 0; 0]%float).
  - vm_compute. reflexivity.
  - vm_compute. reflexivity.
  - apply Exists_cons_tl, Exists_cons_hd. reflexivity.
Defined.

(** ** [_get_feature_importance] *)

Section DictZip.
Context {A : Type}.
Implicit Types (d : gmap string A) (keys : list string) (values : list A).

Lemma foldl_insert_notin d keys values name :
  name ∉ keys ->
  foldl (fun d kv => <[kv.1 := kv.2]> d) d (zip keys values) !! name = d !! name.
Proof.
  revert d values. induction keys as [|k keys IH]; intros d values Hn; [done|].
  destruct values as [|v values]; [done|]. cbn [zip zip_with foldl fst snd].
  apply not_elem_of_cons in Hn as [Hk Hn]. rewrite IH by done.
  by rewrite lookup_insert_ne.
Qed.

Lemma foldl_insert_lookup d keys values i name :
  NoDup keys -> keys !! i = Some name ->
  foldl (fun d kv => <[kv.1 := kv.2]> d) d (zip keys values) !! name
  = match values !! i with Some v => Some v | None => d !! name end.
Proof.
  revert d values i. induction keys as [|k keys IH]; intros d values i Hnd Hi; [done|].
  apply NoDup_cons in Hnd as [Hk Hnd].
  destruct values as [|v values]; [done|]. cbn [zip zip_with foldl fst snd].
  destruct i as [|i]; cbn in Hi |- *.
  - injection Hi as ->. rewrite foldl_insert_notin by done. by rewrite lookup_insert_eq.
  - rewrite (IH _ _ i) by done. destruct (values !! i); [done|].
    rewrite lookup_insert_ne; [done|]. intros ->. apply Hk.
    by apply list_elem_of_lookup_2 in Hi.
Qed.

Lemma dict_zip_lookup keys values i name :
  NoDup keys -> keys !! i = Some name ->
  dict_zip keys values !! name = values !! i.
Proof.
  intros Hnd Hi. unfold dict_zip. rewrite (foldl_insert_lookup _ _ _ i) by done.
  by destruct (values !! i).
Qed.

Lemma dict_zip_notin keys values name :
  name ∉ keys -> dict_zip keys values !! name = None.
Proof. intros Hn. unfold dict_zip. by rewrite foldl_insert_notin. Qed.

End DictZip.

Lemma feature_names_NoDup : NoDup feature_names.
Proof. compute_done. Qed.

(** X16.  The dict of [_get_feature_importance] pairs the feature names
    with the importances by position and stops at the shorter of the two:
    the [i]-th name maps to the [i]-th importance when there is one and is
    absent otherwise, and no other key occurs.  The importances are
    [feature_importances_] when the model has them, and else the absolute
    values of the first row of [coef_]. *)
Theorem get_feature_importance_entries (mdl : fitted_attributes) :
  (forall importance,
      feature_importances_ mdl = Some importance ->
      exists r,
        _get_feature_importance (Some mdl) = Return r /\
        (forall i name, feature_names !! i = Some name ->
                        r !! name = importance !! i) /\
        (forall name, name ∉ feature_names -> r !! name = None)) /\
  (forall row rows,
      feature_importances_ mdl = None ->
      coef_ mdl = Some (row :: rows) ->
      exists r,
        _get_feature_importance (Some mdl) = Return r /\
        (forall i name, feature_names !! i = Some name ->
                        r !! name = PrimFloat.abs <$> row !! i) /\
        (forall name, name ∉ feature_names -> r !! name = None)).
Proof.
  split.
  - intros importance Hi. eexists. cbn [_get_feature_importance]. rewrite Hi.
    split; [reflexivity|]. split.
    + intros i name Hn. apply dict_zip_lookup; [apply feature_names_NoDup | done].
    + intros name Hn. by apply dict_zip_notin.
  - intros row rows Hi Hc. eexists. cbn [_get_feature_importance]. rewrite Hi, Hc.
    split; [reflexivity|]. split.
    + intros i name Hn. rewrite <- list_lookup_fmap.
      apply dict_zip_lookup; [apply feature_names_NoDup | done].
    + intros name Hn. by apply dict_zip_notin.
Qed.

Lemma get_feature_importance_entries_witness :
  exists r,
    _get_feature_importance (Some four_importances) = Return r /\
    (forall i name, feature_names !! i = Some name ->
                    r !! name = [0.4; 0.3; 0.2; 0.1]%float !! i) /\
    (forall name, name ∉ feature_names -> r !! name = None).
Proof.
  apply (proj1 (get_feature_importance_entries four_importances)
           [0.4; 0.3; 0.2; 0.1]%float).
  reflexivity.
Defined.

(** ** [generate_synthetic_data] *)

Section SyntheticFacts.
Context {rng : Type}.
Variable choice : list string -> rng -> string * rng.
Variable uniform : float -> float -> rng -> float * rng.

Lemma synthetic_row_rule g row g' :
  chooses_element choice -> half_open uniform ->
  synthetic_row choice uniform g = Return (row, g') ->
  rule_agrees row.
Proof.
  intros Hchoice Huniform. unfold synthetic_row, rule_agrees.
  pose proof (Hchoice (size_stats.*1) g) as Hin.
  destruct (choice (size_stats.*1) g) as [size g1]. cbn [fst] in Hin.
  specialize (Hin ltac:(done)). cbn in Hin.
  repeat (apply elem_of_cons in Hin as [->|Hin]);
    [..|by apply elem_of_nil in Hin];
    cbn [size_stats_getitem size_stats List.find String.eqb Ascii.eqb Bool.eqb
         fst snd mbind exc_bind shoulder_range chest_range waist_range hip_range];
    match goal with |- context [uniform ?lo ?hi g1] =>
      pose proof (Huniform lo hi g1 eq_refl) as [Hlo Hhi];
      destruct (uniform lo hi g1) as [sw g2] end;
    repeat match goal with |- context [uniform ?lo ?hi ?g] =>
      destruct (uniform lo hi g) as [? ?] end;
    cbn [fst] in Hlo, Hhi;
    intros [= <- _]; eexists; (split; [reflexivity|]);
    rewrite predicted_size_of_rule; unfold shoulder_width_of;
    change (default _ _) with (VFloat sw);
    unfold rule_size, py_lt_int;
    change (?a <.? ?b) with (PrimFloat.ltb a b).
  all: change (f_of_Z 35) with 35%float; change (f_of_Z 40) with 40%float;
       change (f_of_Z 45) with 45%float; change (f_of_Z 50) with 50%float;
       change (f_of_Z 55) with 55%float.
  - by rewrite Hhi.
  - rewrite (leb_not_ltb _ _ Hlo), Hhi. done.
  - rewrite (leb_leb_not_ltb 40 sw 35 Hlo eq_refl), (leb_not_ltb _ _ Hlo), Hhi. done.
  - rewrite (leb_leb_not_ltb 45 sw 35 Hlo eq_refl),
      (leb_leb_not_ltb 45 sw 40 Hlo eq_refl), (leb_not_ltb _ _ Hlo), Hhi. done.
  - rewrite (leb_leb_not_ltb 50 sw 35 Hlo eq_refl),
      (leb_leb_not_ltb 50 sw 40 Hlo eq_refl),
      (leb_leb_not_ltb 50 sw 45 Hlo eq_refl), (leb_not_ltb _ _ Hlo), Hhi. done.
  - rewrite (leb_leb_not_ltb 55 sw 35 Hlo eq_refl),
      (leb_leb_not_ltb 55 sw 40 Hlo eq_refl),
      (leb_leb_not_ltb 55 sw 45 Hlo eq_refl),
      (leb_leb_not_ltb 55 sw 50 Hlo eq_refl), (leb_not_ltb _ _ Hlo). done.
Qed.

Lemma synthetic_row_returns g :
  chooses_element choice -> returns (synthetic_row choice uniform g).
Proof.
  intros Hchoice. unfold synthetic_row, returns.
  pose proof (Hchoice (size_stats.*1) g) as Hin.
  destruct (choice (size_stats.*1) g) as [size g1]. cbn [fst] in Hin.
  specialize (Hin ltac:(done)). cbn in Hin.
  repeat (apply elem_of_cons in Hin as [->|Hin]);
    [..|by apply elem_of_nil in Hin];
    cbn [size_stats_getitem size_stats List.find String.eqb Ascii.eqb Bool.eqb
         fst snd mbind exc_bind shoulder_range chest_range waist_range hip_range];
    repeat match goal with |- context [uniform ?lo ?hi ?g] =>
      destruct (uniform lo hi g) as [? ?] end;
    by eexists.
Qed.

Lemma synthetic_rows_rule n g :
  chooses_element choice -> half_open uniform ->
  exists rows,
    synthetic_rows choice uniform n g = Return rows /\
    length rows = n /\
    Forall rule_agrees rows.
Proof.
  intros Hchoice Huniform. revert g. induction n as [|n IH]; intros g.
  - exists []. by repeat split.
  - cbn [synthetic_rows].
    destruct (synthetic_row_returns g Hchoice) as [[row g'] Hrow]. rewrite Hrow.
    cbn [mbind exc_bind]. destruct (IH g') as (rows & -> & Hlen & Hall).
    exists (row :: rows). cbn [mbind exc_bind length].
    split; [done|]. split; [by f_equal|].
    apply Forall_cons. split; [|done].
    by apply (synthetic_row_rule g row g').
Qed.

End SyntheticFacts.

(** X17.  The synthetic data and the rule-based prediction agree.  Provided
    [choice] returns an element of its argument and every draw of
    [uniform(low, high)] lies in the half-open interval from [low] to
    [high], [generate_synthetic_data] returns [n_samples] rows (none for a
    negative number), and the rule-based prediction of every row is the
    size the row is labelled with. *)
Theorem generate_synthetic_data_rule_agrees
    {rng} (seed : Z -> rng) choice uniform (n_samples : Z) :
  chooses_element choice -> half_open uniform ->
  exists rows,
    generate_synthetic_data seed choice uniform n_samples = Return rows /\
    length rows = Z.to_nat n_samples /\
    Forall rule_agrees rows.
Proof. intros Hc Hu. by apply synthetic_rows_rule. Qed.

Lemma first_choice_chooses_element : chooses_element first_choice.
Proof. intros [|s l] g Hl; [done|]. cbn. by left. Qed.

Lemma lowest_draw_half_open : half_open lowest_draw.
Proof.
  intros low high g Hlt. cbn. split; [|done].
  apply leb_refl. by apply (ltb_not_nan low high).
Qed.

Lemma generate_synthetic_data_rule_agrees_witness :
  exists rows,
    generate_synthetic_data zero_seed first_choice lowest_draw 3 = Return rows /\
    length rows = 3%nat /\
    Forall rule_agrees rows.
Proof.
  apply (generate_synthetic_data_rule_agrees zero_seed first_choice lowest_draw 3).
  - exact first_choice_chooses_element.
  - exact lowest_draw_half_open.
Defined.

(** ** [__init__], [load_model], [load_scaler] and [save_model] *)

Section PersistenceFacts.
Context {filesystem object : Type}.
Variable path_exists : filesystem -> string -> bool.
Variable joblib_load : filesystem -> string -> exc (option object).

(** What [__init__] leaves in [self.model]. *)
Lemma init_model fs model_path scaler_path :
  Persistence.model
    (Persistence.__init__ path_exists joblib_load fs model_path scaler_path).2
  = match Persistence.path_given model_path with
    | Some p => if path_exists fs p
                then match joblib_load fs p with
                     | Return obj => obj
                     | Raise _ => None
                     end
                else None
    | None => None
    end.
Proof.
  unfold Persistence.__init__, Persistence.load_model, Persistence.load_scaler.
  destruct (Persistence.path_given model_path) as [p|],
    (Persistence.path_given scaler_path) as [q|]; cbn;
    repeat match goal with
           | |- context [path_exists fs ?p] => destruct (path_exists fs p); cbn
           | |- context [joblib_load fs ?p] => destruct (joblib_load fs p); cbn
           end; done.
Qed.

(** What [__init__] leaves in [self.scaler]. *)
Lemma init_scaler fs model_path scaler_path :
  Persistence.scaler
    (Persistence.__init__ path_exists joblib_load fs model_path scaler_path).2
  = match Persistence.path_given scaler_path with
    | Some p => if path_exists fs p
                then match joblib_load fs p with
                     | Return obj => obj
                     | Raise _ => None
                     end
                else None
    | None => None
    end.
Proof.
  unfold Persistence.__init__, Persistence.load_model, Persistence.load_scaler.
  destruct (Persistence.path_given model_path) as [p|],
    (Persistence.path_given scaler_path) as [q|]; cbn;
    repeat match goal with
           | |- context [path_exists fs ?p] => destruct (path_exists fs p) eqn:?; cbn
           | |- context [joblib_load fs ?p] => destruct (joblib_load fs p) eqn:?; cbn
           end; try done; congruence.
Qed.

End PersistenceFacts.

(** X18.  After [__init__], [self.model] is [None] exactly when no model
    path was given, the path is the empty string, the file does not exist,
    loading it raised (the error is logged and not raised), or what was
    loaded is [None].  In each of these cases [predict_size] answers with
    the rule-based prediction. *)
Theorem init_without_model
    {filesystem object : Type} path_exists joblib_load truth predictor transformer
    (fs : filesystem) model_path scaler_path log
    (self : Persistence.attributes object) :
  Persistence.__init__ path_exists joblib_load fs model_path scaler_path
  = (log, self) ->
  (Persistence.model self = None
   <-> ~ loadable path_exists joblib_load fs model_path) /\
  (~ loadable path_exists joblib_load fs model_path ->
   forall (m : measurements) (thr : float),
     predict_size (estimator_of truth predictor transformer self) m thr
     = ([warning_no_model], _rule_based_prediction m)).
Proof.
  intros Hinit.
  assert (Persistence.model self = None
          <-> ~ loadable path_exists joblib_load fs model_path) as Hiff.
  { replace self
      with (Persistence.__init__ path_exists joblib_load fs model_path scaler_path).2
      by by rewrite Hinit.
    rewrite init_model. unfold loadable.
    destruct (Persistence.path_given model_path) as [p|].
    - destruct (path_exists fs p) eqn:He.
      + destruct (joblib_load fs p) as [[obj|]|e] eqn:Hl.
        * split; [done|]. intros Hn. exfalso. apply Hn. by exists p, obj.
        * split; [|done]. intros _ (s & obj & [= <-] & _ & ?). congruence.
        * split; [|done]. intros _ (s & obj & [= <-] & _ & ?). congruence.
      + split; [|done]. intros _ (s & obj & [= <-] & ? & _). congruence.
    - split; [|done]. by intros _ (s & obj & [=] & _). }
  split; [exact Hiff|]. intros Hn%Hiff m thr.
  apply predict_size_None. cbn. by rewrite Hn.
Qed.

Lemma init_without_model_witness :
  (Persistence.model
     {| Persistence.model := None; Persistence.scaler := @None nat |} = None
   <-> ~ loadable dict_exists dict_load ∅ (Some "model.pkl"%string)) /\
  (~ loadable dict_exists dict_load ∅ (Some "model.pkl"%string) ->
   forall (m : measurements) (thr : float),
     predict_size
       (estimator_of always_true (fun _ => hesitant_classifier) (fun _ a => Return a)
          {| Persistence.model := None; Persistence.scaler := @None nat |}) m thr
     = ([warning_no_model], _rule_based_prediction m)).
Proof.
  apply (init_without_model dict_exists dict_load always_true
           (fun _ => hesitant_classifier) (fun _ a => Return a)
           ∅ (Some "model.pkl"%string) None []).
  reflexivity.
Defined.

(** X19.  Saving and loading again.  With a file system where what is
    dumped can be loaded again and no other file changes, an estimator
    whose model and scaler are both true objects, saved under two
    non-empty paths, is found again by [__init__] with the same paths:
    the same model and the same scaler when the paths differ.  When the two
    paths are the same, the scaler has overwritten the model, and
    [__init__] loads the scaler as the model too. *)
Theorem save_model_then_init
    {filesystem object : Type} path_exists joblib_load joblib_dump truth
    (self : Persistence.attributes object) (fs fs' : filesystem)
    model_path scaler_path log mdl scl :
  dump_then_load path_exists joblib_load joblib_dump ->
  Persistence.model self = Some mdl -> truth mdl = true ->
  Persistence.scaler self = Some scl -> truth scl = true ->
  model_path <> ""%string -> scaler_path <> ""%string ->
  Persistence.save_model joblib_dump truth self fs model_path (Some scaler_path)
  = Return (log, fs') ->
  (Persistence.__init__ path_exists joblib_load fs'
     (Some model_path) (Some scaler_path)).2
  = {| Persistence.model :=
         Some (if decide (model_path = scaler_path) then scl else mdl);
       Persistence.scaler := Some scl |}.
Proof.
  intros Hrt Hm Htm Hs Hts Hmp Hsp.
  unfold Persistence.save_model. rewrite Hm, Hs. cbn [Persistence.holds].
  rewrite Htm, Hts. cbn [Persistence.path_given].
  rewrite (proj2 (String.eqb_neq _ _) Hsp).
  destruct (joblib_dump mdl model_path fs) as [fs1|e] eqn:Hd1; [|done].
  cbn [mbind exc_bind mret exc_ret].
  destruct (joblib_dump scl scaler_path fs1) as [fs2|e] eqn:Hd2; [|done].
  cbn [mbind exc_bind mret exc_ret]. intros [= _ <-].
  destruct (Hrt _ _ _ _ Hd1) as (He1 & Hl1 & _).
  destruct (Hrt _ _ _ _ Hd2) as (He2 & Hl2 & Hother).
  assert (path_exists fs2 model_path = true /\
          joblib_load fs2 model_path
          = Return (Some (if decide (model_path = scaler_path) then scl else mdl)))
    as [He Hl].
  { destruct (decide (model_path = scaler_path)) as [->|Hne]; [done|].
    destruct (Hother model_path Hne) as [-> ->]. done. }
  pose proof (init_model path_exists joblib_load fs2
                (Some model_path) (Some scaler_path)) as Him.
  pose proof (init_scaler path_exists joblib_load fs2
                (Some model_path) (Some scaler_path)) as His.
  cbn [Persistence.path_given] in Him, His.
  rewrite (proj2 (String.eqb_neq _ _) Hmp), He, Hl in Him.
  rewrite (proj2 (String.eqb_neq _ _) Hsp), He2, Hl2 in His.
  destruct (Persistence.__init__ _ _ _ _ _).2 as [im isc]. cbn in Him, His.
  by subst.
Qed.

Lemma dict_dump_then_load : dump_then_load dict_exists dict_load dict_dump.
Proof.
  intros obj p fs fs' [= <-]. unfold dict_exists, dict_load.
  rewrite lookup_insert_eq. split; [by apply bool_decide_eq_true_2|].
  split; [done|]. intros q Hq. by rewrite lookup_insert_ne.
Qed.

Lemma save_model_then_init_witness :
  (Persistence.__init__ dict_exists dict_load
     (<["scaler.pkl" := 2%nat]> (<["model.pkl" := 1%nat]> ∅))
     (Some "model.pkl"%string) (Some "scaler.pkl"%string)).2
  = {| Persistence.model :=
         Some (if decide ("model.pkl"%string = "scaler.pkl"%string)
               then 2%nat else 1%nat);
       Persistence.scaler := Some 2%nat |}.
Proof.
  apply (save_model_then_init dict_exists dict_load dict_dump always_true
           trained ∅ (<["scaler.pkl" := 2%nat]> (<["model.pkl" := 1%nat]> ∅))
           "model.pkl" "scaler.pkl"
           [Persistence.info_model_saved "model.pkl";
            Persistence.info_scaler_saved "scaler.pkl"] 1%nat 2%nat).
  - exact dict_dump_then_load.
  - reflexivity.
  - reflexivity.
  - reflexivity.
  - reflexivity.
  - done.
  - done.
  - reflexivity.
Defined.

(** * Properties of the pose detector *)

Local Ltac in_list := repeat (apply elem_of_cons; first [by left | right]).
Local Ltac not_in_list H :=
  repeat (apply elem_of_cons in H as [[=]|H]); by apply elem_of_nil in H.

Section KeyPoints.
Implicit Types (landmarks : list PoseDetector.landmark)
               (items : list (string * nat)).

(** The loop of [extract_key_points] over names that are all different. *)
Lemma foldl_key_point landmarks items acc name lm :
  NoDup items.*1 ->
  foldl (PoseDetector.key_point landmarks) acc items !! name = Some lm <->
  (exists index, (name, index) ∈ items /\ landmarks !! index = Some lm /\
                 (0.5 <? PoseDetector.visibility lm)%float = true) \/
  ((forall index, (name, index) ∈ items ->
      forall lm', landmarks !! index = Some lm' ->
                  (0.5 <? PoseDetector.visibility lm')%float = false) /\
   acc !! name = Some lm).
Proof.
  revert acc. induction items as [|[k i] items IH]; intros acc Hnd.
  - cbn. split; [intros ?; right; split; [|done]; by intros ? ?%elem_of_nil|].
    by intros [(? & ?%elem_of_nil & _)|[_ ?]].
  - apply NoDup_cons in Hnd as [Hk Hnd]. cbn [foldl]. rewrite IH by done.
    assert (forall index, (k, index) ∉ items) as Hk'.
    { intros index Hin. apply Hk. apply list_elem_of_fmap. by exists (k, index). }
    unfold PoseDetector.key_point. cbn [fst snd]. split.
    + intros [(index & Hin & Hl & Hv)|[Hnone Hacc]].
      * left. exists index. split; [by right | done].
      * destruct (landmarks !! i) as [lmi|] eqn:Hi.
        -- destruct (0.5 <? PoseDetector.visibility lmi)%float eqn:Hv.
           ++ destruct (decide (k = name)) as [->|Hne].
              ** rewrite lookup_insert_eq in Hacc. injection Hacc as ->.
                 left. exists i. split; [by left | done].
              ** rewrite lookup_insert_ne in Hacc by done. right. split; [|done].
                 intros index [[= ? ?]|Hin]%elem_of_cons; [congruence | by apply Hnone].
           ++ right. split; [|done].
              intros index [[= -> ->]|Hin]%elem_of_cons; [|by apply Hnone].
              intros lm'. rewrite Hi. by intros [= <-].
        -- right. split; [|done].
           intros index [[= -> ->]|Hin]%elem_of_cons; [|by apply Hnone].
           intros lm'. by rewrite Hi.
    + intros [(index & [[= -> ->]|Hin]%elem_of_cons & Hl & Hv)|[Hnone Hacc]].
      * right. split.
        -- intros index Hin. exfalso. by apply (Hk' index).
        -- by rewrite Hl, Hv, lookup_insert_eq.
      * left. by exists index.
      * right. split; [intros index Hin; apply Hnone; by right|].
        destruct (landmarks !! i) as [lmi|] eqn:Hi; [|done].
        destruct (0.5 <? PoseDetector.visibility lmi)%float eqn:Hv; [|done].
        rewrite lookup_insert_ne; [done|]. intros ->.
        specialize (Hnone i ltac:(by left) lmi Hi). congruence.
Qed.

Lemma key_landmarks_NoDup : NoDup PoseDetector.key_landmarks.*1.
Proof. compute_done. Qed.

End KeyPoints.

(** A key point is a visible landmark at the index of its name. *)
Lemma extract_key_points_lookup
    (landmarks : list PoseDetector.landmark) name lm :
  PoseDetector.extract_key_points landmarks !! name = Some lm <->
  (33 <= length landmarks)%nat /\
  exists index,
    (name, index) ∈ PoseDetector.key_landmarks /\
    landmarks !! index = Some lm /\
    (0.5 <? PoseDetector.visibility lm)%float = true.
Proof.
  unfold PoseDetector.extract_key_points.
  destruct (length landmarks <? 33)%nat eqn:Hlen.
  - apply Nat.ltb_lt in Hlen. rewrite lookup_empty. split; [done|]. lia.
  - apply Nat.ltb_ge in Hlen. rewrite foldl_key_point by apply key_landmarks_NoDup.
    rewrite lookup_empty. split.
    + intros [?|[_ [=]]]. done.
    + intros [_ ?]. by left.
Qed.

(** X20.  [extract_key_points] returns a key point under a name exactly
    when there are at least 33 landmarks, the name is one of
    [key_landmarks], and the landmark at its index has a visibility above
    [0.5]; the key point is that landmark.  With fewer than 33 landmarks
    the result is empty. *)
Theorem extract_key_points_visible
    (landmarks : list PoseDetector.landmark) name lm :
  PoseDetector.extract_key_points landmarks !! name = Some lm <->
  (33 <= length landmarks)%nat /\
  exists index,
    (name, index) ∈ PoseDetector.key_landmarks /\
    landmarks !! index = Some lm /\
    (0.5 <? PoseDetector.visibility lm)%float = true.
Proof. apply extract_key_points_lookup. Qed.

Section BodyMeasurements.
Variable float_pow_2 : float -> exc float.
Implicit Types (ms : measurements) (s : PoseDetector.statement).

Lemma floats_under_assign names key value ms :
  key ∈ names -> floats_under names ms ->
  floats_under names (PoseDetector.assign key value ms).1.
Proof.
  intros Hk Hms. unfold PoseDetector.assign. destruct value as [v|e]; [|done].
  intros key' v'. cbn [fst]. destruct (decide (key = key')) as [<-|Hne].
  - rewrite lookup_insert_eq. intros [= <-]. eauto.
  - rewrite lookup_insert_ne by done. apply Hms.
Qed.

Lemma floats_under_then names s1 s2 ms :
  (forall ms, floats_under names ms -> floats_under names (s1 ms).1) ->
  (forall ms, floats_under names ms -> floats_under names (s2 ms).1) ->
  floats_under names ms -> floats_under names (PoseDetector.then_ s1 s2 ms).1.
Proof.
  intros H1 H2 Hms. unfold PoseDetector.then_. specialize (H1 ms Hms).
  destruct (s1 ms) as [ms' [e|]]; [done|]. by apply H2.
Qed.

Lemma floats_under_measured ms :
  floats_under measured_names ms -> floats_under body_measurement_names ms.
Proof.
  intros Hms key v Hk. destruct (Hms key v Hk) as [Hin Hv].
  split; [|done]. unfold body_measurement_names. apply elem_of_app. by left.
Qed.

(** The first four statements store floats under the measured names. *)
Lemma measured_statements key_points height width ms :
  floats_under measured_names ms ->
  floats_under measured_names
    (PoseDetector.then_ (PoseDetector.shoulder_width key_points width)
       (PoseDetector.then_ (PoseDetector.hip_width key_points width)
          (PoseDetector.then_ (PoseDetector.torso_length key_points height)
             (PoseDetector.arm_length float_pow_2 key_points height width))) ms).1.
Proof.
  intros Hms.
  repeat (apply floats_under_then; [| |done]; [|intros ? ?]).
  - unfold PoseDetector.shoulder_width. intros ms' Hms'.
    destruct (key_points !! "left_shoulder"), (key_points !! "right_shoulder");
      try done.
    apply floats_under_assign; [unfold measured_names; in_list | done].
  - unfold PoseDetector.hip_width. intros ms' Hms'.
    destruct (key_points !! "left_hip"), (key_points !! "right_hip"); try done.
    apply floats_under_assign; [unfold measured_names; in_list | done].
  - unfold PoseDetector.torso_length. intros ms' Hms'.
    destruct (key_points !! "left_shoulder"), (key_points !! "left_hip"); try done.
    apply floats_under_assign; [unfold measured_names; in_list | done].
  - unfold PoseDetector.arm_length.
    destruct (key_points !! "left_shoulder"), (key_points !! "left_wrist"); try done.
    apply floats_under_assign; [unfold measured_names; in_list | done].
Qed.

(** The last statement stores the waist width next to a shoulder width and
    a hip width, or nothing. *)
Lemma waist_width_statement ms :
  floats_under measured_names ms ->
  floats_under body_measurement_names (PoseDetector.waist_width ms).1 /\
  (forall w, (PoseDetector.waist_width ms).1 !! "waist_width" = Some w ->
     exists sw,
       (PoseDetector.waist_width ms).1 !! "shoulder_width" = Some (VFloat sw) /\
       is_Some ((PoseDetector.waist_width ms).1 !! "hip_width") /\
       w = VFloat (sw * 0.75)%float).
Proof.
  intros Hms.
  assert (ms !! "waist_width" = None) as Hnw.
  { destruct (ms !! "waist_width") as [w|] eqn:Hw; [|done].
    destruct (Hms _ _ Hw) as [Hin _]. unfold measured_names in Hin.
    not_in_list Hin. }
  pose proof (floats_under_measured ms Hms) as Hms'.
  unfold PoseDetector.waist_width.
  destruct (ms !! "shoulder_width") as [w|] eqn:Hsw;
    [|split; [done | cbn; by rewrite Hnw]].
  destruct (ms !! "hip_width") as [h|] eqn:Hh;
    [|split; [done | cbn; by rewrite Hnw]].
  destruct (Hms _ _ Hsw) as [_ [sw ->]].
  cbn [py_mul as_float mbind exc_bind PoseDetector.assign fst].
  split.
  - apply (floats_under_assign _ "waist_width" (Return _)); [|done].
    unfold body_measurement_names, measured_names. cbn [app]. in_list.
  - rewrite lookup_insert_eq. intros w [= <-]. exists sw.
    rewrite !lookup_insert_ne by done. rewrite Hsw, Hh. by repeat split.
Qed.

Lemma then_last s1 s2 s3 s4 s5 ms :
  PoseDetector.then_ s1 (PoseDetector.then_ s2 (PoseDetector.then_ s3
    (PoseDetector.then_ s4 s5))) ms
  = PoseDetector.then_ (PoseDetector.then_ s1 (PoseDetector.then_ s2
      (PoseDetector.then_ s3 s4))) s5 ms.
Proof.
  unfold PoseDetector.then_. destruct (s1 ms) as [? [?|]]; [done|].
  destruct (s2 _) as [? [?|]]; [done|]. destruct (s3 _) as [? [?|]]; [done|].
  by destruct (s4 _) as [? [?|]].
Qed.

Lemma calculate_body_measurements_inv key_points image_shape ms :
  (PoseDetector.calculate_body_measurements float_pow_2 key_points image_shape).2
  = ms ->
  floats_under body_measurement_names ms /\
  (forall w, ms !! "waist_width" = Some w ->
     exists sw, ms !! "shoulder_width" = Some (VFloat sw) /\
                is_Some (ms !! "hip_width") /\
                w = VFloat (sw * 0.75)%float).
Proof.
  destruct image_shape as [height width].
  unfold PoseDetector.calculate_body_measurements.
  assert (floats_under measured_names (∅ : measurements)) as H0
    by (intros ? ?; by rewrite lookup_empty).
  pose proof (measured_statements key_points height width ∅ H0) as H4.
  rewrite then_last. unfold PoseDetector.then_ at 1.
  destruct (PoseDetector.then_ _ _ ∅) as [ms4 [e|]]; cbn [fst snd] in *.
  - intros <-. split; [by apply floats_under_measured|].
    intros w Hw. destruct (H4 _ _ Hw) as [Hin _]. unfold measured_names in Hin.
    not_in_list Hin.
  - pose proof (waist_width_statement ms4 H4) as H5.
    destruct (PoseDetector.waist_width ms4) as [ms5 e']. cbn [fst snd] in *.
    by intros <-.
Qed.

End BodyMeasurements.

(** X21.  Whatever the key points and the image shape are, and whether or
    not its [try] block was cut short by an exception, the mapping of
    [calculate_body_measurements] holds floats only, under no other name
    than [shoulder_width], [hip_width], [torso_length], [arm_length] and
    [waist_width]: there is never a [chest_width].  A [waist_width] is
    there only next to a shoulder width and a hip width, and is [0.75]
    times the shoulder width. *)
Theorem calculate_body_measurements_floats
    float_pow_2 (key_points : gmap string PoseDetector.landmark)
    (image_shape : Z * Z) log (ms : measurements) :
  PoseDetector.calculate_body_measurements float_pow_2 key_points image_shape
  = (log, ms) ->
  floats_under body_measurement_names ms /\
  ms !! "chest_width" = None /\
  (forall w, ms !! "waist_width" = Some w ->
     exists sw, ms !! "shoulder_width" = Some (VFloat sw) /\
                is_Some (ms !! "hip_width") /\
                w = VFloat (sw * 0.75)%float).
Proof.
  intros Hc.
  destruct (calculate_body_measurements_inv float_pow_2 key_points image_shape ms)
    as [Hfl Hw]; [by rewrite Hc|].
  split; [exact Hfl|]. split; [|exact Hw].
  destruct (ms !! "chest_width") as [v|] eqn:Hk; [|done].
  destruct (Hfl _ _ Hk) as [Hin _].
  unfold body_measurement_names, measured_names in Hin. cbn [app] in Hin.
  not_in_list Hin.
Qed.

Lemma calculate_body_measurements_floats_witness :
  floats_under body_measurement_names facing_measurements /\
  facing_measurements !! "chest_width" = None /\
  (forall w, facing_measurements !! "waist_width" = Some w ->
     exists sw, facing_measurements !! "shoulder_width" = Some (VFloat sw) /\
                is_Some (facing_measurements !! "hip_width") /\
                w = VFloat (sw * 0.75)%float).
Proof.
  apply (calculate_body_measurements_floats square facing_key_points (480, 640)
           [] facing_measurements).
  vm_compute. reflexivity.
Defined.

(** X22.  The pose detector feeds the estimator what it can take: on the
    mapping of [calculate_body_measurements], [predict_size] returns a
    result, whatever the key points, the image shape, the model, the scaler
    and the threshold are. *)
Theorem predict_size_of_body_measurements
    float_pow_2 (key_points : gmap string PoseDetector.landmark)
    (image_shape : Z * Z) self (thr : float) :
  exists log r,
    predict_size self
      (PoseDetector.calculate_body_measurements float_pow_2 key_points
         image_shape).2 thr
    = (log, Return r).
Proof.
  destruct (calculate_body_measurements_inv float_pow_2 key_points image_shape
              _ eq_refl) as [Hfl _].
  apply predict_size_number.
  destruct (_ !! "shoulder_width") as [v|] eqn:Hk; [|done].
  by destruct (Hfl _ _ Hk) as [_ [f ->]].
Qed.

Section ShoulderWidth.
Variable float_pow_2 : float -> exc float.
Implicit Types (ms : measurements) (s : PoseDetector.statement).

Lemma assign_other key key' value ms :
  key <> key' -> (PoseDetector.assign key value ms).1 !! key' = ms !! key'.
Proof.
  intros Hne. unfold PoseDetector.assign. destruct value as [v|e]; [|done].
  cbn [fst]. by rewrite lookup_insert_ne.
Qed.

Lemma then_other s1 s2 key ms :
  (forall ms, (s2 ms).1 !! key = ms !! key) ->
  (PoseDetector.then_ s1 s2 ms).1 !! key = (s1 ms).1 !! key.
Proof.
  intros H2. unfold PoseDetector.then_. destruct (s1 ms) as [ms' [e|]]; [done|].
  apply H2.
Qed.

(** The shoulder width is stored by the first statement and by no other. *)
Lemma shoulder_width_stored key_points image_shape :
  (PoseDetector.calculate_body_measurements float_pow_2 key_points image_shape).2
    !! "shoulder_width"
  = (PoseDetector.shoulder_width key_points image_shape.2 ∅).1 !! "shoulder_width".
Proof.
  destruct image_shape as [height width].
  unfold PoseDetector.calculate_body_measurements.
  match goal with |- (let '(ms, e) := ?t in _).2 !! _ = _ =>
    replace ((let '(ms, e) := t in
              (match e with
               | Some e0 => [PoseDetector.error_calculating_measurements e0]
               | None => []
               end, ms)).2) with t.1 by by destruct t as [? [?|]] end.
  apply then_other. intros ms.
  rewrite then_other.
  { unfold PoseDetector.hip_width.
    destruct (key_points !! "left_hip"), (key_points !! "right_hip"); try done.
    by apply assign_other. }
  intros ms1. rewrite then_other.
  { unfold PoseDetector.torso_length.
    destruct (key_points !! "left_shoulder"), (key_points !! "left_hip"); try done.
    by apply assign_other. }
  intros ms2. rewrite then_other.
  { unfold PoseDetector.arm_length.
    destruct (key_points !! "left_shoulder"), (key_points !! "left_wrist"); try done.
    by apply assign_other. }
  intros ms3. unfold PoseDetector.waist_width.
  destruct (ms3 !! "shoulder_width") as [w|] eqn:Hs; [|exact Hs].
  destruct (ms3 !! "hip_width"); [|exact Hs].
  rewrite assign_other by done. exact Hs.
Qed.

End ShoulderWidth.

(** X23.  From the landmarks to the shoulder width: the mapping that
    [calculate_body_measurements] computes from the key points of
    [extract_key_points] holds a shoulder width only when there are at
    least 33 landmarks and the landmarks 11 and 12, the two shoulders, both
    have a visibility above [0.5]; it is then the distance of their [x]
    coordinates times the image width, in pixels. *)
Theorem shoulder_width_of_visible_landmarks
    float_pow_2 (landmarks : list PoseDetector.landmark) (height width : Z) v :
  (PoseDetector.calculate_body_measurements float_pow_2
     (PoseDetector.extract_key_points landmarks) (height, width)).2
    !! "shoulder_width" = Some v ->
  (33 <= length landmarks)%nat /\
  exists left_shoulder right_shoulder w,
    landmarks !! 11%nat = Some left_shoulder /\
    landmarks !! 12%nat = Some right_shoulder /\
    (0.5 <? PoseDetector.visibility left_shoulder)%float = true /\
    (0.5 <? PoseDetector.visibility right_shoulder)%float = true /\
    float_of_int width = Return w /\
    v = VFloat (abs (PoseDetector.x left_shoulder - PoseDetector.x right_shoulder)
                * w)%float.
Proof.
  rewrite shoulder_width_stored. cbn [snd]. unfold PoseDetector.shoulder_width.
  destruct (PoseDetector.extract_key_points landmarks !! "left_shoulder")
    as [l|] eqn:Hl; [|by intros [=]].
  destruct (PoseDetector.extract_key_points landmarks !! "right_shoulder")
    as [r|] eqn:Hr; [|by intros [=]].
  apply extract_key_points_lookup in Hl as (Hlen & il & Hil & Hll & Hvl).
  apply extract_key_points_lookup in Hr as (_ & ir & Hir & Hlr & Hvr).
  assert (il = 11%nat) as ->.
  { unfold PoseDetector.key_landmarks in Hil.
    repeat (apply elem_of_cons in Hil as [?|Hil]; [by simplify_eq|]).
    by apply elem_of_nil in Hil. }
  assert (ir = 12%nat) as ->.
  { unfold PoseDetector.key_landmarks in Hir.
    repeat (apply elem_of_cons in Hir as [?|Hir]; [by simplify_eq|]).
    by apply elem_of_nil in Hir. }
  unfold PoseDetector.assign, PoseDetector.span.
  destruct (float_of_int width) as [w|e] eqn:Hw; cbn [mbind exc_bind fst];
    [|by intros [=]].
  rewrite lookup_insert_eq. intros [= <-]. split; [done|].
  by exists l, r, w.
Qed.

Lemma shoulder_width_of_visible_landmarks_witness :
  (33 <= length shoulder_landmarks)%nat /\
  exists left_shoulder right_shoulder w,
    shoulder_landmarks !! 11%nat = Some left_shoulder /\
    shoulder_landmarks !! 12%nat = Some right_shoulder /\
    (0.5 <? PoseDetector.visibility left_shoulder)%float = true /\
    (0.5 <? PoseDetector.visibility right_shoulder)%float = true /\
    float_of_int 640 = Return w /\
    VFloat 160%float
    = VFloat (abs (PoseDetector.x left_shoulder - PoseDetector.x right_shoulder)
              * w)%float.
Proof.
  apply (shoulder_width_of_visible_landmarks square shoulder_landmarks 480 640
           (VFloat 160%float)).
  vm_compute. reflexivity.
Defined.
